(** * Telematics gateway: Codec 8 decoder, session handler and trip analyzer

    A shallow embedding of the JavaScript sources

    - [src/codec8.js]            (module [Codec8]),
    - [src/server/models.js]     (module [Models]),
    - [src/server/server.js]     (module [Server]),
    - [src/server/api.js]        (modules [Api], [Daily] and [Registry]),
    - [src/unnamed/part_002]     (import-logs.js, module [Importer]),

    followed by the properties of the specification, stated over these
    definitions.

    Conventions of the embedding.
    - A Node [Buffer] is a [list byte]; integers read from it are [Z].
    - A JavaScript Number that is always integral in the source (counts,
      offsets, millisecond time values, IO values of width 1, 2 and 4) is a
      [Z]. These values stay below 2^53 in magnitude in every run of the
      code (a time value is at most 8.64e15, an IO value at most 2^32), so
      their sums and differences are exact in binary64.
    - Arithmetic that leaves the integers is binary64 (module [F64],
      over Rocq's primitive floats) wherever its rounding reaches a result:
      the distance estimate, the average speeds, the fuel per 100 km, and
      the satellite and accelerometer-coverage averages with the
      comparisons made on them. A value [Math.round(x) / 10] or
      [Math.round(x) / 100] is kept as the decimal fraction it prints as,
      a [Q] with the rounded integer as numerator.
    - Two kinds of quotient are exact rationals [Q]. An integral Number
      divided by a constant (10, 60, 100, 1000, 60000) and passed to
      [Math.round] rounds to the same integer exactly and in binary64 for
      every integer below 2^52 in magnitude. The idle seconds of the event
      loop and the normalized penalty of the scoring step are rationals
      too; there binary64 rounding is not modelled.
    - A JavaScript String is the [string] of its UTF-8 encoding.
    - A [Date] and the ISO-8601 string [toISOString] renders it to are both
      represented by the millisecond time value.
    - [undefined]/[null] fields are [option]s; JavaScript truthiness and
      [||] defaults are written out where the source relies on them. *)

From Stdlib Require Import Floats.
From Stdlib Require Import ZArith QArith Qround List String Ascii Strings.Byte Bool Lia.
From Stdlib Require Import Lqa Sorting.Sorted.
From Stdlib Require Import DecimalString.
Import ListNotations.
Open Scope Z_scope.
#[local] Set Warnings "-inexact-float".

(* ===================================================================== *)
(** * Shared helpers: buffers, hex, decimal                               *)
(* ===================================================================== *)

Definition Buffer := list byte.

Definition byteZ (b : byte) : Z := Z.of_N (Byte.to_N b).

Definition byteOfZ (z : Z) : byte :=
  match Byte.of_N (Z.to_N (z mod 256)) with
  | Some b => b
  | None => x00
  end.

(** [buf.slice(start, stop)] for [0 <= start <= stop]. *)
Definition slice (buf : Buffer) (start stop : Z) : Buffer :=
  firstn (Z.to_nat (stop - start)) (skipn (Z.to_nat start) buf).

(** Big-endian unsigned value of a run of bytes
    ([readUInt8], [readUInt16BE], [readUInt32BE]). *)
Definition uintBE (bs : Buffer) : Z :=
  fold_left (fun acc b => acc * 256 + byteZ b) bs 0.

(** [readInt32BE]: two's complement reading of four bytes. *)
Definition int32BE (bs : Buffer) : Z :=
  let v := uintBE bs in
  if 2147483648 <=? v then v - 4294967296 else v.

Definition hexDigit (c : ascii) : option Z :=
  let n := Z.of_nat (nat_of_ascii c) in
  if (48 <=? n) && (n <=? 57) then Some (n - 48)
  else if (97 <=? n) && (n <=? 102) then Some (n - 87)
  else if (65 <=? n) && (n <=? 70) then Some (n - 55)
  else None.

(** [Buffer.from(s, 'hex')]: decoding stops at the first invalid pair. *)
Fixpoint fromHex (s : string) : Buffer :=
  match s with
  | String a (String b rest) =>
      match hexDigit a, hexDigit b with
      | Some x, Some y => byteOfZ (16 * x + y) :: fromHex rest
      | _, _ => []
      end
  | _ => []
  end.

Definition hexChar (n : Z) : ascii :=
  ascii_of_nat (Z.to_nat (if n <? 10 then 48 + n else 87 + n)).

(** [buf.toString('hex')]. *)
Fixpoint toHex (bs : Buffer) : string :=
  match bs with
  | [] => EmptyString
  | b :: rest =>
      String (hexChar (byteZ b / 16)) (String (hexChar (byteZ b mod 16)) (toHex rest))
  end.

(** [buf.toString('ascii')]: Node clears the high bit of every byte. *)
Fixpoint toAscii (bs : Buffer) : string :=
  match bs with
  | [] => EmptyString
  | b :: rest => String (ascii_of_nat (Z.to_nat (Z.land (byteZ b) 127))) (toAscii rest)
  end.

(** [s.replace(/\0/g, '')]. *)
Fixpoint stripNul (s : string) : string :=
  match s with
  | EmptyString => EmptyString
  | String c rest =>
      if Ascii.eqb c zero then stripNul rest else String c (stripNul rest)
  end.

(** Decimal rendering of an integer ([BigInt.prototype.toString],
    template-literal interpolation of a Number). *)
Definition decimal (z : Z) : string := NilZero.string_of_int (Z.to_int z).

(** [Math.round] on an exact rational: nearest integer, ties towards
    [+Infinity]. *)
Definition mathRound (q : Q) : Z := Qfloor (q + (1 # 2))%Q.

(** Binary64 Numbers: IEEE 754 double precision, round to nearest, ties
    to even, as [+], [-], [*] and [/] of primitive floats compute. *)
Module F64.

(** The Number an integral value denotes: the binary64 value nearest to
    [z] (exactly [z] below 2^53 in magnitude). *)
Definition ofZ (z : Z) : float :=
  SF2Prim (binary_normalize prec emax z 0 false).

(** [Math.round(x)] for a finite [x], the value [(-1)^s * m * 2^e]: the
    integer nearest to [x], ties towards [+Infinity], which is the floor
    of [x + 1/2] computed exactly. On NaN and the infinities, which
    [Math.round] returns as they are and which no Number below 2^53 in
    magnitude leads to, 0. *)
Definition round (x : float) : Z :=
  match Prim2SF x with
  | S754_finite s m e =>
      let n := if s then Z.neg m else Z.pos m in
      if 0 <=? e then n * 2 ^ e
      else (2 * n + 2 ^ (- e)) / 2 ^ (- e + 1)
  | _ => 0
  end.

End F64.

(** A JavaScript value that is either a Number or a String. *)
Inductive JsValue :=
| JNum (z : Z)
| JStr (s : string).

(* ===================================================================== *)
(** * src/codec8.js                                                       *)
(* ===================================================================== *)

Module Codec8.

(** The decoder object: [this.offset], [this.isExtended]; [this.data] is
    never assigned after construction and is a parameter of every method.
    [touched] is ghost state: the (index, width) of every access the
    decoder makes to [this.data], in order. *)
Record Decoder := mkDecoder {
  offset : Z;
  isExtended : bool;
  touched : list (Z * Z)
}.

(** What the methods throw. The two [Buffer overflow] messages differ in
    what they interpolate. *)
Inductive Error :=
| BufferOverflowBytes (n off len : Z)  (* readBytes *)
| BufferOverflow (off : Z)             (* readUInt8/16/32, readInt32, readUInt64 *)
| UnsupportedCodec (codecId : Z)
| InvalidTimeValue.                    (* RangeError of toISOString *)

Inductive Outcome (A : Type) :=
| Ok (a : A)
| Throw (e : Error).
Arguments Ok {A} a.
Arguments Throw {A} e.

(** A method body: runs on the decoder state, returns or throws; the
    mutations made before a throw persist, as in JavaScript. *)
Definition M (A : Type) := Decoder -> Outcome A * Decoder.

Definition ret {A} (a : A) : M A := fun s => (Ok a, s).

Definition bind {A B} (m : M A) (f : A -> M B) : M B :=
  fun s =>
    match m s with
    | (Ok a, s') => f a s'
    | (Throw e, s') => (Throw e, s')
    end.

Definition throw {A} (e : Error) : M A := fun s => (Throw e, s).

Declare Scope codec_scope.
Delimit Scope codec_scope with codec.
Notation "x <- m ;; k" := (bind m (fun x => k))
  (at level 61, m at next level, right associativity) : codec_scope.
Notation "m ;;; k" := (bind m (fun _ => k))
  (at level 61, right associativity) : codec_scope.
Local Open Scope codec_scope.

Definition getOffset : M Z := fun s => (Ok (offset s), s).

Definition getExtended : M bool := fun s => (Ok (isExtended s), s).

Definition setExtended (b : bool) : M unit :=
  fun s => (Ok tt, mkDecoder (offset s) b (touched s)).

(** [this.offset += n]. *)
Definition advance (n : Z) : M unit :=
  fun s => (Ok tt, mkDecoder (offset s + n) (isExtended s) (touched s)).

(** A [for (let i = 0; i < n; i++) { ... push(...) }] loop. *)
Fixpoint repeatM {A} (n : nat) (m : M A) : M (list A) :=
  match n with
  | O => ret []
  | S k => x <- m ;; xs <- repeatM k m ;; ret (x :: xs)
  end.

Record IOElement := mkIOElement {
  id : Z;
  size : Z;
  value : JsValue;
  raw : Buffer;
  name : string
}.

Record IO := mkIO {
  eventIoId : Z;
  totalCount : Z;
  elements : list IOElement
}.

Record GPS := mkGPS {
  longitude : Q;
  latitude : Q;
  altitude : Z;
  angle : Z;
  satellites : Z;
  speed : Z
}.

Record AVLRecord := mkAVLRecord {
  timestamp : Z;          (* time value of the ISO string *)
  timestampRaw : string;
  priority : Z;
  gps : GPS;
  io : IO
}.

Record DecodedPacket := mkDecodedPacket {
  preamble : Z;
  dataFieldLength : Z;
  codecId : Z;
  numberOfData1 : Z;
  avlRecords : list AVLRecord;
  numberOfData2 : Z;
  crc : Z
}.

Definition ioNames : list (Z * string) :=
  [ (1, "Digital Input 1"); (2, "Digital Input 2"); (3, "Digital Input 3");
    (4, "Digital Input 4"); (5, "Digital Output 1"); (6, "Digital Output 2");
    (9, "Analog Input 1"); (10, "Analog Input 2"); (11, "ICCID");
    (12, "Fuel Used GPS"); (13, "Fuel Rate GPS"); (14, "Average Fuel Use");
    (15, "Eco Score"); (16, "Total Odometer"); (17, "Axis X"); (18, "Axis Y");
    (19, "Axis Z"); (21, "GSM Signal"); (24, "Speed"); (25, "External Voltage");
    (26, "Internal Battery Voltage"); (30, "Number of DTC");
    (66, "External Voltage (mV)"); (67, "Battery Voltage (mV)");
    (68, "Battery Current (mA)"); (69, "GNSS Status"); (80, "Data Mode");
    (113, "Battery Level %"); (175, "Auto Geofence"); (181, "GNSS PDOP");
    (182, "GNSS HDOP"); (199, "Trip Odometer"); (200, "Sleep Mode");
    (205, "Cell ID"); (206, "Area Code"); (236, "Alarm"); (237, "Network Type");
    (238, "Operator Code"); (239, "Ignition"); (240, "Movement");
    (241, "GSM Operator"); (243, "Green Driving Type");
    (246, "Towing Detection"); (247, "Crash Detection");
    (249, "Jamming Detection"); (250, "Trip"); (251, "Idling");
    (252, "Ignition"); (253, "Green Driving Value"); (254, "Over Speeding");
    (255, "Geofence Zone"); (256, "VIN"); (281, "DOUT 3");
    (303, "Instant Movement"); (385, "Beacon"); (389, "OBD Total Mileage");
    (390, "OBD Fuel Level") ]%string.

Fixpoint lookupZ {A} (k : Z) (tbl : list (Z * A)) : option A :=
  match tbl with
  | [] => None
  | (k', v) :: rest => if k =? k' then Some v else lookupZ k rest
  end.

(** [ioNames[id] || `IO_${id}`] (no name in the table is empty). *)
Definition getIOName (id : Z) : string :=
  match lookupZ id ioNames with
  | Some n => n
  | None => ("IO_" ++ decimal id)%string
  end.

Section Methods.

(** [this.data]. *)
Variable data : Buffer.

Definition dataLength : Z := Z.of_nat (List.length data).

(** An access to [this.data] at [off .. off + n - 1]: [data.slice],
    [data.readUInt8], [data.readUInt16BE], [data.readUInt32BE],
    [data.readInt32BE]. The bytes come back; the access is recorded. *)
Definition access (off n : Z) : M Buffer :=
  fun s => (Ok (slice data off (off + n)),
            mkDecoder (offset s) (isExtended s) (touched s ++ [(off, n)])).

Definition readBytes (n : Z) : M Buffer :=
  off <- getOffset ;;
  if off + n >? dataLength then throw (BufferOverflowBytes n off dataLength)
  else
    bytes <- access off n ;;
    advance n ;;;
    ret bytes.

Definition readUInt8 : M Z :=
  off <- getOffset ;;
  if off + 1 >? dataLength then throw (BufferOverflow off)
  else
    val <- access off 1 ;;
    advance 1 ;;;
    ret (uintBE val).

Definition readUInt16 : M Z :=
  off <- getOffset ;;
  if off + 2 >? dataLength then throw (BufferOverflow off)
  else
    val <- access off 2 ;;
    advance 2 ;;;
    ret (uintBE val).

Definition readUInt32 : M Z :=
  off <- getOffset ;;
  if off + 4 >? dataLength then throw (BufferOverflow off)
  else
    val <- access off 4 ;;
    advance 4 ;;;
    ret (uintBE val).

Definition readInt32 : M Z :=
  off <- getOffset ;;
  if off + 4 >? dataLength then throw (BufferOverflow off)
  else
    val <- access off 4 ;;
    advance 4 ;;;
    ret (int32BE val).

Definition readUInt64 : M Z :=
  off <- getOffset ;;
  if off + 8 >? dataLength then throw (BufferOverflow off)
  else
    high <- access off 4 ;;
    low <- access (off + 4) 4 ;;
    advance 8 ;;;
    ret (uintBE high * 4294967296 + uintBE low).

(** One pass of a fixed-width group loop: id of width [idw] (1 for
    Codec 8, 2 for Codec 8E), then [w] bytes of value. *)
Definition readId (ext : bool) : M Z :=
  if ext then readUInt16 else readUInt8.

Definition fixedElement (ext : bool) (w : Z) : M IOElement :=
  i <- readId ext ;;
  r <- readBytes w ;;
  ret (mkIOElement i w
         (if w =? 8
          then JStr (decimal (uintBE (slice r 0 4) * 4294967296 + uintBE (slice r 4 8)))
          else JNum (uintBE r))
         r (getIOName i)).

Definition fixedGroup (ext : bool) (w : Z) : M (list IOElement) :=
  n <- readId ext ;;
  repeatM (Z.to_nat n) (fixedElement ext w).

Definition decodeIOElementStandard : M IO :=
  eventIoId <- readUInt8 ;;
  totalCount <- readUInt8 ;;
  e1 <- fixedGroup false 1 ;;
  e2 <- fixedGroup false 2 ;;
  e4 <- fixedGroup false 4 ;;
  e8 <- fixedGroup false 8 ;;
  ret (mkIO eventIoId totalCount (e1 ++ e2 ++ e4 ++ e8)).

Definition nxElement : M IOElement :=
  i <- readUInt16 ;;
  len <- readUInt16 ;;
  r <- readBytes len ;;
  ret (mkIOElement i len
         (if (i =? 256) || (i =? 281) || (i =? 385)
          then JStr (stripNul (toAscii r))
          else JStr (toHex r))
         r (getIOName i)).

Definition decodeIOElementExtended : M IO :=
  eventIoId <- readUInt16 ;;
  totalCount <- readUInt16 ;;
  e1 <- fixedGroup true 1 ;;
  e2 <- fixedGroup true 2 ;;
  e4 <- fixedGroup true 4 ;;
  e8 <- fixedGroup true 8 ;;
  nx <- readUInt16 ;;
  ex <- repeatM (Z.to_nat nx) nxElement ;;
  ret (mkIO eventIoId totalCount (e1 ++ e2 ++ e4 ++ e8 ++ ex)).

(** [new Date(Number(t)).toISOString()] throws a RangeError when the
    time value is beyond 8.64e15 ms; [t] is unsigned here. *)
Definition maxTimeValue : Z := 8640000000000000.

Definition decodeAVLRecord : M AVLRecord :=
  ts <- readUInt64 ;;
  priority <- readUInt8 ;;
  lon <- readInt32 ;;
  lat <- readInt32 ;;
  altitude <- readUInt16 ;;
  angle <- readUInt16 ;;
  satellites <- readUInt8 ;;
  speed <- readUInt16 ;;
  ext <- getExtended ;;
  io <- (if ext then decodeIOElementExtended else decodeIOElementStandard) ;;
  if ts >? maxTimeValue then throw InvalidTimeValue
  else
    ret (mkAVLRecord ts (decimal ts) priority
           (mkGPS (lon # 10000000) (lat # 10000000) altitude angle satellites speed)
           io).

Definition decode : M DecodedPacket :=
  preamble <- readUInt32 ;;
  dataFieldLength <- readUInt32 ;;
  codecId <- readUInt8 ;;
  numberOfData1 <- readUInt8 ;;
  (if codecId =? 8 then setExtended false
   else if codecId =? 142 then setExtended true
   else throw (UnsupportedCodec codecId)) ;;;
  avlRecords <- repeatM (Z.to_nat numberOfData1) decodeAVLRecord ;;
  numberOfData2 <- readUInt8 ;;
  crc <- readUInt32 ;;
  ret (mkDecodedPacket preamble dataFieldLength codecId numberOfData1
         avlRecords numberOfData2 crc).

End Methods.

(** [new Codec8Decoder(buffer)]. *)
Definition newDecoder : Decoder := mkDecoder 0 false [].

(** [decodeCodec8(buffer)]: the packet, or [{ error: message }]. *)
Definition decodeCodec8 (buffer : Buffer) : Outcome DecodedPacket :=
  fst (decode buffer newDecoder).

(** The decoder's accesses to the buffer during [decodeCodec8(buffer)]. *)
Definition decodeAccesses (buffer : Buffer) : list (Z * Z) :=
  touched (snd (decode buffer newDecoder)).

(** [parseIMEI(buffer)]. *)
Definition parseIMEI (buffer : Buffer) : option string :=
  if Z.of_nat (List.length buffer) <? 2 then None
  else
    let len := uintBE (slice buffer 0 2) in
    if negb (len =? 15) then None
    else if Z.of_nat (List.length buffer) <? 2 + len then None
    else Some (toAscii (slice buffer 2 (2 + len))).

End Codec8.

(** JavaScript truthiness of a Number-or-String value. *)
Definition truthy (v : JsValue) : bool :=
  match v with
  | JNum z => negb (z =? 0)
  | JStr s => negb (String.eqb s EmptyString)
  end.

Definition optStringEqb (a b : option string) : bool :=
  match a, b with
  | Some x, Some y => String.eqb x y
  | None, None => true
  | _, _ => false
  end.

(* ===================================================================== *)
(** * src/server/models.js                                                *)
(* ===================================================================== *)

Module Models.

(** A document of the [devices] collection. Of the operator's metadata
    only [plateNumber] is read by the server. [approved] is absent
    ([None]) on a document that [upsertDevice] inserted. *)
Record Device := mkDevice {
  imei : option string;
  modemType : option string;
  vin : option JsValue;
  approved : option bool;
  plateNumber : option string;
  createdAt : option Z;
  lastSeen : option Z
}.

(** A document of a [raw_<type>] collection. *)
Record RawDoc := mkRawDoc {
  raw_imei : option string;
  raw_vin : option JsValue;
  raw_modemType : string;
  rawHex : string;
  raw_timestamp : Z
}.

Record IOEntry := mkIOEntry {
  entry_id : Z;
  entry_name : string;
  entry_value : JsValue;
  entry_size : Z
}.

(** A document of a [records_<type>] collection. [named] holds the
    assignments [doc[fieldName] = elem.value] in the order they are made:
    the last one for a name is the field's value. *)
Record RecordDoc := mkRecordDoc {
  rec_imei : option string;
  rec_vin : option JsValue;
  rec_modemType : string;
  rec_timestamp : Z;
  rec_priority : Z;
  rec_gps : Codec8.GPS;
  rec_eventIoId : Z;
  ioTotalCount : Z;
  ioElements : list IOEntry;
  rec_createdAt : Z;
  named : list (string * JsValue)
}.

(** The store behind [getDb()]: the [devices] collection and the
    per-type collections, each document tagged with its collection's
    name. [uniqueRecords] tells whether [records_fmc003] carries the
    unique index on [(timestamp, imei)]; the server never creates it
    ([createDeviceIndexes] makes plain indexes only), the importer and
    the duplicate clean-up script do. *)
Record Db := mkIndexedDb {
  devices : list Device;
  rawDocs : list (string * RawDoc);
  recordDocs : list (string * RecordDoc);
  uniqueRecords : bool
}.

(** A store on which the unique index has not been created. *)
Definition mkDb (devices : list Device) (rawDocs : list (string * RawDoc))
    (recordDocs : list (string * RecordDoc)) : Db :=
  mkIndexedDb devices rawDocs recordDocs false.

Definition lowerChar (c : ascii) : ascii :=
  let n := nat_of_ascii c in
  if (Nat.leb 65 n && Nat.leb n 90)%bool then ascii_of_nat (n + 32) else c.

Definition isLowerAlnum (c : ascii) : bool :=
  let n := nat_of_ascii c in
  ((Nat.leb 97 n && Nat.leb n 122) || (Nat.leb 48 n && Nat.leb n 57))%bool.

(** [s.toLowerCase().replace(/[^a-z0-9]/g, '')] on the UTF-8 encoding
    of [s]. Besides A-Z, two characters lower-case to a letter the
    pattern keeps: U+0130 (bytes C4 B0) to [i] followed by U+0307, which
    the pattern removes, and U+212A KELVIN SIGN (bytes E2 84 AA) to [k].
    Every other character outside ASCII lower-cases to characters outside
    ASCII, whose bytes are all 0x80 or more, and is removed. *)
Fixpoint cleanType (s : string) : string :=
  match s with
  | EmptyString => EmptyString
  | String c rest =>
      let plain :=
        let c' := lowerChar c in
        if isLowerAlnum c' then String c' (cleanType rest) else cleanType rest in
      match rest with
      | String c2 rest2 =>
          if ((nat_of_ascii c =? 196) && (nat_of_ascii c2 =? 176))%nat
          then String "i" (cleanType rest2)
          else
            match rest2 with
            | String c3 rest3 =>
                if ((nat_of_ascii c =? 226) && (nat_of_ascii c2 =? 132)
                    && (nat_of_ascii c3 =? 170))%nat
                then String "k" (cleanType rest3)
                else plain
            | EmptyString => plain
            end
      | EmptyString => plain
      end
  end.

(** [getCollectionName(prefix, modemType)]. *)
Definition getCollectionName (prefix : string) (modemType : option string) : string :=
  let type :=
    cleanType (match modemType with
               | Some t => if String.eqb t EmptyString then "unknown" else t
               | None => "unknown"
               end) in
  (prefix ++ "_" ++ type)%string.

Definition fieldMap : list (Z * string) :=
  [ (12, "fuelUsedGps"); (13, "fuelRateGps"); (16, "totalOdometer");
    (21, "gsmSignal"); (24, "speedIO"); (66, "externalVoltage");
    (67, "batteryVoltage"); (68, "batteryCurrent"); (69, "gnssStatus");
    (113, "batteryLevel"); (181, "gnssPdop"); (182, "gnssHdop");
    (199, "tripOdometer"); (200, "sleepMode"); (205, "gsmCellId");
    (206, "gsmAreaCode"); (237, "networkType"); (239, "ignition");
    (240, "movement"); (241, "gsmOperator"); (256, "vin");
    (30, "obdDtcCount"); (31, "obdEngineLoad"); (32, "obdCoolantTemp");
    (33, "obdShortFuelTrim"); (34, "obdFuelPressure"); (35, "obdIntakeMap");
    (36, "obdEngineRpm"); (37, "obdVehicleSpeed"); (38, "obdTimingAdvance");
    (39, "obdIntakeAirTemp"); (40, "obdMaf"); (41, "obdThrottlePosition");
    (42, "obdRuntimeSinceStart"); (43, "obdDistanceWithMil");
    (48, "obdFuelLevel"); (49, "obdDistanceSinceCleared");
    (50, "obdBarometricPressure"); (51, "obdControlModuleVoltage");
    (53, "obdAmbientAirTemp"); (58, "obdEngineOilTemp"); (60, "obdFuelRate");
    (389, "obdTotalMileage"); (390, "obdFuelLevelInput");
    (243, "greenDrivingDuration"); (253, "greenDrivingValue");
    (246, "towingDetection"); (247, "crashDetection");
    (249, "jammingDetection"); (250, "tripEvent"); (251, "idlingEvent");
    (252, "unplugEvent"); (254, "overspeedingEvent");
    (17, "accelerometerX"); (18, "accelerometerY"); (19, "accelerometerZ") ]%string.

(** [ioIdToFieldName(id)]: [fieldMap[id] || null]. *)
Definition ioIdToFieldName (id : Z) : option string :=
  Codec8.lookupZ id fieldMap.

(** [vin || null]. *)
Definition orNull (v : option JsValue) : option JsValue :=
  match v with
  | Some x => if truthy x then Some x else None
  | None => None
  end.

(** [buildRecordDoc(imei, vin, modemType, record)]; [now] is [new Date()]. *)
Definition buildRecordDoc (now : Z) (imei : option string) (vin : option JsValue)
    (modemType : string) (record : Codec8.AVLRecord) : RecordDoc :=
  let els := Codec8.elements (Codec8.io record) in
  mkRecordDoc imei (orNull vin) modemType
    (Codec8.timestamp record) (Codec8.priority record) (Codec8.gps record)
    (Codec8.eventIoId (Codec8.io record)) (Codec8.totalCount (Codec8.io record))
    (map (fun e => mkIOEntry (Codec8.id e) (Codec8.name e) (Codec8.value e) (Codec8.size e)) els)
    now
    (flat_map (fun e => match ioIdToFieldName (Codec8.id e) with
                        | Some f => [(f, Codec8.value e)]
                        | None => []
                        end) els).

(** [saveRawData]: no store, no write. *)
Definition saveRawData (now : Z) (db : option Db) (imei : option string)
    (vin : option JsValue) (hex : string) (modemType : string) : option Db :=
  match db with
  | None => None
  | Some d =>
      let collection := getCollectionName "raw" (Some modemType) in
      Some (mkIndexedDb (devices d)
              (rawDocs d ++ [(collection, mkRawDoc imei (orNull vin) modemType hex now)])
              (recordDocs d) (uniqueRecords d))
  end.

(** The key of the unique index, [(timestamp, imei)], is taken: a
    document of [collection] among [stored] has this timestamp and this
    IMEI, [null] counting as a value. *)
Definition keyTaken (stored : list (string * RecordDoc)) (collection : string)
    (timestamp : Z) (imei : option string) : bool :=
  existsb (fun cd => String.eqb (fst cd) collection
                     && (rec_timestamp (snd cd) =? timestamp)
                     && optStringEqb (rec_imei (snd cd)) imei)
    stored.

(** [collection.insertMany(docs)], ordered as by default: the documents
    are inserted one after the other; under a unique index the first
    one whose pair [(timestamp, imei)] is taken raises the duplicate-key
    error and ends the insertion, and what was inserted before it
    stays. *)
Fixpoint insertMany (unique : bool) (collection : string) (docs : list RecordDoc)
    (stored : list (string * RecordDoc)) : list (string * RecordDoc) :=
  match docs with
  | [] => stored
  | doc :: rest =>
      if unique && keyTaken stored collection (rec_timestamp doc) (rec_imei doc)
      then stored
      else insertMany unique collection rest (stored ++ [(collection, doc)])
  end.

(** [saveRecords]: [insertMany] of one document per decoded record; the
    error of a duplicate key is caught and logged. *)
Definition saveRecords (now : Z) (db : option Db) (imei : option string)
    (vin : option JsValue) (modemType : string) (records : list Codec8.AVLRecord)
    : option Db :=
  match db with
  | None => None
  | Some d =>
      let collection := getCollectionName "records" (Some modemType) in
      let docs := map (buildRecordDoc now imei vin modemType) records in
      let unique := uniqueRecords d && String.eqb collection "records_fmc003" in
      Some (mkIndexedDb (devices d) (rawDocs d)
              (insertMany unique collection docs (recordDocs d))
              (uniqueRecords d))
  end.

Definition vinIsSet (v : option JsValue) : bool :=
  match v with Some x => truthy x | None => false end.

(** The [$set] part of [upsertDevice] on a matched document. *)
Definition touchDevice (now : Z) (vin : option JsValue) (modemType : string)
    (dev : Device) : Device :=
  mkDevice (imei dev) (Some modemType)
    (if vinIsSet vin then vin else Models.vin dev)
    (approved dev) (plateNumber dev) (createdAt dev) (Some now).

Fixpoint updateFirst (p : Device -> bool) (f : Device -> Device)
    (l : list Device) : option (list Device) :=
  match l with
  | [] => None
  | d :: rest =>
      if p d then Some (f d :: rest)
      else match updateFirst p f rest with
           | Some rest' => Some (d :: rest')
           | None => None
           end
  end.

(** [upsertDevice(imei, vin, modemType)]: [updateOne] with [upsert: true]. *)
Definition upsertDevice (now : Z) (db : option Db) (imei : option string)
    (vin : option JsValue) (modemType : string) : option Db :=
  match db with
  | None => None
  | Some d =>
      let devs :=
        match updateFirst (fun dev => optStringEqb (Models.imei dev) imei)
                (touchDevice now vin modemType) (devices d) with
        | Some devs' => devs'
        | None =>
            devices d ++
              [mkDevice imei (Some modemType)
                 (if vinIsSet vin then vin else None)
                 None None (Some now) (Some now)]
        end in
      Some (mkIndexedDb devs (rawDocs d) (recordDocs d) (uniqueRecords d))
  end.

(** [getDevice(imei)]: [findOne({ imei })], or null without a store. *)
Definition getDevice (db : option Db) (imei : string) : option Device :=
  match db with
  | None => None
  | Some d => find (fun dev => optStringEqb (Models.imei dev) (Some imei)) (devices d)
  end.

End Models.

(* ===================================================================== *)
(** * src/server/server.js                                                *)
(* ===================================================================== *)

Module Server.

(** The variables a connection's closure holds, with what it has written
    to its socket and whether it has destroyed it. *)
Record Session := mkSession {
  deviceIMEI : option string;
  deviceVIN : option JsValue;
  deviceType : option string;
  written : list Buffer;
  destroyed : bool
}.

(** The closure on [net.createServer]'s callback entry. *)
Definition newSession : Session := mkSession None None None [] false.

(** [CODEC_DEVICE_MAP[codecId] || 'UNKNOWN']. *)
Definition getDeviceType (codecId : Z) : string :=
  if (codecId =? 8) || (codecId =? 142) then "FMC003" else "UNKNOWN".

(** [extractVIN(ioElements)]. *)
Definition extractVIN (io : Codec8.IO) : option JsValue :=
  match find (fun e => Codec8.id e =? 256) (Codec8.elements io) with
  | Some e => Some (Codec8.value e)
  | None => None
  end.

(** [Buffer.alloc(4)] then [writeUInt32BE(n, 0)]. *)
Definition uint32BE (n : Z) : Buffer :=
  [byteOfZ (n / 16777216); byteOfZ (n / 65536); byteOfZ (n / 256); byteOfZ n].

(** [if (imei)]: a non-empty string. *)
Definition loginIMEI (buffer : Buffer) : option string :=
  match Codec8.parseIMEI buffer with
  | Some s => if String.eqb s EmptyString then None else Some s
  | None => None
  end.

(** [!device || device.approved === false]. *)
Definition rejected (device : option Models.Device) : bool :=
  match device with
  | None => true
  | Some d =>
      match Models.approved d with
      | Some false => true
      | _ => false
      end
  end.

(** The ['data'] listener, run to completion on one chunk; [now] is the
    server clock. It returns the store and the session as it leaves
    them. *)
Definition onData (now : Z) (db : option Models.Db) (s : Session)
    (buffer : Buffer) : option Models.Db * Session :=
  match loginIMEI buffer with
  | Some imei =>
      let device := Models.getDevice db imei in
      if rejected device then
        (db, mkSession (deviceIMEI s) (deviceVIN s) (deviceType s)
               (written s ++ [[x00]]) true)
      else
        (db, mkSession (Some imei) (deviceVIN s) (deviceType s)
               (written s ++ [[x01]]) (destroyed s))
  | None =>
      match Codec8.decodeCodec8 buffer with
      | Codec8.Throw _ => (db, s)
      | Codec8.Ok decoded =>
          let type := getDeviceType (Codec8.codecId decoded) in
          let vin :=
            match Codec8.avlRecords decoded with
            | first :: _ =>
                if Models.vinIsSet (deviceVIN s) then deviceVIN s
                else extractVIN (Codec8.io first)
            | [] => deviceVIN s
            end in
          let db1 := Models.upsertDevice now db (deviceIMEI s) vin type in
          let db2 := Models.saveRawData now db1 (deviceIMEI s) vin (toHex buffer) type in
          let db3 :=
            match Codec8.avlRecords decoded with
            | [] => db2
            | _ :: _ =>
                Models.saveRecords now db2 (deviceIMEI s) vin type
                  (Codec8.avlRecords decoded)
            end in
          (db3, mkSession (deviceIMEI s) vin (Some type)
                  (written s ++ [uint32BE (Codec8.numberOfData1 decoded)])
                  (destroyed s))
      end
  end.

(** A connection's life as the chunks it receives: no ['data'] event is
    delivered once the socket is destroyed. *)
Fixpoint session (now : Z) (db : option Models.Db) (s : Session)
    (chunks : list Buffer) : option Models.Db * Session :=
  match chunks with
  | [] => (db, s)
  | buffer :: rest =>
      if destroyed s then (db, s)
      else let '(db', s') := onData now db s buffer in session now db' s' rest
  end.

(** The documents in the record collections that carry a given [imei]. *)
Definition persistedFor (db : option Models.Db) (imei : option string)
    : list Models.RecordDoc :=
  match db with
  | None => []
  | Some d =>
      filter (fun doc => optStringEqb (Models.rec_imei doc) imei)
        (map snd (Models.recordDocs d))
  end.

Definition recordCount (db : option Models.Db) : nat :=
  match db with
  | None => O
  | Some d => List.length (Models.recordDocs d)
  end.

End Server.

(* ===================================================================== *)
(** * src/server/api.js: driver behaviour and trips                       *)
(* ===================================================================== *)

Module Api.

(** A stored record as the analyzer reads it. The projected IO fields are
    the Numbers that IO groups of width 1, 2 and 4 decode to; an absent
    field is [None]. [timestamp] is the time value of the stored ISO
    string. *)
Record Doc := mkDoc {
  timestamp : Z;
  gps : option Codec8.GPS;
  ignition : option Z;
  movement : option Z;
  obdEngineRpm : option Z;
  obdVehicleSpeed : option Z;
  totalOdometer : option Z;
  fuelUsedGps : option Z;
  accelerometerX : option Z;
  accelerometerY : option Z
}.

Definition isSome {A} (o : option A) : bool :=
  match o with Some _ => true | None => false end.

(** A Number field that is defined and non-zero. *)
Definition truthyZ (o : option Z) : bool :=
  match o with Some v => negb (v =? 0) | None => false end.

(** [x || 0], and the Number that [null] converts to in arithmetic. *)
Definition num (o : option Z) : Z :=
  match o with Some v => v | None => 0 end.

Definition qOfZ (z : Z) : Q := inject_Z z.

Definition qmax (a b : Q) : Q := if Qle_bool a b then b else a.
Definition qmin (a b : Q) : Q := if Qle_bool a b then a else b.
Definition qltb (a b : Q) : bool := negb (Qle_bool b a).

(** [r.obdVehicleSpeed || r.gps?.speed || 0]. *)
Definition speedOf (r : Doc) : Z :=
  if truthyZ (obdVehicleSpeed r) then num (obdVehicleSpeed r)
  else num (option_map Codec8.speed (gps r)).

(** [r.gps?.satellites > 0]. *)
Definition hasSatellites (r : Doc) : bool :=
  match gps r with
  | Some g => Codec8.satellites g >? 0
  | None => false
  end.

(** [toSigned16(val)]. *)
Definition toSigned16 (val : option Z) : option Z :=
  match val with
  | None => None
  | Some v => Some (if v >? 32767 then v - 65536 else v)
  end.

Fixpoint insertZ (x : Z) (l : list Z) : list Z :=
  match l with
  | [] => [x]
  | y :: rest => if x <=? y then x :: l else y :: insertZ x rest
  end.

(** [values.sort((a, b) => a - b)] on Numbers. *)
Definition sortZ (l : list Z) : list Z := fold_right insertZ [] l.

(** The medians of the windows [values[i-1], values[i], values[i+1]]. *)
Fixpoint windowMedians (values : list Z) : list Z :=
  match values with
  | a :: ((b :: c :: _) as rest) => nth 1 (sortZ [a; b; c]) 0 :: windowMedians rest
  | _ => []
  end.

(** [medianFilter(values)]. *)
Definition medianFilter (values : list Z) : list Z :=
  if (List.length values <? 3)%nat then values
  else [hd 0 values] ++ windowMedians values ++ [last values 0].

Inductive Reason := poor_gnss | low_accel_coverage | short_trip | distance_estimated.

Inductive Level := high | medium | low.

Definition isShortTrip (r : Reason) : bool :=
  match r with short_trip => true | _ => false end.

Definition isLow (l : Level) : bool :=
  match l with low => true | _ => false end.

Definition isHigh (l : Level) : bool :=
  match l with high => true | _ => false end.

Record Confidence := mkConfidence {
  level : Level;
  reasons : list Reason;
  conf_accelCoverage : Z;
  conf_avgSatellites : Q
}.

Record Events := mkEvents {
  ev_hardBraking : Z;
  ev_hardAcceleration : Z;
  ev_harshCornering : Z;
  ev_idleMinutes : Z
}.

Record RawPenalties := mkRawPenalties {
  raw_hardBraking : Z;
  raw_hardAcceleration : Z;
  raw_harshCornering : Z
}.

Record Penalties := mkPenalties {
  raw : RawPenalties;
  totalRaw : Z;
  normalized : Q;
  pen_durationFactor : Q;
  severeEvents : Z;
  idlePenalty : Z
}.

Record DriverBehavior := mkDriverBehavior {
  score : Z;
  driverScore : Z;
  efficiencyScore : Z;
  perfectTrip : bool;
  confidence : Confidence;
  events : Events;
  penalties : Penalties;
  db_maxSpeed : Z;
  db_maxRpm : Z;
  baseline : Z * Z;
  recordsWithAccel : Z;
  totalRecords : Z;
  tripDurationMinutes : Z
}.

(** The scoring step (STEP 4) up to the clamped [driverScore]. *)
Record Scoring := mkScoring {
  sc_durationFactor : Q;
  sc_rawPenalties : RawPenalties;
  sc_totalRawPenalty : Z;
  sc_severeEvents : Z;
  sc_normalizedPenalty : Q;
  sc_driverScore : Z
}.

Definition scoring (hardBraking hardAcceleration harshCornering : Z)
    (tripDurationMinutes : Z) : Scoring :=
  let durationFactor := qmin 6 (qmax 1 (qOfZ tripDurationMinutes / 10)) in
  let rawPenalties :=
    mkRawPenalties (Z.min 25 (hardBraking * 4))
                   (Z.min 20 (hardAcceleration * 2))
                   (Z.min 15 (harshCornering * 3)) in
  let totalRawPenalty :=
    fold_left Z.add
      [raw_hardBraking rawPenalties; raw_hardAcceleration rawPenalties;
       raw_harshCornering rawPenalties] 0 in
  let severeEvents := hardBraking + harshCornering in
  let normalizedPenalty :=
    qmax (qOfZ totalRawPenalty / durationFactor)
         (if severeEvents >? 0 then 3 else 0) in
  let driverScore := Z.max 0 (Z.min 100 (mathRound (100 - normalizedPenalty))) in
  mkScoring durationFactor rawPenalties totalRawPenalty severeEvents
    normalizedPenalty driverScore.

(** The variables of the event loop (STEP 3). *)
Record Detect := mkDetect {
  hardBraking : Z;
  hardAcceleration : Z;
  harshCornering : Z;
  idleSeconds : Q;
  maxSpeed : Z;
  maxRpm : Z;
  lastBrakeTime : option Z;
  lastAccelTime : option Z;
  lastCornerTime : option Z;
  prevRecord : option Doc
}.

Definition HARD_BRAKE_THRESHOLD : Z := 150.
Definition HARD_ACCEL_THRESHOLD : Z := 200.
Definition HARSH_CORNER_THRESHOLD : Z := 150.
Definition MIN_SPEED_FOR_EVENTS : Z := 10.
Definition MIN_SPEED_FOR_CORNERING : Z := 20.
Definition EVENT_COOLDOWN_MS : Z := 2000.

(** [!last || (currentTime - last) > EVENT_COOLDOWN_MS]. *)
Definition cooledDown (last : option Z) (currentTime : Z) : bool :=
  negb (truthyZ last) || (currentTime - num last >? EVENT_COOLDOWN_MS).

(** [accelRecords.findIndex(ar => ar.timestamp === r.timestamp)]. *)
Fixpoint findIndex (p : Doc -> bool) (l : list Doc) : option nat :=
  match l with
  | [] => None
  | x :: rest =>
      if p x then Some O
      else match findIndex p rest with
           | Some i => Some (S i)
           | None => None
           end
  end.

Definition detectStep (accelRecords : list Doc) (xFiltered yFiltered : list Z)
    (d : Detect) (r : Doc) : Detect :=
  let speed := speedOf r in
  let rpm := num (obdEngineRpm r) in
  let currentTime := timestamp r in
  let ign := num (ignition r) in
  let mov := num (movement r) in
  let maxSpeed' := if speed >? maxSpeed d then speed else maxSpeed d in
  let maxRpm' := if rpm >? maxRpm d then rpm else maxRpm d in
  let deltaSeconds :=
    match prevRecord d with
    | None => 5%Q
    | Some p => qmin (qmax 1 (qOfZ (timestamp r - timestamp p) / 1000)) 60
    end in
  let idle' :=
    if (ign =? 1) && (speed <? 3) && (mov =? 0)
    then (idleSeconds d + deltaSeconds)%Q else idleSeconds d in
  let accelIdx := findIndex (fun ar => timestamp ar =? timestamp r) accelRecords in
  match accelIdx with
  | Some i =>
      if speed >=? MIN_SPEED_FOR_EVENTS then
        let devX := nth i xFiltered 0 in
        let devY := nth i yFiltered 0 in
        let brake := (devX <? - HARD_BRAKE_THRESHOLD) && cooledDown (lastBrakeTime d) currentTime in
        let accel := (devX >? HARD_ACCEL_THRESHOLD) && cooledDown (lastAccelTime d) currentTime in
        let corner := (Z.abs devY >? HARSH_CORNER_THRESHOLD)
                      && (speed >=? MIN_SPEED_FOR_CORNERING)
                      && cooledDown (lastCornerTime d) currentTime in
        mkDetect
          (if brake then hardBraking d + 1 else hardBraking d)
          (if accel then hardAcceleration d + 1 else hardAcceleration d)
          (if corner then harshCornering d + 1 else harshCornering d)
          idle' maxSpeed' maxRpm'
          (if brake then Some currentTime else lastBrakeTime d)
          (if accel then Some currentTime else lastAccelTime d)
          (if corner then Some currentTime else lastCornerTime d)
          (Some r)
      else
        mkDetect (hardBraking d) (hardAcceleration d) (harshCornering d)
          idle' maxSpeed' maxRpm'
          (lastBrakeTime d) (lastAccelTime d) (lastCornerTime d) (Some r)
  | None =>
      mkDetect (hardBraking d) (hardAcceleration d) (harshCornering d)
        idle' maxSpeed' maxRpm'
        (lastBrakeTime d) (lastAccelTime d) (lastCornerTime d) (Some r)
  end.

Definition hasAccel (r : Doc) : bool :=
  isSome (accelerometerX r) && isSome (accelerometerY r).

Definition sumZ (l : list Z) : Z := fold_left Z.add l 0.

(** STEP 1: the accelerometer baseline on one axis. *)
Definition baselineOf (axis : Doc -> option Z) (stationaryRecords accelRecords : list Doc) : Z :=
  if (3 <=? List.length stationaryRecords)%nat then
    let values := sortZ (map (fun r => num (toSigned16 (axis r))) stationaryRecords) in
    nth (Nat.div (List.length values) 2) values 0
  else
    let firstRecords := firstn 5 accelRecords in
    mathRound (qOfZ (sumZ (map (fun r => num (toSigned16 (axis r))) firstRecords))
               / qOfZ (Z.of_nat (List.length firstRecords))).

(** The confidence reasons, in the order they are pushed. *)
Definition confidenceReasons (avgSatellites accelCoverage : float)
    (tripDurationMinutes : Z) (startOdo endOdo : option Z) : list Reason :=
  (if (avgSatellites <? 3)%float then [poor_gnss] else []) ++
  (if (accelCoverage <? 0.3)%float then [low_accel_coverage] else []) ++
  (if tripDurationMinutes <? 5 then [short_trip] else []) ++
  (if truthyZ startOdo && truthyZ endOdo && (num startOdo =? num endOdo)
   then [distance_estimated] else []).

Definition confidenceLevelOf (reasons : list Reason) : Level :=
  let scoreAffectingReasons := filter (fun r => negb (isShortTrip r)) reasons in
  if (2 <=? List.length scoreAffectingReasons)%nat then low
  else if (List.length scoreAffectingReasons =? 1)%nat then medium
  else high.

(** STEPS 1 to 3 of [calculateDriverBehavior]: the baseline, the
    filtered accelerometer series, and the event loop over the trip's
    records. Returns the baseline and the loop's variables. *)
Definition detectEvents (tripRecords accelRecords : list Doc) : Z * Z * Detect :=
  let stationaryRecords :=
    filter (fun r => (speedOf r <? 3) && hasAccel r) tripRecords in
  let baselineX := baselineOf accelerometerX stationaryRecords accelRecords in
  let baselineY := baselineOf accelerometerY stationaryRecords accelRecords in
  let xRaw := map (fun r => num (toSigned16 (accelerometerX r)) - baselineX) accelRecords in
  let yRaw := map (fun r => num (toSigned16 (accelerometerY r)) - baselineY) accelRecords in
  let xFiltered := medianFilter xRaw in
  let yFiltered := medianFilter yRaw in
  (baselineX, baselineY,
   fold_left (detectStep accelRecords xFiltered yFiltered) tripRecords
     (mkDetect 0 0 0 0 0 0 None None None None)).

(** STEP 4 of [calculateDriverBehavior] and what follows it: the scores,
    the confidence, the perfect-trip flag, the damping, and the object
    returned. [first] is [tripRecords[0]]. *)
Definition report (tripRecords accelRecords : list Doc) (first : Doc)
    (baselineX baselineY : Z) (d : Detect) : DriverBehavior :=
  let tripStart := timestamp first in
  let tripEnd := timestamp (last tripRecords first) in
  let tripDurationMinutes := mathRound (qOfZ (tripEnd - tripStart) / 60000) in
  let sc := scoring (hardBraking d) (hardAcceleration d) (harshCornering d)
              tripDurationMinutes in
  let idleMinutes := mathRound (idleSeconds d / 60) in
  let idlePenalty := Z.min 30 (idleMinutes / 5 * 2) in
  let efficiencyScore := Z.max 0 (Z.min 100 (100 - idlePenalty)) in
  let gpsRecords := filter hasSatellites tripRecords in
  let avgSatellites :=
    if (0 <? List.length gpsRecords)%nat
    then (F64.ofZ (sumZ (map (fun r => num (option_map Codec8.satellites (gps r)))
                           gpsRecords))
          / F64.ofZ (Z.of_nat (List.length gpsRecords)))%float
    else 0%float in
  let accelCoverage :=
    (F64.ofZ (Z.of_nat (List.length accelRecords))
     / F64.ofZ (Z.of_nat (List.length tripRecords)))%float in
  let startOdo := totalOdometer first in
  let endOdo := totalOdometer (last tripRecords first) in
  let confidenceReasons :=
    confidenceReasons avgSatellites accelCoverage tripDurationMinutes startOdo endOdo in
  let confidenceLevel := confidenceLevelOf confidenceReasons in
  let perfectTrip :=
    (sc_totalRawPenalty sc =? 0) && isHigh confidenceLevel
    && (tripDurationMinutes >=? 5) in
  let finalDriverScore :=
    if isLow confidenceLevel && (sc_driverScore sc >? 95) then 95
    else sc_driverScore sc in
  mkDriverBehavior finalDriverScore finalDriverScore efficiencyScore
    perfectTrip
    (mkConfidence confidenceLevel confidenceReasons
       (F64.round (accelCoverage * 100))
       (qOfZ (F64.round (avgSatellites * 10)) / 10))
    (mkEvents (hardBraking d) (hardAcceleration d) (harshCornering d) idleMinutes)
    (mkPenalties (sc_rawPenalties sc) (sc_totalRawPenalty sc)
       (qOfZ (mathRound (sc_normalizedPenalty sc * 10)) / 10)
       (qOfZ (mathRound (sc_durationFactor sc * 10)) / 10)
       (sc_severeEvents sc) idlePenalty)
    (maxSpeed d) (maxRpm d) (baselineX, baselineY)
    (Z.of_nat (List.length accelRecords))
    (Z.of_nat (List.length tripRecords))
    tripDurationMinutes.

(** [calculateDriverBehavior(tripRecords)]; [None] is the [null] it
    returns on fewer than five accelerometer records (an empty list has
    none). *)
Definition calculateDriverBehavior (tripRecords : list Doc) : option DriverBehavior :=
  match tripRecords with
  | [] => None
  | first :: _ =>
      let accelRecords := filter hasAccel tripRecords in
      if (List.length accelRecords <? 5)%nat then None
      else
        let '(baselineX, baselineY, d) := detectEvents tripRecords accelRecords in
        Some (report tripRecords accelRecords first baselineX baselineY d)
  end.

(** ** [GET /devices/:imei/trips] *)

(** [currentTrip] while the trip is open. *)
Record TripStart := mkTripStart {
  ts_startTime : Z;
  ts_startOdometer : option Z
}.

(** [currentTrip] as pushed to [trips]. An absent property is [None]; the
    two flags are only ever set to [true]. *)
Record Trip := mkTrip {
  startTime : Z;
  startOdometer : option Z;
  endTime : Z;
  endOdometer : option Z;
  distanceMeters : option Z;
  distanceKm : option Q;
  distanceEstimated : bool;
  duration : string;
  durationMinutes : Z;
  avgSpeedTotal : option Q;
  trip_maxSpeed : Z;
  avgSpeedMoving : option Q;
  fuelUsedMl : option Z;
  fuelUsedLiters : option Q;
  fuelPer100km : option Q;
  fuelFromGps : bool;
  startPosition : option Codec8.GPS;
  endPosition : option Codec8.GPS;
  driverBehavior : option DriverBehavior
}.

(** [const isEngineOn = (r) => r.ignition === 1 || (r.obdEngineRpm && r.obdEngineRpm > 0)],
    as the conditions of the loop read it. *)
Definition isEngineOn (r : Doc) : bool :=
  match ignition r with
  | Some 1 => true
  | _ => truthyZ (obdEngineRpm r) && (num (obdEngineRpm r) >? 0)
  end.

(** The speed-times-time estimate: the loop over [i = 1 .. length - 1]
    adds [(speed(i-1) / 3.6) * deltaSeconds] for each pair of successive
    trip records, in binary64 and in this order. *)
Definition estimateDistance (tripRecords : list Doc) : float :=
  fold_left
    (fun estimated pair =>
       let '(prev, curr) := pair in
       let deltaSeconds :=
         ((F64.ofZ (timestamp curr) - F64.ofZ (timestamp prev)) / 1000)%float in
       (estimated + (F64.ofZ (speedOf prev) / 3.6) * deltaSeconds)%float)
    (combine tripRecords (tl tripRecords)) 0%float.

(** The body of the [timeSinceLastOn > 60000] branch up to the decision
    to push: the finished trip. [None] is the TypeError of reading a
    property of [tripRecords[tripRecords.length - 1]] on an empty
    array. *)
Definition closeTrip (currentTrip : TripStart) (tripRecords : list Doc) : option Trip :=
  match tripRecords with
  | [] => None
  | firstRecord :: _ =>
      let lastOnRecord := last tripRecords firstRecord in
      let endTime := timestamp lastOnRecord in
      let endOdometer := totalOdometer lastOnRecord in
      let startOdometer := ts_startOdometer currentTrip in
      let odo :=
        if truthyZ startOdometer && truthyZ endOdometer
        then Some (num endOdometer - num startOdometer) else None in
      let estimated := estimateDistance tripRecords in
      let useEstimate := negb (truthyZ odo) && (0 <? estimated)%float in
      let distanceMeters := if useEstimate then Some (F64.round estimated) else odo in
      let kmTenths :=
        if useEstimate then Some (F64.round (estimated / 100))
        else option_map (fun m => mathRound (qOfZ m / 100)) odo in
      let distanceKm := option_map (fun k => qOfZ k / 10)%Q kmTenths in
      let durationMs := endTime - ts_startTime currentTrip in
      let totalMinutes := mathRound (qOfZ durationMs / 60000) in
      let hours := totalMinutes / 60 in
      let minutes := Z.rem totalMinutes 60 in
      let duration :=
        (if hours >? 0 then decimal hours ++ "h " ++ decimal minutes ++ "m"
         else decimal minutes ++ "m")%string in
      let avgSpeedTotal :=
        match kmTenths with
        | Some k =>
            if truthyZ distanceMeters && (totalMinutes >? 0)
            then Some (qOfZ (F64.round (F64.ofZ k / 10
                                        / (F64.ofZ totalMinutes / 60) * 10)) / 10)%Q
            else None
        | None => None
        end in
      let moving := filter (fun s => s >? 0) (map speedOf tripRecords) in
      let maxSpeed := fold_left (fun m s => if s >? m then s else m) moving 0 in
      let avgSpeedMoving :=
        if (0 <? List.length moving)%nat
        then Some (qOfZ (F64.round (F64.ofZ (sumZ moving)
                                    / F64.ofZ (Z.of_nat (List.length moving))
                                    * 10)) / 10)%Q
        else None in
      let fuel :=
        match fuelUsedGps firstRecord, fuelUsedGps lastOnRecord, distanceKm with
        | Some startFuel, Some endFuel, Some km =>
            let fuelUsedMl := endFuel - startFuel in
            if Qle_bool 2 km && (totalMinutes >=? 5) && (fuelUsedMl >? 0)
            then Some (fuelUsedMl, km) else None
        | _, _, _ => None
        end in
      let fuelUsedLiters :=
        option_map (fun f => qOfZ (mathRound (qOfZ (fst f) / 10)) / 100)%Q fuel in
      let fuelPer100km :=
        match fuel, kmTenths with
        | Some f, Some k =>
            Some (qOfZ (F64.round (F64.ofZ (mathRound (qOfZ (fst f) / 10)) / 100
                                   / (F64.ofZ k / 10) * 100 * 10)) / 10)%Q
        | _, _ => None
        end in
      let validGpsRecords := filter hasSatellites tripRecords in
      let startPosition :=
        match validGpsRecords with
        | v :: _ => gps v
        | [] => gps firstRecord
        end in
      let endPosition :=
        match validGpsRecords with
        | v :: _ => gps (last validGpsRecords v)
        | [] => gps lastOnRecord
        end in
      Some (mkTrip (ts_startTime currentTrip) startOdometer endTime endOdometer
              distanceMeters distanceKm useEstimate duration totalMinutes
              avgSpeedTotal maxSpeed avgSpeedMoving
              (option_map fst fuel) fuelUsedLiters fuelPer100km (isSome fuel)
              startPosition endPosition
              (calculateDriverBehavior tripRecords))
  end.

(** [durationMinutes >= 2 || distanceMeters > 100]; a comparison with
    [undefined] is false. *)
Definition meaningful (t : Trip) : bool :=
  (durationMinutes t >=? 2)
  || match distanceMeters t with
     | Some m => m >? 100
     | None => false
     end.

(** The variables of the trip loop. *)
Record Loop := mkLoop {
  trips : list Trip;
  currentTrip : option TripStart;
  tripRecords : list Doc;
  lastEngineOnTime : option Z
}.

Definition loopStart : Loop := mkLoop [] None [] None.

(** One iteration of [for (const record of records)]. [None]: the
    iteration throws. *)
Definition loopStep (st : Loop) (record : Doc) : option Loop :=
  let engineOn := isEngineOn record in
  match currentTrip st with
  | None =>
      if engineOn then
        Some (mkLoop (trips st)
                (Some (mkTripStart (timestamp record) (totalOdometer record)))
                [record] (Some (timestamp record)))
      else Some st
  | Some current =>
      if engineOn then
        Some (mkLoop (trips st) (Some current) (tripRecords st ++ [record])
                (Some (timestamp record)))
      else
        let timeSinceLastOn := timestamp record - num (lastEngineOnTime st) in
        if timeSinceLastOn >? 60000 then
          match closeTrip current (tripRecords st) with
          | None => None
          | Some t =>
              Some (mkLoop (if meaningful t then trips st ++ [t] else trips st)
                      None [] (lastEngineOnTime st))
          end
        else Some st
  end.

Fixpoint tripLoop (st : Loop) (records : list Doc) : option Loop :=
  match records with
  | [] => Some st
  | record :: rest =>
      match loopStep st record with
      | Some st' => tripLoop st' rest
      | None => None
      end
  end.

End Api.

(* ===================================================================== *)
(** * Notions the properties are stated with                              *)
(* ===================================================================== *)

(** [buffer] with the byte at index [i] replaced by [b]. *)
Definition setByte (buffer : Buffer) (i : Z) (b : byte) : Buffer :=
  firstn (Z.to_nat i) buffer ++ b :: skipn (S (Z.to_nat i)) buffer.

(** A frame the decoder accepts and consumes to its last byte. Every
    frame laid out as the protocol describes is one. *)
Definition wellFormedFrame (frame : Buffer) : Prop :=
  exists pkt s,
    Codec8.decode frame Codec8.newDecoder = (Codec8.Ok pkt, s) /\
    Codec8.offset s = Z.of_nat (List.length frame).

(** [short] is [frame] cut before its end. *)
Definition properPrefix (short frame : Buffer) : Prop :=
  exists rest, rest <> [] /\ frame = short ++ rest.

(** An access of [n] bytes at [off] that stays inside a buffer of
    [len] bytes. *)
Definition inBounds (len : Z) (a : Z * Z) : Prop :=
  0 <= fst a /\ 0 <= snd a /\ fst a + snd a <= len.

(** Two buffers of one length that agree everywhere except, possibly, in
    their final four bytes. *)
Definition sameButCrc (b1 b2 : Buffer) : Prop :=
  List.length b1 = List.length b2 /\
  firstn (List.length b1 - 4) b1 = firstn (List.length b2 - 4) b2.

(** The scoring rule in the specification's words (section 4.4.3). *)
Module SpecScore.

Definition clamp (x lo hi : Q) : Q :=
  if Api.qltb x lo then lo else if Api.qltb hi x then hi else x.

Definition clampZ (x lo hi : Z) : Z :=
  if x <? lo then lo else if hi <? x then hi else x.

(** "[n * k] capped at [c]". *)
Definition capped (n k c : Z) : Z := if n * k >? c then c else n * k.

Definition totalRaw (brake accel corner : Z) : Z :=
  capped brake 4 25 + capped accel 2 20 + capped corner 3 15.

Definition durationFactor (tripDurationMinutes : Z) : Q :=
  clamp (inject_Z tripDurationMinutes / 10) 1 6.

Definition normalized (brake accel corner tripDurationMinutes : Z) : Q :=
  let p := (inject_Z (totalRaw brake accel corner) / durationFactor tripDurationMinutes)%Q in
  let floor := if brake + corner >? 0 then 3%Q else 0%Q in
  if Api.qltb p floor then floor else p.

(** Nearest integer, a tie going up. *)
Definition round (q : Q) : Z := Qfloor (q + (1 # 2))%Q.

Definition driverScore (brake accel corner tripDurationMinutes : Z) : Z :=
  clampZ (round (100 - normalized brake accel corner tripDurationMinutes)) 0 100.

End SpecScore.

(** The last engine-on record among [records], if any. *)
Definition lastEngineOn (records : list Api.Doc) : option Api.Doc :=
  last (map Some (filter Api.isEngineOn records)) None.

(** Sample inputs. *)
Module Samples.

(** A Codec 8 frame with one record (2024-01-01T00:00:00Z, ignition 1,
    odometer 123456): counts 01 and 01. *)
Definition avlFrame : Buffer :=
  fromHex "000000000000002808010000018cc251f400010f7f49001a39de000064005a090032ef0201ef010001100001e24000010000abcd".

(** The same frame with trailing count 02. *)
Definition avlFrameMismatch : Buffer :=
  fromHex "000000000000002808010000018cc251f400010f7f49001a39de000064005a090032ef0201ef010001100001e24000020000abcd".

(** Login frame for IMEI 864275079658715. *)
Definition loginFrame : Buffer :=
  fromHex "000f383634323735303739363538373135".

(** A login frame whose fifteen payload bytes are not digits. *)
Definition loginFrameLetters : Buffer :=
  fromHex "000f2d2d4e4f542d412d4e554d4245527e".

(** [avlFrame] with other bytes in its CRC field. *)
Definition avlFrameOtherCrc : Buffer :=
  fromHex "000000000000002808010000018cc251f400010f7f49001a39de000064005a090032ef0201ef010001100001e2400001deadbeef".

Definition emptyDb : Models.Db := Models.mkDb [] [] [].

(** A [devices] document as [upsertDevice] inserts it: no [approved]. *)
Definition unapprovedDevice : Models.Device :=
  Models.mkDevice (Some "864275079658715"%string) (Some "FMC003"%string)
    None None None (Some 0) (Some 0).

Definition mkRec (t : Z) (ign : Z) (spd : Z) (odo : option Z)
    (ax ay : option Z) : Api.Doc :=
  Api.mkDoc t (Some (Codec8.mkGPS 0 0 0 0 9 spd)) (Some ign) (Some 0) None None
    odo None ax ay.

(** Engine on at 0 s (40 km/h), off at 30 s (90 km/h), on at 50 s
    (40 km/h), off at 200 s. *)
Definition briefOff : list Api.Doc :=
  [ mkRec 0 1 40 None None None; mkRec 30000 0 90 None None None;
    mkRec 50000 1 40 None None None; mkRec 200000 0 0 None None None ].

(** Six engine-on records one second apart, at rest, with accelerometer
    samples and no satellites, the odometer flat. *)
Definition parked : list Api.Doc :=
  map (fun i =>
         Api.mkDoc (1000 * i) (Some (Codec8.mkGPS 0 0 0 0 0 0)) (Some 1) (Some 0)
           None None (Some 5000) None (Some 10) (Some 20))
      [1; 2; 3; 4; 5; 6].

End Samples.

(* ===================================================================== *)
(** * Notions the proofs use                                              *)
(* ===================================================================== *)

Section Footprint.

Import Codec8.

(** [d] and [d'] have the same first [n] bytes. *)
Definition agree (n : Z) (d d' : Buffer) : Prop :=
  firstn (Z.to_nat n) d = firstn (Z.to_nat n) d'.

(** The property every method has. Started inside the buffer with only
    in-bounds accesses made so far, it ends inside the buffer, no further
    back, with only in-bounds accesses made; and when it returns, it
    returns the same and leaves the same state on any buffer with the
    same bytes up to where it stopped. *)
Definition Good {A} (m : Buffer -> M A) : Prop :=
  forall d s,
    0 <= offset s <= dataLength d ->
    Forall (inBounds (dataLength d)) (touched s) ->
    offset s <= offset (snd (m d s)) <= dataLength d /\
    Forall (inBounds (dataLength d)) (touched (snd (m d s))) /\
    forall a, fst (m d s) = Ok a ->
      forall d', agree (offset (snd (m d s))) d d' -> m d' s = m d s.

(** [Good], with something known of the value returned. *)
Definition Returns {A} (m : Buffer -> M A) (P : A -> Prop) : Prop :=
  forall d s a, fst (m d s) = Ok a -> P a.

(** [decode] up to the last record, before the trailer is read. *)
Definition decodeHead (data : Buffer) : M (Z * Z * Z * Z * list AVLRecord) :=
  bind (readUInt32 data) (fun preamble =>
  bind (readUInt32 data) (fun dataFieldLength =>
  bind (readUInt8 data) (fun codecId =>
  bind (readUInt8 data) (fun numberOfData1 =>
  bind (if codecId =? 8 then setExtended false
        else if codecId =? 142 then setExtended true
        else throw (UnsupportedCodec codecId)) (fun _ =>
  bind (repeatM (Z.to_nat numberOfData1) (decodeAVLRecord data)) (fun avlRecords =>
  ret (preamble, dataFieldLength, codecId, numberOfData1, avlRecords))))))).

(** The trailer: [numberOfData2] and [crc], and the packet returned. *)
Definition decodeTail (data : Buffer) (h : Z * Z * Z * Z * list AVLRecord)
    : M DecodedPacket :=
  let '(preamble, dataFieldLength, codecId, numberOfData1, avlRecords) := h in
  bind (readUInt8 data) (fun numberOfData2 =>
  bind (readUInt32 data) (fun crc =>
  ret (mkDecodedPacket preamble dataFieldLength codecId numberOfData1
         avlRecords numberOfData2 crc))).

End Footprint.

(** What holds of the loop variables after the records [pre]: with no
    trip open the record set is empty; with a trip open, it was opened by
    an engine-on record [r0] of [pre], no trip was open before [r0], and
    the record set is [r0] and the engine-on records after it. *)
Definition loopInv (pre : list Api.Doc) (st : Api.Loop) : Prop :=
  match Api.currentTrip st with
  | None => Api.tripRecords st = []
  | Some current =>
      exists before r0 rest st0,
        pre = before ++ r0 :: rest /\
        Api.isEngineOn r0 = true /\
        current = Api.mkTripStart (Api.timestamp r0) (Api.totalOdometer r0) /\
        Api.tripRecords st = r0 :: filter Api.isEngineOn rest /\
        Api.lastEngineOnTime st =
          Some (Api.timestamp (last (Api.tripRecords st) r0)) /\
        Api.tripLoop Api.loopStart before = Some st0 /\
        Api.currentTrip st0 = None /\
        Api.trips st0 = Api.trips st
  end.


(* ===================================================================== *)
(** * import-logs.js: decoded log packets written to the store            *)
(* ===================================================================== *)

Module Importer.

(** The importer's own copy of the table. *)
Definition fieldMap : list (Z * string) :=
  [ (12, "fuelUsedGps"); (13, "fuelRateGps"); (16, "totalOdometer");
    (21, "gsmSignal"); (24, "speedIO"); (66, "externalVoltage");
    (67, "batteryVoltage"); (68, "batteryCurrent"); (69, "gnssStatus");
    (113, "batteryLevel"); (181, "gnssPdop"); (182, "gnssHdop");
    (199, "tripOdometer"); (200, "sleepMode"); (205, "gsmCellId");
    (206, "gsmAreaCode"); (237, "networkType"); (239, "ignition");
    (240, "movement"); (241, "gsmOperator"); (256, "vin");
    (30, "obdDtcCount"); (31, "obdEngineLoad"); (32, "obdCoolantTemp");
    (33, "obdShortFuelTrim"); (34, "obdFuelPressure"); (35, "obdIntakeMap");
    (36, "obdEngineRpm"); (37, "obdVehicleSpeed"); (38, "obdTimingAdvance");
    (39, "obdIntakeAirTemp"); (40, "obdMaf"); (41, "obdThrottlePosition");
    (42, "obdRuntimeSinceStart"); (43, "obdDistanceWithMil");
    (48, "obdFuelLevel"); (49, "obdDistanceSinceCleared");
    (50, "obdBarometricPressure"); (51, "obdControlModuleVoltage");
    (53, "obdAmbientAirTemp"); (58, "obdEngineOilTemp"); (60, "obdFuelRate");
    (389, "obdTotalMileage"); (390, "obdFuelLevelInput");
    (243, "greenDrivingDuration"); (253, "greenDrivingValue");
    (246, "towingDetection"); (247, "crashDetection");
    (249, "jammingDetection"); (250, "tripEvent"); (251, "idlingEvent");
    (252, "unplugEvent"); (254, "overspeedingEvent");
    (17, "accelerometerX"); (18, "accelerometerY"); (19, "accelerometerZ") ]%string.

(** [ioIdToFieldName(id)]: [fieldMap[id] || null]. *)
Definition ioIdToFieldName (id : Z) : option string :=
  Codec8.lookupZ id fieldMap.

(** A packet as [parseLogFile] hands it over. *)
Record Packet := mkPacket {
  imei : option string;
  vin : option string;
  hex : string
}.

(** A document of [records_fmc003]: the fields the server writes, and
    [importedFromLogs], absent on the server's own documents. *)
Record Stored := mkStored {
  doc : Models.RecordDoc;
  importedFromLogs : bool
}.

Record StoredRaw := mkStoredRaw {
  rawDoc : Models.RawDoc;
  raw_importedFromLogs : bool
}.

(** The two collections the record import reads and writes. The
    [devices] collection, which no step of it reads, is left out. *)
Record Store := mkStore {
  rawCollection : list StoredRaw;
  recordsCollection : list Stored
}.

Record Counts := mkCounts {
  imported : Z;
  skipped : Z;
  errors : Z
}.

(** Truthiness of a String that may be [null]. *)
Definition strTruthy (o : option string) : bool :=
  match o with
  | Some s => negb (String.eqb s EmptyString)
  | None => false
  end.

(** [vin || null]. *)
Definition vinOrNull (vin : option string) : option JsValue :=
  if strTruthy vin then option_map JStr vin else None.

(** [buildRecordDoc(imei, vin, modemType, record)]; [now] is [new Date()]. *)
Definition buildRecordDoc (now : Z) (imei : option string) (vin : option string)
    (modemType : string) (record : Codec8.AVLRecord) : Stored :=
  let els := Codec8.elements (Codec8.io record) in
  mkStored
    (Models.mkRecordDoc imei (vinOrNull vin) modemType
       (Codec8.timestamp record) (Codec8.priority record) (Codec8.gps record)
       (Codec8.eventIoId (Codec8.io record)) (Codec8.totalCount (Codec8.io record))
       (map (fun e => Models.mkIOEntry (Codec8.id e) (Codec8.name e)
                        (Codec8.value e) (Codec8.size e)) els)
       now
       (flat_map (fun e => match ioIdToFieldName (Codec8.id e) with
                           | Some f => [(f, Codec8.value e)]
                           | None => []
                           end) els))
    true.

(** [recordsCollection.findOne({ timestamp, imei })]. *)
Definition findOne (records : list Stored) (timestamp : Z) (imei : option string)
    : option Stored :=
  find (fun s => (Models.rec_timestamp (doc s) =? timestamp)
                 && optStringEqb (Models.rec_imei (doc s)) imei) records.

(** The body of [for (const record of decoded.avlRecords)]. *)
Definition importRecord (now : Z) (packet : Packet) (acc : Store * Counts)
    (record : Codec8.AVLRecord) : Store * Counts :=
  let d := buildRecordDoc now (imei packet) (vin packet) "FMC003" record in
  match findOne (recordsCollection (fst acc))
          (Models.rec_timestamp (doc d)) (Models.rec_imei (doc d)) with
  | Some _ =>
      (fst acc,
       mkCounts (imported (snd acc)) (skipped (snd acc) + 1) (errors (snd acc)))
  | None =>
      (mkStore (rawCollection (fst acc)) (recordsCollection (fst acc) ++ [d]),
       mkCounts (imported (snd acc) + 1) (skipped (snd acc)) (errors (snd acc)))
  end.

(** The body of [for (const packet of packets)]. *)
Definition importPacket (now : Z) (acc : Store * Counts) (packet : Packet)
    : Store * Counts :=
  if negb (strTruthy (imei packet)) then
    (fst acc,
     mkCounts (imported (snd acc)) (skipped (snd acc) + 1) (errors (snd acc)))
  else
    match Codec8.decodeCodec8 (fromHex (hex packet)) with
    | Codec8.Throw _ =>
        (fst acc,
         mkCounts (imported (snd acc)) (skipped (snd acc)) (errors (snd acc) + 1))
    | Codec8.Ok decoded =>
        let rawEntry :=
          mkStoredRaw
            (Models.mkRawDoc (imei packet) (vinOrNull (vin packet)) "FMC003"
               (hex packet) now) true in
        fold_left (importRecord now packet) (Codec8.avlRecords decoded)
          (mkStore (rawCollection (fst acc) ++ [rawEntry])
             (recordsCollection (fst acc)),
           snd acc)
    end.

(** [importToMongo(packets, db)] on a store whose operations succeed. *)
Definition importToMongo (now : Z) (store : Store) (packets : list Packet)
    : Store * Counts :=
  fold_left (importPacket now) packets (store, mkCounts 0 0 0).

End Importer.

(* ===================================================================== *)
(** * src/server/api.js: [GET /devices/:imei/daily/:date?]                *)
(* ===================================================================== *)

Module Daily.

(** The variables of the day's loop that count trips and driving time.
    The sums, minima and maxima the same loop keeps for voltages, speed
    and engine values neither read nor write them. *)
Record Count := mkCount {
  ignitionOnTime : Z;
  lastIgnitionOn : option Z;
  tripCount : Z;
  inTrip : bool;
  lastEngineOnTime : option Z
}.

Definition countStart : Count := mkCount 0 None 0 false None.

(** The trip-counting part of one iteration of [for (const r of records)]. *)
Definition countStep (c : Count) (r : Api.Doc) : Count :=
  let engineOn := Api.isEngineOn r in
  if engineOn && negb (inTrip c) then
    mkCount (ignitionOnTime c)
      (if Api.isSome (lastIgnitionOn c) then lastIgnitionOn c
       else Some (Api.timestamp r))
      (tripCount c + 1) true (Some (Api.timestamp r))
  else if engineOn && inTrip c then
    mkCount (ignitionOnTime c) (lastIgnitionOn c) (tripCount c) (inTrip c)
      (Some (Api.timestamp r))
  else if negb engineOn && inTrip c then
    let timeSinceLastOn := Api.timestamp r - Api.num (lastEngineOnTime c) in
    if timeSinceLastOn >? 60000 then
      match lastIgnitionOn c with
      | Some since =>
          mkCount (ignitionOnTime c + (Api.num (lastEngineOnTime c) - since))
            None (tripCount c) false (lastEngineOnTime c)
      | None =>
          mkCount (ignitionOnTime c) None (tripCount c) false (lastEngineOnTime c)
      end
    else c
  else c.

Definition countLoop (records : list Api.Doc) : Count :=
  fold_left countStep records countStart.

(** [ignitionOnTime] after the loop and the addition for a trip still
    open at the end of the day. *)
Definition ignitionOnTimeOf (records : list Api.Doc) : Z :=
  let c := countLoop records in
  if inTrip c && Api.isSome (lastIgnitionOn c) && Api.isSome (lastEngineOnTime c)
  then ignitionOnTime c
       + (Api.num (lastEngineOnTime c) - Api.num (lastIgnitionOn c))
  else ignitionOnTime c.

(** [Math.round(ignitionOnTime / 60000)]. *)
Definition drivingMinutes (records : list Api.Doc) : Z :=
  mathRound (Api.qOfZ (ignitionOnTimeOf records) / 60000).

End Daily.

(* ===================================================================== *)
(** * src/server/api.js: the device registry                              *)
(* ===================================================================== *)

Module Registry.

(** A JSON value of a request body, as far as [=== false] tells values
    apart. *)
Inductive Json := JFalse | JTrue | JOther.

Definition isDigit (c : ascii) : bool :=
  (48 <=? nat_of_ascii c)%nat && (nat_of_ascii c <=? 57)%nat.

(** [/^\d{15}$/.test(imei)] on a String. *)
Definition fifteenDigits (s : string) : bool :=
  (String.length s =? 15)%nat && forallb isDigit (list_ascii_of_string s).

(** [x || fallback] on a String that may be absent. *)
Definition orElse (x : option string) (fallback : option string) : option string :=
  match x with
  | Some s => if String.eqb s EmptyString then fallback else Some s
  | None => fallback
  end.

(** What a handler answers: the status code and, where the body is a
    device, that device. *)
Inductive Reply :=
| Created (device : Models.Device)
| BadRequest
| Conflict (existing : Models.Device)
| NotFound
| Updated (device : option Models.Device).

(** [POST /devices] on a connected store. Of the document inserted, the
    fields [carBrand], [carModel] and [notes], which nothing else reads,
    are left out. *)
Definition postDevice (now : Z) (d : Models.Db)
    (imei modemType plateNumber : option string) : Reply * Models.Db :=
  match orElse imei None with
  | None => (BadRequest, d)
  | Some i =>
      if negb (fifteenDigits i) then (BadRequest, d)
      else
        match Models.getDevice (Some d) i with
        | Some existing => (Conflict existing, d)
        | None =>
            let device :=
              Models.mkDevice (Some i) (orElse modemType (Some "FMC003"%string))
                None (Some true) (orElse plateNumber None) (Some now) None in
            (Created device,
             Models.mkIndexedDb (Models.devices d ++ [device]) (Models.rawDocs d)
               (Models.recordDocs d) (Models.uniqueRecords d))
        end
  end.

(** The [$set] of [PATCH /devices/:imei/approve]: [approved !== false]. *)
Definition setApproved (approved : option Json) (dev : Models.Device)
    : Models.Device :=
  Models.mkDevice (Models.imei dev) (Models.modemType dev) (Models.vin dev)
    (Some match approved with Some JFalse => false | _ => true end)
    (Models.plateNumber dev) (Models.createdAt dev) (Models.lastSeen dev).

(** [PATCH /devices/:imei/approve] on a connected store. *)
Definition patchApprove (d : Models.Db) (imei : string) (approved : option Json)
    : Reply * Models.Db :=
  match Models.updateFirst
          (fun dev => optStringEqb (Models.imei dev) (Some imei))
          (setApproved approved) (Models.devices d) with
  | None => (NotFound, d)
  | Some devs =>
      let d' := Models.mkIndexedDb devs (Models.rawDocs d) (Models.recordDocs d)
                  (Models.uniqueRecords d) in
      (Updated (Models.getDevice (Some d') imei), d')
  end.

End Registry.

(* ===================================================================== *)
(** * Notions the further properties are stated with                      *)
(* ===================================================================== *)

Section DecoderNotions.
Import Codec8.

(** A method that, when it returns, has moved the offset forward by at
    least [k] bytes. *)
Definition Consumes {A} (m : Buffer -> M A) (k : Z) : Prop :=
  forall d s a s',
    0 <= offset s <= dataLength d ->
    Forall (inBounds (dataLength d)) (touched s) ->
    m d s = (Ok a, s') -> offset s + k <= offset s'.

(** A method that, started at a non-negative offset with [isExtended]
    equal to [e], ends so and returns a value [P] holds of. *)
Definition Post {A} (e : bool) (m : Buffer -> M A) (P : A -> Prop) : Prop :=
  forall d s a s',
    0 <= offset s -> isExtended s = e -> m d s = (Ok a, s') ->
    0 <= offset s' /\ isExtended s' = e /\ P a.

(** What holds of every IO element [decode] returns: [raw] holds [size]
    bytes, the id fits sixteen bits, the name is the table's, and a
    Number value is the big-endian reading of at most four bytes. In a
    Codec 8 packet ([ext = false]) the id fits eight bits and the size is
    1, 2, 4 or 8. *)
Definition elementOk (ext : bool) (e : IOElement) : Prop :=
  Z.of_nat (List.length (raw e)) = size e /\
  0 <= id e < (if ext then 65536 else 256) /\
  name e = getIOName (id e) /\
  (ext = false -> size e = 1 \/ size e = 2 \/ size e = 4 \/ size e = 8) /\
  match value e with
  | JNum v => v = uintBE (raw e) /\ (size e = 1 \/ size e = 2 \/ size e = 4) /\ 0 <= v < 256 ^ size e
  | JStr _ => True
  end.

(** What holds of the IO object of a record. *)
Definition ioOk (ext : bool) (o : IO) : Prop :=
  0 <= eventIoId o < (if ext then 65536 else 256) /\
  0 <= totalCount o < (if ext then 65536 else 256) /\
  Forall (elementOk ext) (elements o).

(** What holds of every record [decode] returns. *)
Definition recordOk (r : AVLRecord) : Prop :=
  0 <= timestamp r <= maxTimeValue /\
  timestampRaw r = decimal (timestamp r) /\
  0 <= priority r < 256 /\
  - 2147483648 <= Qnum (longitude (gps r)) < 2147483648 /\
  Qden (longitude (gps r)) = 10000000%positive /\
  - 2147483648 <= Qnum (latitude (gps r)) < 2147483648 /\
  Qden (latitude (gps r)) = 10000000%positive /\
  0 <= altitude (gps r) < 65536 /\
  0 <= angle (gps r) < 65536 /\
  0 <= satellites (gps r) < 256 /\
  0 <= speed (gps r) < 65536.

End DecoderNotions.

Section StoreNotions.
(** The field names [buildRecordDoc] sets itself, [vin] apart. *)
Definition baseFields : list string :=
  [ "imei"; "modemType"; "timestamp"; "priority"; "gps"; "eventIoId";
    "ioTotalCount"; "ioElements"; "createdAt" ]%string.

(** An IMEI the store lets a session in under: none at all, or that of a
    device the store holds with [approved] not [false]. *)
Definition admitted (db : option Models.Db) (imei : option string) : Prop :=
  match imei with
  | None => True
  | Some i => Server.rejected (Models.getDevice db i) = false
  end.

(** An entry of the field table that shares its name with no other entry
    and with no field of [baseFields]. *)
Definition fieldOk (kv : Z * string) : bool :=
  negb (existsb (String.eqb (snd kv)) baseFields)
  && forallb (fun kv' => negb (String.eqb (snd kv) (snd kv')) || (fst kv =? fst kv'))
       Models.fieldMap.

(** U+0130, LATIN CAPITAL LETTER I WITH DOT ABOVE, in UTF-8. *)
Definition dottedCapitalI : string :=
  String (ascii_of_nat 196) (String (ascii_of_nat 176) EmptyString).

(** U+212A, KELVIN SIGN, in UTF-8. *)
Definition kelvinSign : string :=
  String (ascii_of_nat 226) (String (ascii_of_nat 132)
    (String (ascii_of_nat 170) EmptyString)).

(** [pat] occurs in [s]. *)
Fixpoint occurs (pat s : string) : bool :=
  String.prefix pat s
  || match s with
     | EmptyString => false
     | String _ rest => occurs pat rest
     end.

(** The letters and digits of a 7-bit string, lower-cased, in order. *)
Definition lowerAlnums (s : string) : string :=
  string_of_list_ascii
    (filter Models.isLowerAlnum (map Models.lowerChar (list_ascii_of_string s))).

End StoreNotions.

Section TripNotions.
Import Api.

(** The middle one of three numbers. *)
Definition median3 (a b c : Z) : Z := Z.max (Z.min a b) (Z.min (Z.max a b) c).

(** Records in ascending order of their time values, the order in which
    [sort({ timestamp: 1 })] returns ISO strings of the years 0000 to
    9999. *)
Definition ascending (records : list Doc) : Prop :=
  StronglySorted (fun a b => timestamp a <= timestamp b) records.

(** What holds of the event loop's variables after [n] records. *)
Definition detectInv (pre : list Doc) (d : Detect) : Prop :=
  let n := Z.of_nat (List.length pre) in
  0 <= hardBraking d <= n /\
  0 <= hardAcceleration d <= n /\
  0 <= harshCornering d <= n /\
  (0 <= idleSeconds d <= 60 * inject_Z n)%Q /\
  0 <= maxSpeed d /\ 0 <= maxRpm d /\
  Forall (fun r => speedOf r <= maxSpeed d) pre /\
  Forall (fun r => num (obdEngineRpm r) <= maxRpm d) pre.

(** What holds of the trips listed after the records [pre], when these
    come in ascending order of time. *)
Definition tripsInv (pre : list Doc) (st : Loop) : Prop :=
  Forall (fun t => startTime t <= endTime t) (trips st) /\
  StronglySorted (fun t1 t2 => endTime t1 + 60000 < startTime t2) (trips st) /\
  match currentTrip st with
  | Some cur => Forall (fun t => endTime t + 60000 < ts_startTime cur) (trips st)
  | None =>
      Forall (fun t => exists r, In r pre /\ endTime t + 60000 < timestamp r)
        (trips st)
  end.







End TripNotions.

Section ImporterNotions.
Import Importer.

(** The pair the importer looks a document up by. *)
Definition key (s : Stored) : Z * option string :=
  (Models.rec_timestamp (doc s), Models.rec_imei (doc s)).

(** The records a packet brings, if it is imported at all. *)
Definition packetRecords (p : Packet) : list Codec8.AVLRecord :=
  if strTruthy (imei p) then
    match Codec8.decodeCodec8 (fromHex (hex p)) with
    | Codec8.Ok decoded => Codec8.avlRecords decoded
    | Codec8.Throw _ => []
    end
  else [].

(** A packet that is decoded: it has an IMEI and its frame decodes. *)
Definition decodable (p : Packet) : bool :=
  strTruthy (imei p) &&
  match Codec8.decodeCodec8 (fromHex (hex p)) with
  | Codec8.Ok _ => true
  | Codec8.Throw _ => false
  end.

(** The sum of [f] over a list. *)
Fixpoint total {A} (f : A -> Z) (l : list A) : Z :=
  match l with
  | [] => 0
  | x :: rest => f x + total f rest
  end.

(** What a packet adds to [imported + skipped]: one for a packet without
    IMEI, one per record otherwise. *)
Definition handled (p : Packet) : Z :=
  if strTruthy (imei p) then Z.of_nat (List.length (packetRecords p)) else 1.

(** What a packet adds to [errors]. *)
Definition failed (p : Packet) : Z :=
  if strTruthy (imei p) && negb (decodable p) then 1 else 0.

(** Every record of the packet is in [records] under the packet's IMEI. *)
Definition covered (records : list Stored) (p : Packet) : Prop :=
  Forall (fun r => In (Codec8.timestamp r, imei p) (map key records))
    (packetRecords p).

(** The marks of a document the importer wrote. *)
Definition flagged (s : Stored) : Prop :=
  importedFromLogs s = true /\
  Models.rec_modemType (doc s) = "FMC003"%string /\
  strTruthy (Models.rec_imei (doc s)) = true.

End ImporterNotions.

Section DailyNotions.
Import Api Daily.

(** The day's loop and the trips loop after the same records. *)
Definition lockstep (n : nat) (c : Count) (st : Loop) : Prop :=
  inTrip c = isSome (currentTrip st) /\
  Daily.lastEngineOnTime c = Api.lastEngineOnTime st /\
  lastIgnitionOn c = option_map ts_startTime (currentTrip st) /\
  Z.of_nat (List.length (trips st)) + (if inTrip c then 1 else 0) <= tripCount c /\
  tripCount c <= Z.of_nat n /\
  total (fun t => endTime t - startTime t) (trips st) <= ignitionOnTime c.

End DailyNotions.

Module MoreSamples.

(** Seven engine-on records a minute apart at 50 km/h, nine satellites,
    a steady accelerometer, the odometer going up by 500 m and the fuel
    counter by 50 ml from one to the next. *)
Definition cleanDrive : list Api.Doc :=
  map (fun i =>
         Api.mkDoc (60000 * i) (Some (Codec8.mkGPS 0 0 0 0 9 50)) (Some 1) (Some 1)
           None None (Some (100000 + 500 * i)) (Some (1000 + 50 * i))
           (Some 10) (Some 20))
      [1; 2; 3; 4; 5; 6; 7].

(** The drive, and an engine-off record three minutes after its end. *)
Definition cleanDay : list Api.Doc :=
  cleanDrive ++
  [ Api.mkDoc 600000 (Some (Codec8.mkGPS 0 0 0 0 9 0)) (Some 0) (Some 0)
      None None (Some 103500) (Some 1350) (Some 10) (Some 20) ].

(** [cleanDrive]'s first record, as the trip loop keeps it. *)
Definition cleanStart : Api.TripStart := Api.mkTripStart 60000 (Some 100500).

(** A store that holds one device. *)
Definition oneDevice : Models.Db := Models.mkDb [Samples.unapprovedDevice] [] [].

(** [Samples.avlFrame] with codec byte 0x0C. *)
Definition codec12Frame : Buffer := setByte Samples.avlFrame 8 x0c.

(** Engine on at 0 s and at 60.3 s, at 6 km/h and without an odometer
    reading, off at 200 s. *)
Definition crawl : list Api.Doc :=
  [ Samples.mkRec 0 1 6 None None None; Samples.mkRec 60300 1 6 None None None;
    Samples.mkRec 200000 0 0 None None None ].

(** An empty store on which the unique index of [records_fmc003] was
    created. *)
Definition indexedDb : Models.Db := Models.mkIndexedDb [] [] [] true.

(** [indexedDb] once [Samples.avlFrame] was received. *)
Definition afterFrame : Models.Db :=
  match fst (Server.onData 0 (Some indexedDb) Server.newSession Samples.avlFrame) with
  | Some d => d
  | None => indexedDb
  end.

(** The session after the sample login on [oneDevice]. *)
Definition loggedIn : Server.Session :=
  snd (Server.onData 0 (Some oneDevice) Server.newSession Samples.loginFrame).

(** [oneDevice] after [PATCH /devices/864275079658715/approve] with
    [approved: false]. *)
Definition revoked : Models.Db :=
  snd (Registry.patchApprove oneDevice "864275079658715" (Some Registry.JFalse)).

End MoreSamples.

(* ===================================================================== *)
(** * Properties                                                          *)
(* ===================================================================== *)

(* ===================================================================== *)
(** * The decoder reads its buffer front to back, inside its bounds       *)
(* ===================================================================== *)

Section DecoderFacts.

Import Codec8.

Lemma agree_le n m d d' : 0 <= m <= n -> agree n d d' -> agree m d d'.
Proof.
  unfold agree. intros Hmn H.
  replace (Z.to_nat m) with (Nat.min (Z.to_nat m) (Z.to_nat n)) by lia.
  rewrite <- !firstn_firstn. now rewrite H.
Qed.

Lemma agree_length n d d' :
  0 <= n <= dataLength d -> agree n d d' -> n <= dataLength d'.
Proof.
  unfold agree, dataLength. intros Hn H.
  apply (f_equal (@List.length byte)) in H.
  rewrite !length_firstn in H. lia.
Qed.

Lemma agree_slice d d' off n :
  0 <= off -> 0 <= n -> agree (off + n) d d' ->
  slice d off (off + n) = slice d' off (off + n).
Proof.
  unfold agree, slice. intros Hoff Hn H.
  replace (off + n - off) with n by lia.
  rewrite !firstn_skipn_comm.
  replace (Z.to_nat off + Z.to_nat n)%nat with (Z.to_nat (off + n)) by lia.
  now rewrite H.
Qed.

Lemma Good_ret {A} (a : A) : Good (fun _ => ret a).
Proof. intros d s Hs Ht. cbn. repeat split; auto; lia. Qed.

Lemma Good_throw {A} (e : Error) : Good (fun _ => @throw A e).
Proof. intros d s Hs Ht. cbn. repeat split; auto; try lia. Qed.

Lemma Good_getExtended : Good (fun _ => getExtended).
Proof. intros d s Hs Ht. cbn. repeat split; auto; lia. Qed.

Lemma Good_setExtended b : Good (fun _ => setExtended b).
Proof. intros d s Hs Ht. cbn. repeat split; auto; lia. Qed.

Lemma Good_bind_post {A B} (m : Buffer -> M A) (f : A -> Buffer -> M B) (P : A -> Prop) :
  Good m -> Returns m P -> (forall a, P a -> Good (f a)) ->
  Good (fun d => bind (m d) (fun a => f a d)).
Proof.
  intros Hm HP Hf d s Hs Ht.
  destruct (Hm d s Hs Ht) as (Hoff & Htouched & Hloc).
  unfold bind.
  destruct (m d s) as [[a | e] s1] eqn:E; cbn [fst snd] in *.
  - assert (Pa : P a) by (apply (HP d s); now rewrite E).
    destruct (Hf a Pa d s1) as (Hoff' & Htouched' & Hloc'); [lia | assumption |].
    split; [lia|]. split; [assumption|].
    intros b Hb d' Hag.
    rewrite (Hloc a eq_refl d').
    + now apply (Hloc' b Hb).
    + eapply agree_le; [|exact Hag]. lia.
  - split; [lia|]. split; [assumption|]. intros b Hb. discriminate.
Qed.

Lemma Good_bind {A B} (m : Buffer -> M A) (f : A -> Buffer -> M B) :
  Good m -> (forall a, Good (f a)) ->
  Good (fun d => bind (m d) (fun a => f a d)).
Proof.
  intros Hm Hf. apply Good_bind_post with (P := fun _ => True); auto.
  intros d s a _. exact I.
Qed.

Lemma Good_repeatM {A} (m : Buffer -> M A) n :
  Good m -> Good (fun d => repeatM n (m d)).
Proof.
  intros Hm. induction n as [|n IH]; cbn [repeatM].
  - apply Good_ret.
  - apply Good_bind; [assumption|]. intros x.
    apply Good_bind; [assumption|]. intros xs. apply Good_ret.
Qed.

Lemma Good_if {A} (b : bool) (m1 m2 : Buffer -> M A) :
  Good m1 -> Good m2 -> Good (fun d => if b then m1 d else m2 d).
Proof. destruct b; auto. Qed.

Lemma Good_readBytes n : 0 <= n -> Good (fun d => readBytes d n).
Proof.
  intros Hn d s Hs Ht. unfold readBytes, bind, getOffset, access, advance, throw, ret.
  destruct (Z.gtb_spec (offset s + n) (dataLength d)) as [E|E]; cbn [fst snd offset touched].
  - repeat split; auto; try lia. intros; discriminate.
  - split; [lia|]. split.
    + apply Forall_app; split; [assumption|]. constructor; [|constructor].
      unfold inBounds; cbn; lia.
    + intros a _ d' Hag.
      assert (Hlen : offset s + n <= dataLength d') by (eapply agree_length; [|exact Hag]; lia).
      destruct (Z.gtb_spec (offset s + n) (dataLength d')); [lia|].
      rewrite (agree_slice d d') by (auto; lia). reflexivity.
Qed.

Ltac reader_good n :=
  let d := fresh "d" in let s := fresh "s" in
  let Hs := fresh "Hs" in let Ht := fresh "Ht" in
  intros d s Hs Ht;
  unfold readUInt8, readUInt16, readUInt32, readInt32,
    bind, getOffset, access, advance, throw, ret;
  destruct (Z.gtb_spec (offset s + n) (dataLength d)) as [E|E];
  cbn [fst snd offset touched];
  [ repeat split; auto; try lia; intros; discriminate
  | split; [lia|]; split;
    [ apply Forall_app; split; [assumption|]; constructor; [|constructor];
      unfold inBounds; cbn; lia
    | let a := fresh "a" in let d' := fresh "d'" in let Hag := fresh "Hag" in
      intros a _ d' Hag;
      assert (offset s + n <= dataLength d')
        by (eapply agree_length; [|exact Hag]; lia);
      destruct (Z.gtb_spec (offset s + n) (dataLength d')); [lia|];
      rewrite (agree_slice d d') by (auto; lia); reflexivity ] ].

Lemma Good_readUInt8 : Good readUInt8.
Proof. reader_good 1. Qed.

Lemma Good_readUInt16 : Good readUInt16.
Proof. reader_good 2. Qed.

Lemma Good_readUInt32 : Good readUInt32.
Proof. reader_good 4. Qed.

Lemma Good_readInt32 : Good readInt32.
Proof. reader_good 4. Qed.

Lemma Good_readUInt64 : Good readUInt64.
Proof.
  intros d s Hs Ht.
  unfold readUInt64, bind, getOffset, access, advance, throw, ret.
  destruct (Z.gtb_spec (offset s + 8) (dataLength d)) as [E|E];
    cbn [fst snd offset touched].
  - repeat split; auto; try lia. intros; discriminate.
  - split; [lia|]. split.
    + rewrite <- app_assoc. apply Forall_app; split; [assumption|].
      constructor; [|constructor; [|constructor]]; unfold inBounds; cbn; lia.
    + intros a _ d' Hag.
      assert (offset s + 8 <= dataLength d')
        by (eapply agree_length; [|exact Hag]; lia).
      destruct (Z.gtb_spec (offset s + 8) (dataLength d')); [lia|].
      rewrite (agree_slice d d' (offset s) 4)
        by first [lia | eapply agree_le; [|exact Hag]; lia].
      rewrite (agree_slice d d' (offset s + 4) 4)
        by first [lia | eapply agree_le; [|exact Hag]; lia].
      reflexivity.
Qed.

Lemma uintBE_nonneg bs : 0 <= uintBE bs.
Proof.
  unfold uintBE.
  assert (H : forall acc, 0 <= acc -> 0 <= fold_left (fun acc b => acc * 256 + byteZ b) bs acc).
  { induction bs as [|b bs IH]; intros acc Hacc; cbn; [assumption|].
    apply IH. unfold byteZ. lia. }
  apply H. lia.
Qed.

Lemma Returns_readUInt8 : Returns readUInt8 (fun v => 0 <= v).
Proof.
  intros d s a. unfold readUInt8, bind, getOffset, access, advance, throw, ret.
  destruct (offset s + 1 >? dataLength d); cbn; intros H; inversion H.
  apply uintBE_nonneg.
Qed.

Lemma Returns_readUInt16 : Returns readUInt16 (fun v => 0 <= v).
Proof.
  intros d s a. unfold readUInt16, bind, getOffset, access, advance, throw, ret.
  destruct (offset s + 2 >? dataLength d); cbn; intros H; inversion H.
  apply uintBE_nonneg.
Qed.

Lemma Good_readId ext : Good (fun d => readId d ext).
Proof. destruct ext; [apply Good_readUInt16 | apply Good_readUInt8]. Qed.

Ltac good :=
  repeat first
    [ apply Good_ret | apply Good_throw | apply Good_getExtended
    | apply Good_setExtended
    | apply Good_readUInt8 | apply Good_readUInt16 | apply Good_readUInt32
    | apply Good_readInt32 | apply Good_readUInt64 | apply Good_readId
    | apply Good_readBytes; lia
    | apply Good_repeatM
    | apply Good_if
    | apply Good_bind; [|intro] ].

Lemma Good_fixedElement ext w : 0 <= w -> Good (fun d => fixedElement d ext w).
Proof. intros Hw. unfold fixedElement. good. Qed.

Lemma Good_fixedGroup ext w : 0 <= w -> Good (fun d => fixedGroup d ext w).
Proof.
  intros Hw. unfold fixedGroup. apply Good_bind; [apply Good_readId|].
  intros n. apply Good_repeatM. now apply Good_fixedElement.
Qed.

Lemma Good_nxElement : Good nxElement.
Proof.
  unfold nxElement. apply Good_bind; [apply Good_readUInt16|]. intros i.
  apply Good_bind_post with (P := fun v => 0 <= v);
    [apply Good_readUInt16 | apply Returns_readUInt16 |].
  intros len Hlen. good.
Qed.

Lemma Good_decodeIOElementStandard : Good decodeIOElementStandard.
Proof.
  unfold decodeIOElementStandard.
  repeat first [ apply Good_fixedGroup; lia | apply Good_readUInt8 | apply Good_ret
               | apply Good_bind; [|intro] ].
Qed.

Lemma Good_decodeIOElementExtended : Good decodeIOElementExtended.
Proof.
  unfold decodeIOElementExtended.
  repeat first [ apply Good_fixedGroup; lia | apply Good_readUInt16 | apply Good_ret
               | apply Good_repeatM; apply Good_nxElement
               | apply Good_bind; [|intro] ].
Qed.

Lemma Good_decodeAVLRecord : Good decodeAVLRecord.
Proof.
  unfold decodeAVLRecord.
  repeat first [ apply Good_decodeIOElementStandard | apply Good_decodeIOElementExtended
               | apply Good_readUInt8 | apply Good_readUInt16 | apply Good_readInt32
               | apply Good_readUInt64 | apply Good_getExtended
               | apply Good_ret | apply Good_throw | apply Good_if
               | apply Good_bind; [|intro] ].
Qed.


Lemma decode_split d s :
  decode d s = bind (decodeHead d) (decodeTail d) s.
Proof.
  unfold decode, decodeHead, decodeTail, bind.
  destruct (readUInt32 d s) as [[a1|e1] s1]; [|reflexivity].
  destruct (readUInt32 d s1) as [[a2|e2] s2]; [|reflexivity].
  destruct (readUInt8 d s2) as [[a3|e3] s3]; [|reflexivity].
  destruct (readUInt8 d s3) as [[a4|e4] s4]; [|reflexivity].
  destruct (if a3 =? 8 then setExtended false
            else if a3 =? 142 then setExtended true
            else throw (UnsupportedCodec a3)) as [[a5|e5] s5]; [|reflexivity].
  destruct (repeatM (Z.to_nat a4) (decodeAVLRecord d) s5) as [[a6|e6] s6]; reflexivity.
Qed.

Lemma Good_decodeHead : Good decodeHead.
Proof.
  unfold decodeHead.
  repeat first [ apply Good_readUInt8 | apply Good_readUInt32
               | apply Good_setExtended | apply Good_throw
               | apply Good_ret | apply Good_if
               | apply Good_repeatM; apply Good_decodeAVLRecord
               | apply Good_bind; [|intro] ].
Qed.

Lemma Good_decodeTail h : Good (fun d => decodeTail d h).
Proof.
  destruct h as [[[[p dl] c] n1] recs]. unfold decodeTail.
  repeat first [ apply Good_readUInt8 | apply Good_readUInt32 | apply Good_ret
               | apply Good_bind; [|intro] ].
Qed.

Lemma Good_ext {A} (m m' : Buffer -> M A) :
  (forall d s, m' d s = m d s) -> Good m -> Good m'.
Proof.
  intros E H d s Hs Ht. rewrite !E.
  destruct (H d s Hs Ht) as (H1 & H2 & H3). repeat split; try tauto.
  intros a Ha d' Hag. rewrite E. now apply (H3 a Ha).
Qed.

Lemma Good_decode : Good decode.
Proof.
  apply Good_ext with (m := fun d => bind (decodeHead d) (fun h => decodeTail d h)).
  - intros d s. apply decode_split.
  - apply Good_bind; [apply Good_decodeHead | apply Good_decodeTail].
Qed.

Lemma newDecoder_ok d :
  0 <= offset newDecoder <= dataLength d /\
  Forall (inBounds (dataLength d)) (touched newDecoder).
Proof. cbn. unfold dataLength. split; [lia | constructor]. Qed.

(** Every access [decodeCodec8] makes lies inside the buffer, whatever
    the buffer. *)
Lemma decode_in_bounds buffer :
  Forall (inBounds (Z.of_nat (List.length buffer))) (decodeAccesses buffer).
Proof.
  destruct (newDecoder_ok buffer) as [H1 H2].
  destruct (Good_decode buffer newDecoder H1 H2) as (_ & H & _). exact H.
Qed.

Lemma agree_app n short rest :
  0 <= n <= dataLength short -> agree n short (short ++ rest).
Proof.
  unfold agree, dataLength. intros H.
  rewrite firstn_app.
  replace (Z.to_nat n - List.length short)%nat with O by lia.
  cbn. now rewrite app_nil_r.
Qed.

(** Claim C8. A buffer that is a proper prefix of a well-formed frame is
    answered with a decode error, and every access the decoder makes to
    the buffer while decoding it lies below the buffer's length: each
    reader checks before it reads. *)
Theorem prefix_rejected_in_bounds (frame short : Buffer) :
  wellFormedFrame frame -> properPrefix short frame ->
  (exists e, decodeCodec8 short = Throw e) /\
  Forall (inBounds (Z.of_nat (List.length short))) (decodeAccesses short).
Proof.
  intros (pkt & s & Hdec & Hoff) (rest & Hrest & ->).
  split; [|apply decode_in_bounds].
  unfold decodeCodec8.
  destruct (newDecoder_ok short) as [H1 H2].
  destruct (Good_decode short newDecoder H1 H2) as (Hb & _ & Hloc).
  destruct (decode short newDecoder) as [[p|e] s2] eqn:E; cbn [fst snd] in *;
    [|now exists e].
  exfalso.
  specialize (Hloc p eq_refl (short ++ rest)).
  rewrite Hloc in Hdec by (apply agree_app; lia).
  inversion Hdec; subst.
  rewrite length_app in Hoff. unfold dataLength in Hb.
  destruct rest; [congruence|]. cbn in Hoff. lia.
Qed.


Lemma readUInt8_eq d s :
  readUInt8 d s =
  if offset s + 1 >? dataLength d then (Throw (BufferOverflow (offset s)), s)
  else (Ok (uintBE (slice d (offset s) (offset s + 1))),
        mkDecoder (offset s + 1) (isExtended s) (touched s ++ [(offset s, 1)])).
Proof.
  unfold readUInt8, bind, getOffset, access, advance, throw, ret.
  destruct (offset s + 1 >? dataLength d); reflexivity.
Qed.

Lemma readUInt32_eq d s :
  readUInt32 d s =
  if offset s + 4 >? dataLength d then (Throw (BufferOverflow (offset s)), s)
  else (Ok (uintBE (slice d (offset s) (offset s + 4))),
        mkDecoder (offset s + 4) (isExtended s) (touched s ++ [(offset s, 4)])).
Proof.
  unfold readUInt32, bind, getOffset, access, advance, throw, ret.
  destruct (offset s + 4 >? dataLength d); reflexivity.
Qed.

(** A successful [decode], taken apart. *)
Lemma decode_ok_inv d pkt s :
  decode d newDecoder = (Ok pkt, s) ->
  exists sh,
    decodeHead d newDecoder =
      (Ok (preamble pkt, dataFieldLength pkt, codecId pkt, numberOfData1 pkt,
           avlRecords pkt), sh) /\
    0 <= offset sh /\
    offset sh + 5 <= dataLength d /\
    offset s = offset sh + 5 /\
    numberOfData2 pkt = uintBE (slice d (offset sh) (offset sh + 1)) /\
    crc pkt = uintBE (slice d (offset sh + 1) (offset sh + 5)).
Proof.
  rewrite decode_split. unfold bind.
  destruct (newDecoder_ok d) as [H1 H2].
  destruct (Good_decodeHead d newDecoder H1 H2) as (Hb & _ & _).
  destruct (decodeHead d newDecoder) as [[h|e] sh]; [|discriminate].
  destruct h as [[[[p dl] c] n1] recs]. cbn [fst snd] in Hb.
  unfold decodeTail, bind. rewrite readUInt8_eq.
  destruct (Z.gtb_spec (offset sh + 1) (dataLength d)) as [G1|G1]; [discriminate|].
  rewrite readUInt32_eq. cbn [offset].
  destruct (Z.gtb_spec (offset sh + 1 + 4) (dataLength d)) as [G2|G2]; [discriminate|].
  unfold ret. intros Hpkt. inversion Hpkt; subst; clear Hpkt. cbn.
  cbn in Hb.
  replace (offset sh + 1 + 4) with (offset sh + 5) by lia.
  exists sh. repeat split; try reflexivity; lia.
Qed.

(** And put together. *)
Lemma decode_ok_intro d p dl c n1 recs sh :
  decodeHead d newDecoder = (Ok (p, dl, c, n1, recs), sh) ->
  offset sh + 5 <= dataLength d ->
  fst (decode d newDecoder) =
    Ok (mkDecodedPacket p dl c n1 recs
          (uintBE (slice d (offset sh) (offset sh + 1)))
          (uintBE (slice d (offset sh + 1) (offset sh + 5)))).
Proof.
  intros Hh Hlen. rewrite decode_split. unfold bind. rewrite Hh.
  unfold decodeTail, bind. rewrite readUInt8_eq.
  destruct (Z.gtb_spec (offset sh + 1) (dataLength d)) as [G1|G1]; [lia|].
  rewrite readUInt32_eq. cbn [offset].
  destruct (Z.gtb_spec (offset sh + 1 + 4) (dataLength d)) as [G2|G2]; [lia|].
  cbn. replace (offset sh + 1 + 4) with (offset sh + 5) by lia. reflexivity.
Qed.

Lemma head_transfers d d' h sh :
  decodeHead d newDecoder = (Ok h, sh) ->
  agree (offset sh) d d' ->
  decodeHead d' newDecoder = (Ok h, sh).
Proof.
  intros Hh Hag.
  destruct (newDecoder_ok d) as [H1 H2].
  destruct (Good_decodeHead d newDecoder H1 H2) as (_ & _ & Hloc).
  rewrite Hh in Hloc. cbn [fst snd] in Hloc.
  now apply (Hloc h eq_refl).
Qed.

Lemma sameButCrc_sym b1 b2 : sameButCrc b1 b2 -> sameButCrc b2 b1.
Proof. intros [H1 H2]. split; congruence. Qed.

Lemma sameButCrc_agree b1 b2 n :
  sameButCrc b1 b2 -> 0 <= n -> n + 4 <= dataLength b1 -> agree n b1 b2.
Proof.
  intros [Hlen Hfst] Hn Hle. unfold agree, dataLength in *.
  replace (Z.to_nat n) with (Nat.min (Z.to_nat n) (List.length b1 - 4)) by lia.
  rewrite <- !firstn_firstn. rewrite Hfst, Hlen. reflexivity.
Qed.

(** If one of two buffers that differ only in their last four bytes is
    decoded, so is the other, to the same packet but for [crc]. *)
Lemma crc_one_way b1 b2 p1 s1 :
  sameButCrc b1 b2 ->
  decode b1 newDecoder = (Ok p1, s1) ->
  exists crc2,
    decodeCodec8 b2 =
      Ok (mkDecodedPacket (preamble p1) (dataFieldLength p1) (codecId p1)
            (numberOfData1 p1) (avlRecords p1) (numberOfData2 p1) crc2).
Proof.
  intros Hsame Hdec.
  destruct (decode_ok_inv _ _ _ Hdec) as (sh & Hh & Hsh0 & Hlen & _ & Hnd2 & _).
  assert (Hag : agree (offset sh + 1) b1 b2)
    by (apply sameButCrc_agree; [assumption | lia | lia]).
  assert (Hh2 := head_transfers b1 b2 _ _ Hh
                   (agree_le (offset sh + 1) (offset sh) b1 b2 ltac:(lia) Hag)).
  assert (Hlen2 : dataLength b2 = dataLength b1)
    by (unfold dataLength; destruct Hsame as [-> _]; reflexivity).
  unfold decodeCodec8.
  rewrite (decode_ok_intro b2 _ _ _ _ _ _ Hh2) by lia.
  rewrite <- (agree_slice b1 b2 (offset sh) 1) by (assumption || lia).
  rewrite <- Hnd2. eexists. reflexivity.
Qed.

(** Claim C9. Two buffers that differ at most in their final four bytes
    are both rejected or both decoded, and then to the same records (and
    the same header and counts): the value of the CRC field decides
    nothing. The field is only read: the packet's [crc] is the four
    bytes before the final offset. *)
Theorem crc_never_validated (b1 b2 : Buffer) :
  sameButCrc b1 b2 ->
  match decodeCodec8 b1, decodeCodec8 b2 with
  | Ok p1, Ok p2 =>
      avlRecords p1 = avlRecords p2 /\
      preamble p1 = preamble p2 /\
      dataFieldLength p1 = dataFieldLength p2 /\
      codecId p1 = codecId p2 /\
      numberOfData1 p1 = numberOfData1 p2 /\
      numberOfData2 p1 = numberOfData2 p2
  | Throw _, Throw _ => True
  | _, _ => False
  end /\
  forall pkt s,
    decode b1 newDecoder = (Ok pkt, s) ->
    crc pkt = uintBE (slice b1 (offset s - 4) (offset s)).
Proof.
  intros Hsame. split;
    [| intros pkt s Hdec;
       destruct (decode_ok_inv _ _ _ Hdec) as (sh & _ & _ & _ & Hoff & _ & Hcrc);
       rewrite Hcrc; f_equal; f_equal; lia ].
  unfold decodeCodec8 at 1.
  destruct (decode b1 newDecoder) as [[p1|e1] s1] eqn:E1; cbn [fst].
  - destruct (crc_one_way _ _ _ _ Hsame E1) as (c2 & ->). cbn. tauto.
  - unfold decodeCodec8.
    destruct (decode b2 newDecoder) as [[p2|e2] s2] eqn:E2; cbn [fst]; [|exact I].
    destruct (crc_one_way _ _ _ _ (sameButCrc_sym _ _ Hsame) E2) as (c1 & H).
    unfold decodeCodec8 in H. rewrite E1 in H. discriminate.
Qed.


Lemma repeatM_length {A} (m : M A) n s l s' :
  repeatM n m s = (Ok l, s') -> List.length l = n.
Proof.
  revert s l s'. induction n as [|n IH]; intros s l s'; cbn [repeatM]; unfold bind, ret.
  - intros H. inversion H. reflexivity.
  - destruct (m s) as [[x|e] s1]; [|discriminate].
    destruct (repeatM n m s1) as [[xs|e] s2] eqn:E; [|discriminate].
    intros H. inversion H; subst. cbn. f_equal. eapply IH. exact E.
Qed.

(** [decode] returns as many records as [numberOfData1] says. *)
Lemma decodeHead_count d s p dl c n1 recs sh :
  decodeHead d s = (Ok (p, dl, c, n1, recs), sh) ->
  Z.of_nat (List.length recs) = n1.
Proof.
  unfold decodeHead, bind.
  destruct (readUInt32 d s) as [[a1|e1] s1]; [|discriminate].
  destruct (readUInt32 d s1) as [[a2|e2] s2]; [|discriminate].
  destruct (readUInt8 d s2) as [[a3|e3] s3]; [|discriminate].
  destruct (readUInt8 d s3) as [[a4|e4] s4] eqn:E4; [|discriminate].
  destruct (if a3 =? 8 then setExtended false
            else if a3 =? 142 then setExtended true
            else throw (UnsupportedCodec a3)) as [[a5|e5] s5]; [|discriminate].
  destruct (repeatM (Z.to_nat a4) (decodeAVLRecord d) s5) as [[a6|e6] s6] eqn:E6;
    [|discriminate].
  unfold ret. intros H. inversion H; subst.
  rewrite (repeatM_length _ _ _ _ _ E6).
  assert (0 <= n1) by (apply (Returns_readUInt8 d s3); now rewrite E4).
  lia.
Qed.

Lemma setByte_length d i b :
  0 <= i < dataLength d -> dataLength (setByte d i b) = dataLength d.
Proof.
  unfold setByte, dataLength. intros H.
  rewrite length_app, length_firstn. cbn [List.length]. rewrite length_skipn. lia.
Qed.

Lemma setByte_agree d i b :
  0 <= i <= dataLength d -> agree i d (setByte d i b).
Proof.
  unfold agree, setByte, dataLength. intros H.
  rewrite firstn_app, firstn_firstn, length_firstn.
  replace (Nat.min (Z.to_nat i) (Z.to_nat i)) with (Z.to_nat i) by lia.
  replace (Z.to_nat i - Nat.min (Z.to_nat i) (List.length d))%nat with O by lia.
  cbn. now rewrite app_nil_r.
Qed.

Lemma setByte_at d i b :
  0 <= i < dataLength d -> slice (setByte d i b) i (i + 1) = [b].
Proof.
  unfold slice, setByte, dataLength. intros H.
  replace (Z.to_nat (i + 1 - i)) with 1%nat by lia.
  rewrite skipn_app, length_firstn.
  replace (Z.to_nat i - Nat.min (Z.to_nat i) (List.length d))%nat with O by lia.
  rewrite skipn_firstn_comm. replace (Z.to_nat i - Z.to_nat i)%nat with O by lia.
  reflexivity.
Qed.

Lemma setByte_after d i b n :
  0 <= i < dataLength d -> 0 <= n ->
  slice (setByte d i b) (i + 1) (i + 1 + n) = slice d (i + 1) (i + 1 + n).
Proof.
  unfold slice, setByte, dataLength. intros H Hn. f_equal.
  replace (Z.to_nat (i + 1)) with (S (Z.to_nat i)) by lia.
  rewrite skipn_app, length_firstn.
  replace (S (Z.to_nat i) - Nat.min (Z.to_nat i) (List.length d))%nat with 1%nat by lia.
  rewrite skipn_firstn_comm.
  replace (Z.to_nat i - S (Z.to_nat i))%nat with O by lia.
  reflexivity.
Qed.

Lemma uintBE_single b : uintBE [b] = byteZ b.
Proof. reflexivity. Qed.

(** Claim C1, amended. [decode] reads both count bytes and compares
    them nowhere: a decoded packet holds as many records as
    [numberOfData1] says, its [numberOfData2] is the byte that follows
    the last record, and putting any other byte there leaves the frame
    decodable, to the same packet but for [numberOfData2]. *)
Theorem counts_read_not_compared (buffer : Buffer) (pkt : DecodedPacket) (s : Decoder) :
  decode buffer newDecoder = (Ok pkt, s) ->
  Z.of_nat (List.length (avlRecords pkt)) = numberOfData1 pkt /\
  numberOfData2 pkt = uintBE (slice buffer (offset s - 5) (offset s - 4)) /\
  forall b : byte,
    decodeCodec8 (setByte buffer (offset s - 5) b) =
      Ok (mkDecodedPacket (preamble pkt) (dataFieldLength pkt) (codecId pkt)
            (numberOfData1 pkt) (avlRecords pkt) (byteZ b) (crc pkt)).
Proof.
  intros Hdec.
  destruct (decode_ok_inv _ _ _ Hdec) as (sh & Hh & Hsh0 & Hlen & Hoff & Hnd2 & Hcrc).
  replace (offset s - 5) with (offset sh) by lia.
  replace (offset s - 4) with (offset sh + 1) by lia.
  split; [eapply decodeHead_count; exact Hh|]. split; [exact Hnd2|].
  intros b.
  assert (Hh' := head_transfers buffer (setByte buffer (offset sh) b) _ _ Hh
                   (setByte_agree buffer (offset sh) b ltac:(lia))).
  unfold decodeCodec8.
  rewrite (decode_ok_intro _ _ _ _ _ _ _ Hh')
    by (rewrite setByte_length; lia).
  rewrite setByte_at by lia.
  replace (offset sh + 5) with (offset sh + 1 + 4) by lia.
  rewrite setByte_after by lia.
  replace (offset sh + 1 + 4) with (offset sh + 5) by lia.
  rewrite <- Hcrc, uintBE_single. reflexivity.
Qed.

End DecoderFacts.

(* ===================================================================== *)
(** * Driver-behaviour scores                                             *)
(* ===================================================================== *)

Section ScoreFacts.

Import Api.

Lemma qltb_spec a b : reflect (a < b)%Q (qltb a b).
Proof.
  unfold qltb. destruct (Qle_bool b a) eqn:E; constructor.
  - apply Qle_bool_iff in E. now apply Qle_not_lt.
  - apply Qnot_le_lt. intros H. apply Qle_bool_iff in H. congruence.
Qed.

Lemma qle_spec a b : reflect (a <= b)%Q (Qle_bool a b).
Proof.
  destruct (Qle_bool a b) eqn:E; constructor.
  - now apply Qle_bool_iff.
  - intros H. apply Qle_bool_iff in H. congruence.
Qed.

Lemma clamp_min_max (x : Q) :
  (qmin 6 (qmax 1 x) == SpecScore.clamp x 1 6)%Q.
Proof.
  unfold qmin, qmax, SpecScore.clamp.
  destruct (qle_spec 1 x) as [H1|H1]; destruct (qltb_spec x 1) as [L1|L1].
  - exfalso. apply (Qlt_not_le _ _ L1 H1).
  - destruct (qle_spec 6 x) as [H6|H6]; destruct (qltb_spec 6 x) as [L6|L6];
      try reflexivity.
    + apply Qle_antisym; [assumption | now apply Qnot_lt_le].
    + exfalso. apply H6. now apply Qlt_le_weak.
  - reflexivity.
  - exfalso. apply L1. now apply Qnot_le_lt.
Qed.

Lemma qmax_spec_max (a b : Q) :
  (qmax a b == if qltb a b then b else a)%Q.
Proof.
  unfold qmax.
  destruct (qle_spec a b) as [H|H]; destruct (qltb_spec a b) as [L|L];
    try reflexivity.
  - apply Qle_antisym; [now apply Qnot_lt_le | assumption].
  - exfalso. apply H. now apply Qlt_le_weak.
Qed.

Lemma min_capped n k c : Z.min c (n * k) = SpecScore.capped n k c.
Proof. unfold SpecScore.capped. destruct (Z.gtb_spec (n * k) c); lia. Qed.

Lemma max_min_clampZ x : Z.max 0 (Z.min 100 x) = SpecScore.clampZ x 0 100.
Proof.
  unfold SpecScore.clampZ.
  destruct (Z.ltb_spec x 0); [lia|]. destruct (Z.ltb_spec 100 x); lia.
Qed.

Lemma scoring_totalRaw b a c m :
  sc_totalRawPenalty (scoring b a c m) = SpecScore.totalRaw b a c.
Proof.
  unfold scoring, SpecScore.totalRaw. cbn. rewrite !min_capped. lia.
Qed.

Lemma scoring_durationFactor b a c m :
  (sc_durationFactor (scoring b a c m) == SpecScore.durationFactor m)%Q.
Proof. unfold scoring, SpecScore.durationFactor. cbn. apply clamp_min_max. Qed.

Lemma scoring_normalized b a c m :
  (sc_normalizedPenalty (scoring b a c m) == SpecScore.normalized b a c m)%Q.
Proof.
  assert (Ht := scoring_totalRaw b a c m).
  assert (Hd := scoring_durationFactor b a c m).
  unfold scoring in *. cbn [sc_totalRawPenalty sc_durationFactor sc_normalizedPenalty] in *.
  unfold SpecScore.normalized. cbv zeta.
  rewrite qmax_spec_max. rewrite Ht. unfold qOfZ.
  set (fl := if b + c >? 0 then 3%Q else 0%Q).
  assert (E : (inject_Z (SpecScore.totalRaw b a c) / qmin 6 (qmax 1 (inject_Z m / 10))
               == inject_Z (SpecScore.totalRaw b a c) / SpecScore.durationFactor m)%Q)
    by (now rewrite Hd).
  destruct (qltb_spec (inject_Z (SpecScore.totalRaw b a c) / qmin 6 (qmax 1 (inject_Z m / 10))) fl) as [L|L];
  destruct (qltb_spec (inject_Z (SpecScore.totalRaw b a c) / SpecScore.durationFactor m) fl) as [L'|L'];
    try reflexivity; try assumption.
  - exfalso. apply L'. now rewrite <- E.
  - exfalso. apply L. now rewrite E.
Qed.

(** Claim C6. The scoring step of [calculateDriverBehavior] computes the
    rule of the specification: the three capped raw penalties and their
    sum, the duration factor [minutes / 10] clamped to [1, 6], the
    normalized penalty with its floor of 3 on a severe event, and the
    driver score [round(100 - normalized)] clamped to [0, 100]. *)
Theorem driver_score_formula (brake accel corner tripDurationMinutes : Z) :
  let sc := scoring brake accel corner tripDurationMinutes in
  raw_hardBraking (sc_rawPenalties sc) = SpecScore.capped brake 4 25 /\
  raw_hardAcceleration (sc_rawPenalties sc) = SpecScore.capped accel 2 20 /\
  raw_harshCornering (sc_rawPenalties sc) = SpecScore.capped corner 3 15 /\
  sc_totalRawPenalty sc = SpecScore.totalRaw brake accel corner /\
  (sc_durationFactor sc == SpecScore.durationFactor tripDurationMinutes)%Q /\
  (sc_normalizedPenalty sc
   == SpecScore.normalized brake accel corner tripDurationMinutes)%Q /\
  sc_driverScore sc = SpecScore.driverScore brake accel corner tripDurationMinutes.
Proof.
  cbv zeta. repeat split.
  - apply min_capped.
  - apply min_capped.
  - apply min_capped.
  - apply scoring_totalRaw.
  - apply scoring_durationFactor.
  - apply scoring_normalized.
  - assert (Hn := scoring_normalized brake accel corner tripDurationMinutes).
    unfold scoring in *. cbn [sc_driverScore sc_normalizedPenalty] in *.
    unfold SpecScore.driverScore, SpecScore.round, mathRound.
    rewrite max_min_clampZ. f_equal. apply Qfloor_comp. now rewrite Hn.
Qed.

(** What [calculateDriverBehavior] returns is the scoring step on the
    events it detected, passed through the confidence damping. *)
Lemma behavior_uses_scoring tripRecords b :
  calculateDriverBehavior tripRecords = Some b ->
  let sc := scoring (ev_hardBraking (events b)) (ev_hardAcceleration (events b))
              (ev_harshCornering (events b)) (tripDurationMinutes b) in
  totalRaw (penalties b) = sc_totalRawPenalty sc /\
  raw (penalties b) = sc_rawPenalties sc /\
  driverScore b =
    (if isLow (level (confidence b)) && (sc_driverScore sc >? 95) then 95
     else sc_driverScore sc) /\
  efficiencyScore b = Z.max 0 (Z.min 100 (100 - idlePenalty (penalties b))).
Proof.
  unfold calculateDriverBehavior.
  destruct tripRecords as [|first rest]; [discriminate|].
  generalize (first :: rest). intros tripRecords. cbv zeta.
  generalize (filter hasAccel tripRecords). intros accelRecords.
  destruct (List.length accelRecords <? 5)%nat; [discriminate|].
  destruct (detectEvents tripRecords accelRecords) as [[baselineX baselineY] d].
  intros [= <-]. unfold report.
  cbn [events ev_hardBraking ev_hardAcceleration ev_harshCornering
       tripDurationMinutes penalties totalRaw raw driverScore confidence level
       efficiencyScore idlePenalty].
  repeat split; reflexivity.
Qed.

(** Claim C7. Whenever [calculateDriverBehavior] returns a result, its
    [driverScore] and [efficiencyScore] lie in [0, 100], and at
    confidence level [low] its [driverScore] is at most 95. *)
Theorem scores_bounded (tripRecords : list Doc) (b : DriverBehavior) :
  calculateDriverBehavior tripRecords = Some b ->
  0 <= driverScore b <= 100 /\
  0 <= efficiencyScore b <= 100 /\
  (level (confidence b) = low -> driverScore b <= 95).
Proof.
  intros H. destruct (behavior_uses_scoring _ _ H) as (_ & _ & Hd & He).
  cbv zeta in Hd. rewrite Hd, He.
  set (sc := scoring _ _ _ _).
  assert (Hsc : 0 <= sc_driverScore sc <= 100).
  { unfold sc, scoring. cbn [sc_driverScore]. lia. }
  split; [|split].
  - destruct (isLow _ && _); lia.
  - lia.
  - intros ->. cbn [isLow andb].
    destruct (Z.gtb_spec (sc_driverScore sc) 95); lia.
Qed.

End ScoreFacts.

Section TripFacts.

Import Api.

Lemma tripLoop_snoc st pre r :
  tripLoop st (pre ++ [r]) =
  match tripLoop st pre with
  | Some st' => loopStep st' r
  | None => None
  end.
Proof.
  revert st. induction pre as [|x pre IH]; intros st; cbn.
  - destruct (loopStep st r); reflexivity.
  - destruct (loopStep st x); [apply IH | reflexivity].
Qed.

(** On a non-empty record set the close never throws, and ends the trip
    at the set's last record. *)
Lemma closeTrip_some current r0 l :
  exists t,
    closeTrip current (r0 :: l) = Some t /\
    startTime t = ts_startTime current /\
    endTime t = timestamp (last (r0 :: l) r0) /\
    endOdometer t = totalOdometer (last (r0 :: l) r0).
Proof.
  unfold closeTrip. eexists. split; [reflexivity|].
  cbn [startTime endTime endOdometer]. repeat split.
Qed.

Lemma loopStep_inv pre st r :
  tripLoop loopStart pre = Some st ->
  loopInv pre st ->
  exists st', loopStep st r = Some st' /\ loopInv (pre ++ [r]) st'.
Proof.
  unfold loopInv, loopStep. intros Hst Inv.
  destruct (currentTrip st) as [current|] eqn:Ec.
  - destruct Inv as (before & r0 & rest & st0 & Hpre & Hon & Hcur & Hrecs & Hlast & Hrun & Hc0 & Ht0).
    destruct (isEngineOn r) eqn:Er.
    + eexists. split; [reflexivity|]. cbn [currentTrip tripRecords lastEngineOnTime trips].
      exists before, r0, (rest ++ [r]), st0.
      rewrite Hpre, <- app_assoc, filter_app. cbn [filter app]. rewrite Er, Hrecs.
      repeat split; auto.
      change (r0 :: filter isEngineOn rest ++ [r])
        with ((r0 :: filter isEngineOn rest) ++ [r]).
      now rewrite last_last.
    + destruct (timestamp r - num (lastEngineOnTime st) >? 60000).
      * rewrite Hrecs.
        destruct (closeTrip_some current r0 (filter isEngineOn rest)) as (t & -> & _).
        eexists. split; [reflexivity|]. reflexivity.
      * exists st. split; [reflexivity|]. rewrite Ec.
        exists before, r0, (rest ++ [r]), st0.
        rewrite Hpre, <- app_assoc, filter_app. cbn [filter app]. rewrite Er, app_nil_r.
        repeat split; auto.
  - destruct (isEngineOn r) eqn:Er.
    + eexists. split; [reflexivity|]. cbn [currentTrip tripRecords lastEngineOnTime trips].
      exists pre, r, [], st. repeat split; auto.
    + exists st. split; [reflexivity|]. now rewrite Ec.
Qed.

(** The loop never throws, and [loopInv] holds after any records. *)
Lemma tripLoop_inv pre :
  exists st, tripLoop loopStart pre = Some st /\ loopInv pre st.
Proof.
  induction pre as [|r pre IH] using rev_ind.
  - exists loopStart. split; reflexivity.
  - destruct IH as (st & Hst & Inv).
    destruct (loopStep_inv pre st r Hst Inv) as (st' & Hstep & Inv').
    exists st'. split; [|assumption].
    now rewrite tripLoop_snoc, Hst.
Qed.

Lemma tripLoop_loopInv pre st :
  tripLoop loopStart pre = Some st -> loopInv pre st.
Proof.
  intros H. destruct (tripLoop_inv pre) as (st' & H' & Inv). congruence.
Qed.

Lemma last_map_Some {A} (l : list A) (d : A) :
  l <> [] -> last (map Some l) None = Some (last l d).
Proof.
  induction l as [|x l IH]; [congruence|]. intros _.
  destruct l as [|y l]; [reflexivity|].
  change (last (map Some (x :: y :: l)) None) with (last (map Some (y :: l)) None).
  change (last (x :: y :: l) d) with (last (y :: l) d).
  apply IH. discriminate.
Qed.

Lemma last_app_cons {A} (l1 : list A) (x : A) (l2 : list A) (d d' : A) :
  last (l1 ++ x :: l2) d = last (x :: l2) d'.
Proof.
  induction l1 as [|y l1 IH].
  - cbn [app]. revert x. induction l2 as [|z l2 IH2]; intros x; [reflexivity|].
    change (last (x :: z :: l2) d) with (last (z :: l2) d).
    change (last (x :: z :: l2) d') with (last (z :: l2) d').
    apply IH2.
  - cbn [app]. destruct (l1 ++ x :: l2) as [|a l] eqn:E.
    + destruct l1; discriminate.
    + change (last (y :: a :: l) d) with (last (a :: l) d). exact IH.
Qed.

(** With a trip open, the last engine-on record received is the last
    record of the trip's record set, and [lastEngineOnTime] is its
    time. *)
Lemma open_lastEngineOn pre st current :
  tripLoop loopStart pre = Some st ->
  currentTrip st = Some current ->
  exists r0 lastOn,
    tripRecords st <> [] /\
    lastOn = last (tripRecords st) r0 /\
    lastEngineOn pre = Some lastOn /\
    lastEngineOnTime st = Some (timestamp lastOn).
Proof.
  intros Hst Hc. assert (Inv := tripLoop_loopInv _ _ Hst).
  unfold loopInv in Inv. rewrite Hc in Inv.
  destruct Inv as (before & r0 & rest & st0 & Hpre & Hon & Hcur & Hrecs & Hlast & _).
  exists r0, (last (tripRecords st) r0). repeat split; auto.
  - rewrite Hrecs. discriminate.
  - unfold lastEngineOn. rewrite Hpre, filter_app. cbn [filter]. rewrite Hon.
    rewrite (last_map_Some _ r0) by (destruct (filter isEngineOn before); discriminate).
    f_equal. rewrite Hrecs. apply last_app_cons.
Qed.

Lemma meaningful_iff t :
  meaningful t = true <->
  durationMinutes t >= 2 \/ exists m, distanceMeters t = Some m /\ m > 100.
Proof.
  unfold meaningful. rewrite orb_true_iff. split.
  - intros [H|H].
    + left. destruct (Z.geb_spec (durationMinutes t) 2); [lia | discriminate].
    + right. destruct (distanceMeters t) as [m|]; [|discriminate].
      exists m. split; [reflexivity|]. destruct (Z.gtb_spec m 100); [lia | discriminate].
  - intros [H|(m & -> & H)].
    + left. destruct (Z.geb_spec (durationMinutes t) 2); [reflexivity | lia].
    + right. destruct (Z.gtb_spec m 100); [reflexivity | lia].
Qed.

(** Claim C5. After any records the next record moves the loop as
    follows. With no trip open, an engine-on record opens one, starting
    at that record, and an engine-off record changes nothing. With a
    trip open, the record closes it exactly when it is an engine-off
    record more than 60 s after the last engine-on record; the trip then
    starts where it was opened, ends at that last engine-on record
    ([endTime], [endOdometer]), is pushed to [trips] if and only if
    [durationMinutes >= 2] or [distanceMeters > 100] and is dropped
    otherwise, and no trip is open any more. A record that does not
    close the trip leaves it open and pushes nothing: an engine-on
    record joins the trip's records, an engine-off record changes
    nothing. *)
Theorem trip_close_rule (pre : list Doc) (st : Loop) (r : Doc) :
  tripLoop loopStart pre = Some st ->
  match currentTrip st with
  | None =>
      loopStep st r =
        Some (if isEngineOn r
              then mkLoop (trips st)
                     (Some (mkTripStart (timestamp r) (totalOdometer r)))
                     [r] (Some (timestamp r))
              else st)
  | Some current =>
      exists lastOn,
        lastEngineOn pre = Some lastOn /\
        lastEngineOnTime st = Some (timestamp lastOn) /\
        if negb (isEngineOn r) && (timestamp r - timestamp lastOn >? 60000)
        then
          exists t,
            closeTrip current (tripRecords st) = Some t /\
            startTime t = ts_startTime current /\
            endTime t = timestamp lastOn /\
            endOdometer t = totalOdometer lastOn /\
            loopStep st r =
              Some (mkLoop (if meaningful t then trips st ++ [t] else trips st)
                      None [] (lastEngineOnTime st)) /\
            (meaningful t = true <->
             durationMinutes t >= 2 \/
             exists m, distanceMeters t = Some m /\ m > 100)
        else
          loopStep st r =
            Some (if isEngineOn r
                  then mkLoop (trips st) (Some current) (tripRecords st ++ [r])
                         (Some (timestamp r))
                  else st)
  end.
Proof.
  intros Hst. destruct (currentTrip st) as [current|] eqn:Ec.
  - destruct (open_lastEngineOn _ _ _ Hst Ec) as (r0 & lastOn & Hne & Hl & Hlast & Htime).
    exists lastOn. split; [assumption|]. split; [assumption|].
    unfold loopStep. rewrite Ec, Htime. cbn [num].
    destruct (isEngineOn r) eqn:Er; cbn [negb andb]; [reflexivity|].
    destruct (timestamp r - timestamp lastOn >? 60000); [|reflexivity].
    destruct (tripRecords st) as [|x l] eqn:Erecs; [congruence|].
    destruct (closeTrip_some current x l) as (t & Ht & Hs & He & Ho).
    exists t. rewrite Ht.
    assert (Hx : last (x :: l) x = lastOn)
      by (rewrite Hl; apply (last_app_cons [] x l x r0)).
    rewrite Hx in He, Ho.
    repeat split; auto; apply meaningful_iff.
  - unfold loopStep. rewrite Ec.
    destruct (isEngineOn r); reflexivity.
Qed.

(** Claim C4, amended. With a trip open, its record set is the engine-on
    records received since the one that opened it, that one included (no
    trip was open when that one came): while the trip stays open an
    engine-on record is appended and an engine-off record is not. *)
Theorem trip_records_engine_on (pre : list Doc) (st : Loop) (current : TripStart) :
  tripLoop loopStart pre = Some st ->
  currentTrip st = Some current ->
  exists before opening rest,
    pre = before ++ opening :: rest /\
    (exists st0, tripLoop loopStart before = Some st0 /\ currentTrip st0 = None) /\
    isEngineOn opening = true /\
    ts_startTime current = timestamp opening /\
    tripRecords st = filter isEngineOn (opening :: rest) /\
    forall r,
      exists st',
        loopStep st r = Some st' /\
        (currentTrip st' <> None ->
         tripRecords st' = tripRecords st ++ (if isEngineOn r then [r] else [])).
Proof.
  intros Hst Hc. assert (Inv := tripLoop_loopInv _ _ Hst).
  unfold loopInv in Inv. rewrite Hc in Inv.
  destruct Inv as (before & r0 & rest & st0 & Hpre & Hon & Hcur & Hrecs & Hlast
                   & Hrun & Hc0 & _).
  exists before, r0, rest. cbn [filter]. rewrite Hon, Hcur.
  split; [assumption|]. split; [now exists st0|]. repeat split; auto.
  intros r. unfold loopStep. rewrite Hc.
  destruct (isEngineOn r).
  - eexists. split; [reflexivity|]. reflexivity.
  - destruct (timestamp r - num (lastEngineOnTime st) >? 60000).
    + rewrite Hrecs.
      destruct (closeTrip_some current r0 (filter isEngineOn rest)) as (t & -> & _).
      eexists. split; [reflexivity|]. cbn [currentTrip]. congruence.
    + exists st. split; [reflexivity|]. now rewrite app_nil_r.
Qed.

End TripFacts.

(* ===================================================================== *)
(** * Login frames and the session handler                                *)
(* ===================================================================== *)

Section SessionFacts.

Import Codec8.

Lemma parseIMEI_eq (buffer : Buffer) :
  parseIMEI buffer =
  if (17 <=? Z.of_nat (List.length buffer)) && (uintBE (slice buffer 0 2) =? 15)
  then Some (toAscii (slice buffer 2 17))
  else None.
Proof.
  unfold parseIMEI.
  destruct (Z.ltb_spec (Z.of_nat (List.length buffer)) 2) as [L2|L2].
  - destruct (Z.leb_spec 17 (Z.of_nat (List.length buffer))); [lia | reflexivity].
  - destruct (Z.eqb_spec (uintBE (slice buffer 0 2)) 15) as [E|E]; cbn [negb].
    + rewrite E.
      destruct (Z.ltb_spec (Z.of_nat (List.length buffer)) (2 + 15));
        destruct (Z.leb_spec 17 (Z.of_nat (List.length buffer))); try lia; reflexivity.
    + now rewrite andb_false_r.
Qed.

Lemma slice_payload (payload rest : Buffer) :
  List.length payload = 15%nat ->
  slice (x00 :: x0f :: payload ++ rest) 2 17 = payload.
Proof.
  intros H. unfold slice.
  change (Z.to_nat (17 - 2)) with 15%nat.
  change (Z.to_nat 2) with 2%nat. cbn [skipn].
  rewrite firstn_app, H, Nat.sub_diag, firstn_all2 by lia.
  cbn. apply app_nil_r.
Qed.

(** Claim C10. [parseIMEI] returns a string exactly when the buffer has
    at least 17 bytes and starts with the big-endian 16-bit length 15;
    the string is then the ASCII reading of bytes 2 to 16, whatever they
    are: any fifteen bytes after the length are accepted. *)
Theorem parseIMEI_accepts_any_payload (buffer : Buffer) :
  (parseIMEI buffer <> None <->
   (17 <= List.length buffer)%nat /\ uintBE (slice buffer 0 2) = 15) /\
  (parseIMEI buffer <> None ->
   parseIMEI buffer = Some (toAscii (slice buffer 2 17))) /\
  (forall payload rest : Buffer,
     List.length payload = 15%nat ->
     buffer = x00 :: x0f :: payload ++ rest ->
     parseIMEI buffer = Some (toAscii payload)).
Proof.
  rewrite parseIMEI_eq. repeat split.
  - destruct (Z.leb_spec 17 (Z.of_nat (List.length buffer))); [lia|].
    cbn in H. congruence.
  - destruct (Z.eqb_spec (uintBE (slice buffer 0 2)) 15); [assumption|].
    rewrite andb_false_r in H. congruence.
  - intros [H1 H2]. rewrite H2.
    destruct (Z.leb_spec 17 (Z.of_nat (List.length buffer))); [discriminate | lia].
  - destruct (_ && _); [reflexivity | congruence].
  - intros payload rest Hlen ->.
    rewrite slice_payload by assumption.
    replace (Z.of_nat (List.length (x00 :: x0f :: payload ++ rest)))
      with (17 + Z.of_nat (List.length rest))
      by (cbn [List.length]; rewrite length_app; lia).
    destruct (Z.leb_spec 17 (17 + Z.of_nat (List.length rest))); [|lia].
    reflexivity.
Qed.

End SessionFacts.

Section ServerFacts.

Import Server.

(** The login branch of the handler decides on [rejected] alone. *)
Lemma login_decision now db s buffer imei :
  loginIMEI buffer = Some imei ->
  onData now db s buffer =
  if rejected (Models.getDevice db imei)
  then (db, mkSession (deviceIMEI s) (deviceVIN s) (deviceType s)
              (written s ++ [[x00]]) true)
  else (db, mkSession (Some imei) (deviceVIN s) (deviceType s)
              (written s ++ [[x01]]) (destroyed s)).
Proof. intros H. unfold onData. now rewrite H. Qed.

(** A device is let in exactly when its document exists and its
    [approved] is not [false]. *)
Lemma rejected_false_iff device :
  rejected device = false <->
  exists d, device = Some d /\ Models.approved d <> Some false.
Proof.
  unfold rejected. split.
  - destruct device as [d|]; [|discriminate].
    intros H. exists d. split; [reflexivity|].
    destruct (Models.approved d) as [[|]|]; congruence.
  - intros (d & -> & H). destruct (Models.approved d) as [[|]|]; congruence.
Qed.

(** Without the unique index [insertMany] appends every document. *)
Lemma insertMany_plain collection docs stored :
  Models.insertMany false collection docs stored
  = stored ++ map (fun doc => (collection, doc)) docs.
Proof.
  revert stored. induction docs as [|doc rest IH]; intros stored; cbn.
  - now rewrite app_nil_r.
  - now rewrite IH, <- app_assoc.
Qed.

(** [insertMany] appends the documents up to the first one whose key is
    taken by then, and no other. *)
Lemma insertMany_prefix unique collection docs stored :
  exists k,
    (k <= List.length docs)%nat /\
    Models.insertMany unique collection docs stored
    = stored ++ map (fun doc => (collection, doc)) (firstn k docs) /\
    (forall j doc, (j < k)%nat -> nth_error docs j = Some doc ->
       unique && Models.keyTaken
                   (stored ++ map (fun doc => (collection, doc)) (firstn j docs))
                   collection (Models.rec_timestamp doc) (Models.rec_imei doc)
       = false) /\
    ((k < List.length docs)%nat ->
     exists doc, nth_error docs k = Some doc /\ unique = true /\
       Models.keyTaken
         (stored ++ map (fun doc => (collection, doc)) (firstn k docs))
         collection (Models.rec_timestamp doc) (Models.rec_imei doc) = true).
Proof.
  revert stored. induction docs as [|doc rest IH]; intros stored.
  - exists 0%nat. cbn. repeat split; try lia. now rewrite app_nil_r.
  - cbn [Models.insertMany].
    destruct (unique && Models.keyTaken stored collection _ _) eqn:E.
    + exists 0%nat. cbn [firstn map List.length]. rewrite app_nil_r.
      repeat split; try lia.
      intros _. exists doc. apply andb_true_iff in E. now destruct E.
    + destruct (IH (stored ++ [(collection, doc)])) as (k & Hk & Heq & Hbefore & Hat).
      exists (S k). cbn [firstn map List.length].
      split; [lia|]. split; [now rewrite Heq, <- app_assoc|]. split.
      * intros [|j] doc' Hj Hn; cbn [firstn map nth_error] in *.
        -- injection Hn as <-. now rewrite app_nil_r.
        -- specialize (Hbefore j doc' ltac:(lia) Hn).
           now rewrite <- app_assoc in Hbefore.
      * intros Hlt. destruct (Hat ltac:(lia)) as (doc' & Hn & Hu & Ht).
        exists doc'. cbn [nth_error]. rewrite <- app_assoc in Ht. auto.
Qed.

(** The AVL branch of the handler saves whatever it decodes, under
    whatever [deviceIMEI] holds, [null] included: with a store on which
    no unique index was created, every decoded record becomes a
    document. *)
Lemma avl_branch_persists now d s buffer pkt :
  Models.uniqueRecords d = false ->
  loginIMEI buffer = None ->
  Codec8.decodeCodec8 buffer = Codec8.Ok pkt ->
  recordCount (fst (onData now (Some d) s buffer)) =
    (List.length (Models.recordDocs d) + List.length (Codec8.avlRecords pkt))%nat /\
  deviceIMEI (snd (onData now (Some d) s buffer)) = deviceIMEI s.
Proof.
  intros Hu Hl Hd. unfold onData. rewrite Hl, Hd.
  destruct (Codec8.avlRecords pkt) as [|first rest] eqn:E; cbn [fst snd deviceIMEI].
  - unfold Models.upsertDevice, Models.saveRawData, recordCount.
    cbn [Models.recordDocs List.length]. split; [lia | reflexivity].
  - unfold Models.upsertDevice, Models.saveRawData, Models.saveRecords, recordCount.
    cbn [Models.recordDocs Models.devices Models.rawDocs Models.uniqueRecords].
    rewrite Hu. cbn [andb]. rewrite insertMany_plain.
    rewrite length_app, !length_map. split; reflexivity.
Qed.

(** Claim C3 fails on the code. The login frame of an IMEI whose stored
    document has no [approved] field is answered 0x01, and the session
    goes on as logged in. *)
Theorem login_accepts_absent_approved :
  onData 0 (Some (Models.mkDb [Samples.unapprovedDevice] [] []))
    newSession Samples.loginFrame
  = (Some (Models.mkDb [Samples.unapprovedDevice] [] []),
     mkSession (Some "864275079658715"%string) None None [[x01]] false).
Proof. vm_compute. reflexivity. Qed.

(** Claim C2 fails on the code. A connection whose first and only chunk
    is a decodable AVL frame has never logged in, and the frame's record
    is in the store, under a null [imei]. *)
Theorem avl_without_login_is_persisted :
  deviceIMEI (snd (session 1000 (Some Samples.emptyDb) newSession [Samples.avlFrame]))
    = None /\
  recordCount (fst (session 1000 (Some Samples.emptyDb) newSession [Samples.avlFrame]))
    = 1%nat /\
  List.length
    (persistedFor
       (fst (session 1000 (Some Samples.emptyDb) newSession [Samples.avlFrame]))
       None) = 1%nat /\
  written (snd (session 1000 (Some Samples.emptyDb) newSession [Samples.avlFrame]))
    = [[x00; x00; x00; x01]].
Proof. vm_compute. repeat split. Qed.

End ServerFacts.

(* ===================================================================== *)
(** * Concrete runs                                                       *)
(* ===================================================================== *)

(** Claim C1 fails on the code: a frame with counts 01 and 02 is decoded. *)
Lemma mismatched_counts_decode :
  exists pkt,
    Codec8.decodeCodec8 Samples.avlFrameMismatch = Codec8.Ok pkt /\
    Codec8.numberOfData1 pkt = 1 /\
    Codec8.numberOfData2 pkt = 2 /\
    List.length (Codec8.avlRecords pkt) = 1%nat.
Proof. eexists. vm_compute. repeat split. Qed.

(** The sample frame decodes, and with 07 in place of its trailing count
    it decodes to the same packet but for [numberOfData2]. *)
Lemma counts_read_not_compared_witness :
  exists pkt s,
    Codec8.decode Samples.avlFrame Codec8.newDecoder = (Codec8.Ok pkt, s) /\
    Codec8.numberOfData2 pkt = 1 /\
    Codec8.decodeCodec8 (setByte Samples.avlFrame (Codec8.offset s - 5) x07) =
      Codec8.Ok (Codec8.mkDecodedPacket (Codec8.preamble pkt)
                   (Codec8.dataFieldLength pkt) (Codec8.codecId pkt)
                   (Codec8.numberOfData1 pkt) (Codec8.avlRecords pkt) 7
                   (Codec8.crc pkt)).
Proof.
  eexists. eexists. split; [vm_compute; reflexivity|].
  split; [reflexivity|].
  refine (proj2 (proj2 (counts_read_not_compared Samples.avlFrame _ _ _)) x07).
  vm_compute. reflexivity.
Defined.

(** The sample frame is well formed; its first 30 bytes are rejected
    without an access past byte 29. *)
Lemma prefix_rejected_in_bounds_witness :
  wellFormedFrame Samples.avlFrame /\
  properPrefix (firstn 30 Samples.avlFrame) Samples.avlFrame /\
  (exists e, Codec8.decodeCodec8 (firstn 30 Samples.avlFrame) = Codec8.Throw e) /\
  Forall (inBounds 30) (Codec8.decodeAccesses (firstn 30 Samples.avlFrame)).
Proof.
  assert (W : wellFormedFrame Samples.avlFrame).
  { eexists. eexists. split; vm_compute; reflexivity. }
  assert (P : properPrefix (firstn 30 Samples.avlFrame) Samples.avlFrame).
  { exists (skipn 30 Samples.avlFrame). split; [vm_compute; discriminate|].
    symmetry. apply firstn_skipn. }
  split; [exact W|]. split; [exact P|].
  exact (prefix_rejected_in_bounds Samples.avlFrame (firstn 30 Samples.avlFrame) W P).
Defined.

(** The sample frame and the same frame with another CRC field. *)
Lemma crc_never_validated_witness :
  sameButCrc Samples.avlFrame Samples.avlFrameOtherCrc /\
  (match Codec8.decodeCodec8 Samples.avlFrame,
         Codec8.decodeCodec8 Samples.avlFrameOtherCrc with
   | Codec8.Ok p1, Codec8.Ok p2 =>
       Codec8.avlRecords p1 = Codec8.avlRecords p2 /\
       Codec8.preamble p1 = Codec8.preamble p2 /\
       Codec8.dataFieldLength p1 = Codec8.dataFieldLength p2 /\
       Codec8.codecId p1 = Codec8.codecId p2 /\
       Codec8.numberOfData1 p1 = Codec8.numberOfData1 p2 /\
       Codec8.numberOfData2 p1 = Codec8.numberOfData2 p2
   | Codec8.Throw _, Codec8.Throw _ => True
   | _, _ => False
   end).
Proof.
  assert (S : sameButCrc Samples.avlFrame Samples.avlFrameOtherCrc)
    by (split; vm_compute; reflexivity).
  split; [exact S|].
  pose proof (crc_never_validated Samples.avlFrame Samples.avlFrameOtherCrc) as H.
  specialize (H S). apply proj1 in H. exact H.
Defined.

(** A parked vehicle without satellites and with a flat odometer: low
    confidence, and the score of 100 is returned as 95. *)
Lemma scores_bounded_witness :
  exists b,
    Api.calculateDriverBehavior Samples.parked = Some b /\
    Api.level (Api.confidence b) = Api.low /\
    Api.driverScore b = 95 /\
    0 <= Api.efficiencyScore b <= 100.
Proof.
  eexists. split; [vm_compute; reflexivity|].
  split; [reflexivity|]. split; [reflexivity|].
  refine (proj1 (proj2 (scores_bounded Samples.parked _ _))).
  vm_compute. reflexivity.
Defined.

(** Claim C4 fails on the code: the engine-off record at 30 s, inside
    the 60 s threshold of an open trip, is not in the trip's record set,
    and its speed of 90 is not in the closed trip's [maxSpeed]. *)
Lemma brief_off_record_left_out :
  exists st2 st4 t,
    Api.tripLoop Api.loopStart (firstn 2 Samples.briefOff) = Some st2 /\
    Api.currentTrip st2 <> None /\
    Api.tripRecords st2 = [Samples.mkRec 0 1 40 None None None] /\
    Api.tripLoop Api.loopStart Samples.briefOff = Some st4 /\
    Api.trips st4 = [t] /\
    Api.trip_maxSpeed t = 40.
Proof.
  eexists. eexists. eexists.
  split; [vm_compute; reflexivity|].
  split; [discriminate|].
  split; [reflexivity|].
  split; [vm_compute; reflexivity|].
  split; reflexivity.
Qed.

(** After on, off (30 s), on: the trip opened by the first record is
    open and holds the two engine-on records. *)
Lemma trip_records_engine_on_witness :
  exists st current,
    Api.tripLoop Api.loopStart (firstn 3 Samples.briefOff) = Some st /\
    Api.currentTrip st = Some current /\
    exists before opening rest,
      firstn 3 Samples.briefOff = before ++ opening :: rest /\
      Api.ts_startTime current = Api.timestamp opening /\
      Api.tripRecords st = filter Api.isEngineOn (opening :: rest).
Proof.
  eexists. eexists.
  split; [vm_compute; reflexivity|].
  split; [reflexivity|].
  destruct (trip_records_engine_on (firstn 3 Samples.briefOff) _ _
              ltac:(vm_compute; reflexivity) ltac:(reflexivity))
    as (before & opening & rest & H1 & _ & _ & H3 & H4 & _).
  exists before, opening, rest. auto.
Defined.

(** After on (0 s), off (30 s), on (50 s) a trip is open. The
    off-record at 200 s closes it at 50 s; its distance, estimated from
    40 km/h over 50 s, is 556 m, so it is pushed, and no trip is open
    afterwards. *)
Lemma trip_close_rule_witness :
  exists st current t,
    Api.tripLoop Api.loopStart (firstn 3 Samples.briefOff) = Some st /\
    Api.trips st = [] /\
    Api.currentTrip st = Some current /\
    Api.closeTrip current (Api.tripRecords st) = Some t /\
    Api.startTime t = 0 /\
    Api.endTime t = 50000 /\
    Api.durationMinutes t = 1 /\
    Api.distanceMeters t = Some 556 /\
    Api.meaningful t = true /\
    Api.loopStep st (Samples.mkRec 200000 0 0 None None None) =
      Some (Api.mkLoop [t] None [] (Some 50000)).
Proof.
  eexists. eexists.
  assert (Hrun : Api.tripLoop Api.loopStart (firstn 3 Samples.briefOff) = Some _)
    by (vm_compute; reflexivity).
  pose proof (trip_close_rule (firstn 3 Samples.briefOff) _
                (Samples.mkRec 200000 0 0 None None None) Hrun) as H.
  cbn [Api.currentTrip] in H.
  destruct H as (lastOn & Hl & _ & H).
  assert (Ht : Api.timestamp lastOn = 50000).
  { vm_compute in Hl. injection Hl as <-. reflexivity. }
  rewrite Ht in H.
  change (negb (Api.isEngineOn (Samples.mkRec 200000 0 0 None None None))
          && (Api.timestamp (Samples.mkRec 200000 0 0 None None None) - 50000 >? 60000))
    with true in H.
  destruct H as (t & Hc & Hs & He & _ & Hstep & Hm).
  exists t.
  assert (Hdur : Api.durationMinutes t = 1).
  { apply (f_equal (option_map Api.durationMinutes)) in Hc.
    vm_compute in Hc. injection Hc as Hc. symmetry. exact Hc. }
  assert (Hdist : Api.distanceMeters t = Some 556).
  { apply (f_equal (option_map Api.distanceMeters)) in Hc.
    vm_compute in Hc. injection Hc as Hc. symmetry. exact Hc. }
  assert (Hmt : Api.meaningful t = true).
  { apply Hm. right. exists 556. split; [exact Hdist | lia]. }
  rewrite Hmt in Hstep.
  split; [exact Hrun|]. split; [reflexivity|]. split; [reflexivity|].
  split; [exact Hc|]. split; [exact Hs|]. split; [exact He|].
  split; [exact Hdur|]. split; [exact Hdist|]. split; [exact Hmt | exact Hstep].
Defined.

(** The estimate is summed in binary64: over 60.3 s at 6 km/h it is
    100.49999999999999 m and is rounded to 100 m, and the trip, one
    minute long, is dropped. *)
Lemma crawl_is_dropped :
  exists st current t,
    Api.tripLoop Api.loopStart (firstn 2 MoreSamples.crawl) = Some st /\
    Api.currentTrip st = Some current /\
    Api.closeTrip current (Api.tripRecords st) = Some t /\
    Api.distanceMeters t = Some 100 /\
    Api.durationMinutes t = 1 /\
    Api.meaningful t = false /\
    option_map Api.trips (Api.tripLoop Api.loopStart MoreSamples.crawl) = Some [].
Proof.
  eexists. eexists. eexists.
  split; [vm_compute; reflexivity|]. split; [reflexivity|].
  split; [vm_compute; reflexivity|]. repeat split.
Qed.

(** Fifteen bytes that are not digits are returned as the IMEI. *)
Lemma parseIMEI_accepts_any_payload_witness :
  Codec8.parseIMEI Samples.loginFrameLetters = Some "--NOT-A-NUMBER~"%string.
Proof.
  refine (proj2 (proj2 (parseIMEI_accepts_any_payload Samples.loginFrameLetters))
            (skipn 2 Samples.loginFrameLetters) [] _ _);
    vm_compute; reflexivity.
Defined.

(* ===================================================================== *)
(** * The shape of what the decoder returns                               *)
(* ===================================================================== *)

Section DecoderShape.
Import Codec8.

Lemma slice_length d off n :
  0 <= off -> 0 <= n -> off + n <= dataLength d ->
  Z.of_nat (List.length (slice d off (off + n))) = n.
Proof.
  unfold slice, dataLength. intros. rewrite length_firstn, length_skipn. lia.
Qed.

Lemma slice_length_le d off n :
  0 <= n -> Z.of_nat (List.length (slice d off (off + n))) <= n.
Proof. unfold slice. intros. rewrite length_firstn. lia. Qed.

Lemma byteZ_range b : 0 <= byteZ b < 256.
Proof.
  unfold byteZ. pose proof (Byte.to_N_bounded b). lia.
Qed.

Lemma uintBE_range bs : 0 <= uintBE bs < 256 ^ Z.of_nat (List.length bs).
Proof.
  unfold uintBE.
  assert (H : forall acc k, 0 <= k -> 0 <= acc < 256 ^ k ->
            0 <= fold_left (fun acc b => acc * 256 + byteZ b) bs acc
              < 256 ^ (k + Z.of_nat (List.length bs))).
  { induction bs as [|b bs IH]; intros acc k Hk Hacc.
    - cbn. now rewrite Z.add_0_r.
    - cbn [fold_left List.length].
      replace (k + Z.of_nat (S (List.length bs)))
        with ((k + 1) + Z.of_nat (List.length bs)) by lia.
      apply IH; [lia|].
      pose proof (byteZ_range b). rewrite Z.pow_add_r by lia.
      change (256 ^ 1) with 256. nia. }
  specialize (H 0 0 ltac:(lia) ltac:(cbn; lia)). exact H.
Qed.

Lemma uintBE_slice_range d off n :
  0 <= n -> 0 <= uintBE (slice d off (off + n)) < 256 ^ n.
Proof.
  intros Hn. pose proof (uintBE_range (slice d off (off + n))) as H.
  pose proof (slice_length_le d off n Hn).
  split; [lia|]. eapply Z.lt_le_trans; [apply H|].
  apply Z.pow_le_mono_r; lia.
Qed.


(** ** How much a method consumes *)

Lemma Good_Consumes {A} (m : Buffer -> M A) : Good m -> Consumes m 0.
Proof.
  intros G d s a s' Hs Ht E. destruct (G d s Hs Ht) as (H & _).
  rewrite E in H. cbn in H. lia.
Qed.

Lemma Consumes_le {A} (m : Buffer -> M A) k k' :
  Consumes m k -> k' <= k -> Consumes m k'.
Proof. intros H Hk d s a s' Hs Ht E. specialize (H d s a s' Hs Ht E). lia. Qed.

Lemma Consumes_bind {A B} (m : Buffer -> M A) (f : A -> Buffer -> M B) k1 k2 :
  Good m -> Consumes m k1 -> (forall a, Consumes (f a) k2) ->
  Consumes (fun d => bind (m d) (fun a => f a d)) (k1 + k2).
Proof.
  intros G Hm Hf d s b s' Hs Ht. unfold bind.
  destruct (G d s Hs Ht) as (Hb & Htouched & _).
  destruct (m d s) as [[a|e] s1] eqn:E; [|discriminate].
  cbn [fst snd] in *.
  intros H. specialize (Hm d s a s1 Hs Ht E).
  specialize (Hf a d s1 b s' ltac:(lia) Htouched H). lia.
Qed.

Lemma Consumes_repeatM {A} (m : Buffer -> M A) k n :
  Good m -> Consumes m k ->
  Consumes (fun d => repeatM n (m d)) (Z.of_nat n * k).
Proof.
  intros G Hm. induction n as [|n IH]; cbn [repeatM].
  - apply Good_Consumes, Good_ret.
  - replace (Z.of_nat (S n) * k) with (k + (Z.of_nat n * k + 0)) by lia.
    apply Consumes_bind; [assumption | assumption |]. intros x.
    apply Consumes_bind; [now apply Good_repeatM | assumption |].
    intros xs. apply Good_Consumes, Good_ret.
Qed.

Ltac reader_consumes :=
  let d := fresh "d" in let s := fresh "s" in
  intros d s ? ? ? ? ;
  unfold readBytes, readUInt8, readUInt16, readUInt32, readInt32, readUInt64,
    bind, getOffset, access, advance, throw, ret;
  match goal with |- context [?a >? ?b] => destruct (a >? b) end;
  let E := fresh "E" in intros E; inversion E; subst; cbn; lia.

Lemma Consumes_readUInt8 : Consumes readUInt8 1.
Proof. reader_consumes. Qed.
Lemma Consumes_readUInt16 : Consumes readUInt16 2.
Proof. reader_consumes. Qed.
Lemma Consumes_readUInt32 : Consumes readUInt32 4.
Proof. reader_consumes. Qed.
Lemma Consumes_readInt32 : Consumes readInt32 4.
Proof. reader_consumes. Qed.
Lemma Consumes_readUInt64 : Consumes readUInt64 8.
Proof. reader_consumes. Qed.

Lemma Consumes_readId ext : Consumes (fun d => readId d ext) 1.
Proof.
  destruct ext; [|apply Consumes_readUInt8].
  eapply Consumes_le; [apply Consumes_readUInt16 | lia].
Qed.

Lemma Consumes_fixedGroup ext w : 0 <= w -> Consumes (fun d => fixedGroup d ext w) 1.
Proof.
  intros Hw. unfold fixedGroup. change 1 with (1 + 0).
  apply Consumes_bind; [apply Good_readId | apply Consumes_readId |].
  intros n. apply Good_Consumes, Good_repeatM. now apply Good_fixedElement.
Qed.

(** A record takes at least 30 bytes: 24 up to the GPS element, and an
    IO element of at least 6. *)
Lemma Consumes_decodeIOElementStandard : Consumes decodeIOElementStandard 6.
Proof.
  unfold decodeIOElementStandard.
  change 6 with (1 + (1 + (1 + (1 + (1 + (1 + 0)))))).
  repeat first
    [ apply Good_Consumes, Good_ret
    | apply Consumes_bind;
      [ first [apply Good_readUInt8 | apply Good_fixedGroup; lia]
      | first [apply Consumes_readUInt8 | apply Consumes_fixedGroup; lia]
      | intro ] ].
Qed.

Lemma Consumes_decodeIOElementExtended : Consumes decodeIOElementExtended 6.
Proof.
  unfold decodeIOElementExtended.
  change 6 with (1 + (1 + (1 + (1 + (1 + (1 + 0)))))).
  repeat first
    [ apply Good_Consumes;
      repeat first [ apply Good_ret | apply Good_readUInt16
                   | apply Good_repeatM; apply Good_nxElement
                   | apply Good_bind; [|intro] ]
    | apply Consumes_bind;
      [ first [apply Good_readUInt16 | apply Good_fixedGroup; lia]
      | first [eapply Consumes_le; [apply Consumes_readUInt16 | lia]
              | apply Consumes_fixedGroup; lia]
      | intro ] ].
Qed.

Lemma Consumes_decodeAVLRecord : Consumes decodeAVLRecord 30.
Proof.
  unfold decodeAVLRecord.
  change 30 with (8 + (1 + (4 + (4 + (2 + (2 + (1 + (2 + (0 + (6 + 0)))))))))).
  apply Consumes_bind; [apply Good_readUInt64 | apply Consumes_readUInt64 | intro].
  apply Consumes_bind; [apply Good_readUInt8 | apply Consumes_readUInt8 | intro].
  apply Consumes_bind; [apply Good_readInt32 | apply Consumes_readInt32 | intro].
  apply Consumes_bind; [apply Good_readInt32 | apply Consumes_readInt32 | intro].
  apply Consumes_bind; [apply Good_readUInt16 | apply Consumes_readUInt16 | intro].
  apply Consumes_bind; [apply Good_readUInt16 | apply Consumes_readUInt16 | intro].
  apply Consumes_bind; [apply Good_readUInt8 | apply Consumes_readUInt8 | intro].
  apply Consumes_bind; [apply Good_readUInt16 | apply Consumes_readUInt16 | intro].
  apply Consumes_bind;
    [apply Good_getExtended | apply Good_Consumes, Good_getExtended | intros ext].
  apply Consumes_bind.
  - destruct ext; [apply Good_decodeIOElementExtended | apply Good_decodeIOElementStandard].
  - destruct ext; [apply Consumes_decodeIOElementExtended | apply Consumes_decodeIOElementStandard].
  - intros o. apply Good_Consumes.
    apply Good_if with (m1 := fun _ => throw InvalidTimeValue); [apply Good_throw | apply Good_ret].
Qed.

Lemma Consumes_decodeHead :
  forall d s p dl c n1 recs sh,
    0 <= offset s <= dataLength d ->
    Forall (inBounds (dataLength d)) (touched s) ->
    decodeHead d s = (Ok (p, dl, c, n1, recs), sh) ->
    offset s + 10 + 30 * n1 <= offset sh.
Proof.
  intros d s p dl c n1 recs sh Hs Ht Hh.
  assert (Hn := decodeHead_count _ _ _ _ _ _ _ _ Hh).
  revert Hh. unfold decodeHead, bind.
  destruct (Good_readUInt32 d s Hs Ht) as (B1 & T1 & _).
  destruct (readUInt32 d s) as [[a1|e1] s1] eqn:E1; [|discriminate].
  cbn [fst snd] in *.
  destruct (Good_readUInt32 d s1 ltac:(lia) T1) as (B2 & T2 & _).
  destruct (readUInt32 d s1) as [[a2|e2] s2] eqn:E2; [|discriminate].
  cbn [fst snd] in *.
  destruct (Good_readUInt8 d s2 ltac:(lia) T2) as (B3 & T3 & _).
  destruct (readUInt8 d s2) as [[a3|e3] s3] eqn:E3; [|discriminate].
  cbn [fst snd] in *.
  destruct (Good_readUInt8 d s3 ltac:(lia) T3) as (B4 & T4 & _).
  destruct (readUInt8 d s3) as [[a4|e4] s4] eqn:E4; [|discriminate].
  cbn [fst snd] in *.
  pose proof (Consumes_readUInt32 d s a1 s1 Hs Ht E1) as C1.
  pose proof (Consumes_readUInt32 d s1 a2 s2 ltac:(lia) T1 E2) as C2.
  pose proof (Consumes_readUInt8 d s2 a3 s3 ltac:(lia) T2 E3) as C3.
  pose proof (Consumes_readUInt8 d s3 a4 s4 ltac:(lia) T3 E4) as C4.
  assert (Hset : forall u s5,
            (if a3 =? 8 then setExtended false
             else if a3 =? 142 then setExtended true
             else throw (UnsupportedCodec a3)) s4 = (Ok u, s5) ->
            offset s5 = offset s4 /\ touched s5 = touched s4).
  { intros u s5. destruct (a3 =? 8); [|destruct (a3 =? 142)];
      cbn; intros H; inversion H; subst; cbn; auto. }
  destruct (if a3 =? 8 then setExtended false
            else if a3 =? 142 then setExtended true
            else throw (UnsupportedCodec a3)) as [[a5|e5] s5] eqn:E5; [|discriminate].
  destruct (Hset a5 s5 eq_refl) as [O5 T5].
  destruct (repeatM (Z.to_nat a4) (decodeAVLRecord d) s5) as [[a6|e6] s6] eqn:E6;
    [|discriminate].
  pose proof (Consumes_repeatM decodeAVLRecord 30 (Z.to_nat a4)
                Good_decodeAVLRecord Consumes_decodeAVLRecord d s5 a6 s6
                ltac:(lia) ltac:(now rewrite T5) E6) as C6.
  assert (Ha4 : 0 <= a4) by (apply (Returns_readUInt8 d s3); now rewrite E4).
  unfold ret. intros Hret. inversion Hret; subst.
  lia.
Qed.

(** Property X1. A decoded frame has at least 15 bytes, and 30 more for each record. *)
Theorem decoded_frame_min_length (buffer : Buffer) (pkt : DecodedPacket) :
  decodeCodec8 buffer = Ok pkt ->
  15 + 30 * numberOfData1 pkt <= Z.of_nat (List.length buffer).
Proof.
  unfold decodeCodec8. intros H.
  destruct (decode buffer newDecoder) as [r s] eqn:E. cbn in H. subst r.
  destruct (decode_ok_inv _ _ _ E) as (sh & Hh & _ & Hlen & _).
  destruct (newDecoder_ok buffer) as [H1 H2].
  pose proof (Consumes_decodeHead _ _ _ _ _ _ _ _ H1 H2 Hh) as C.
  cbn [offset newDecoder] in C. unfold dataLength in Hlen. lia.
Qed.

(** Property X2. Bytes after the frame are not looked at. *)
Theorem trailing_bytes_ignored (buffer extra : Buffer) (pkt : DecodedPacket) :
  decodeCodec8 buffer = Ok pkt ->
  decodeCodec8 (buffer ++ extra) = Ok pkt.
Proof.
  unfold decodeCodec8. intros H.
  destruct (newDecoder_ok buffer) as [H1 H2].
  destruct (Good_decode buffer newDecoder H1 H2) as (Hb & _ & Hloc).
  rewrite (Hloc pkt H (buffer ++ extra)); [assumption|].
  apply agree_app. cbn [offset newDecoder] in Hb. lia.
Qed.


(** Property X3. A frame of ten bytes or more whose codec byte is neither 0x08 nor
    0x8E is answered with the unsupported-codec error, whatever
    follows. *)
Theorem unknown_codec_rejected (buffer : Buffer) :
  10 <= Z.of_nat (List.length buffer) ->
  uintBE (slice buffer 8 9) <> 8 ->
  uintBE (slice buffer 8 9) <> 142 ->
  decodeCodec8 buffer = Throw (UnsupportedCodec (uintBE (slice buffer 8 9))).
Proof.
  intros Hlen H8 H142. unfold decodeCodec8, decode, bind.
  rewrite readUInt32_eq. cbn [offset newDecoder].
  destruct (Z.gtb_spec (0 + 4) (dataLength buffer)) as [G|_];
    [unfold dataLength in G; lia|].
  rewrite readUInt32_eq. cbn [offset].
  destruct (Z.gtb_spec (0 + 4 + 4) (dataLength buffer)) as [G|_];
    [unfold dataLength in G; lia|].
  rewrite readUInt8_eq. cbn [offset].
  destruct (Z.gtb_spec (0 + 4 + 4 + 1) (dataLength buffer)) as [G|_];
    [unfold dataLength in G; lia|].
  rewrite readUInt8_eq. cbn [offset].
  destruct (Z.gtb_spec (0 + 4 + 4 + 1 + 1) (dataLength buffer)) as [G|_];
    [unfold dataLength in G; lia|].
  change (0 + 4 + 4) with 8. change (8 + 1) with 9.
  destruct (Z.eqb_spec (uintBE (slice buffer 8 9)) 8); [contradiction|].
  destruct (Z.eqb_spec (uintBE (slice buffer 8 9)) 142); [contradiction|].
  reflexivity.
Qed.

(** ** What the values returned look like *)

Lemma Post_ret {A} e (a : A) (P : A -> Prop) : P a -> Post e (fun _ => ret a) P.
Proof. intros Pa d s x s' Hs He H. inversion H; subst. auto. Qed.

Lemma Post_throw {A} e (err : Error) (P : A -> Prop) : Post e (fun _ => throw err) P.
Proof. intros d s x s' Hs He H. discriminate. Qed.

Lemma Post_getExtended e : Post e (fun _ => getExtended) (fun a => a = e).
Proof. intros d s x s' Hs He H. inversion H; subst. auto. Qed.

Lemma Post_weaken {A} e (m : Buffer -> M A) (P Q : A -> Prop) :
  Post e m P -> (forall a, P a -> Q a) -> Post e m Q.
Proof.
  intros H HPQ d s a s' Hs He E.
  destruct (H d s a s' Hs He E) as (H1 & H2 & H3). auto.
Qed.

Lemma Post_bind {A B} e (m : Buffer -> M A) (f : A -> Buffer -> M B)
    (P : A -> Prop) (Q : B -> Prop) :
  Post e m P -> (forall a, P a -> Post e (f a) Q) ->
  Post e (fun d => bind (m d) (fun a => f a d)) Q.
Proof.
  intros Hm Hf d s b s' Hs He. unfold bind.
  destruct (m d s) as [[a|err] s1] eqn:E; [|discriminate].
  destruct (Hm d s a s1 Hs He E) as (H1 & H2 & H3).
  intros H. exact (Hf a H3 d s1 b s' H1 H2 H).
Qed.

Lemma Post_repeatM {A} e (m : Buffer -> M A) (P : A -> Prop) n :
  Post e m P -> Post e (fun d => repeatM n (m d)) (Forall P).
Proof.
  intros Hm. induction n as [|n IH]; cbn [repeatM].
  - apply Post_ret. constructor.
  - eapply Post_bind; [exact Hm|]. intros x Px.
    eapply Post_bind; [exact IH|]. intros xs Pxs.
    apply Post_ret. now constructor.
Qed.

Ltac reader_post :=
  let d := fresh "d" in let s := fresh "s" in
  let Hs := fresh "Hs" in let He := fresh "He" in
  intros d s ? ? Hs He;
  unfold readBytes, readUInt8, readUInt16, readUInt32, readInt32, readUInt64,
    bind, getOffset, access, advance, throw, ret;
  match goal with |- context [?a >? ?b] => destruct (Z.gtb_spec a b) end;
  [ discriminate | ];
  let E := fresh "E" in intros E; inversion E; subst; cbn [offset isExtended];
  split; [lia|]; split; [reflexivity|].

Lemma Post_readUInt8 e : Post e readUInt8 (fun v => 0 <= v < 256).
Proof. reader_post. apply (uintBE_slice_range d (offset s) 1). lia. Qed.

Lemma Post_readUInt16 e : Post e readUInt16 (fun v => 0 <= v < 65536).
Proof. reader_post. apply (uintBE_slice_range d (offset s) 2). lia. Qed.

Lemma Post_readUInt32 e : Post e readUInt32 (fun v => 0 <= v < 4294967296).
Proof. reader_post. apply (uintBE_slice_range d (offset s) 4). lia. Qed.

Lemma Post_readInt32 e :
  Post e readInt32 (fun v => - 2147483648 <= v < 2147483648).
Proof.
  reader_post. unfold int32BE.
  pose proof (uintBE_slice_range d (offset s) 4 ltac:(lia)) as R.
  change (256 ^ 4) with 4294967296 in R.
  destruct (Z.leb_spec 2147483648 (uintBE (slice d (offset s) (offset s + 4)))); lia.
Qed.

Lemma Post_readUInt64 e :
  Post e readUInt64 (fun v => 0 <= v < 18446744073709551616).
Proof.
  reader_post.
  pose proof (uintBE_slice_range d (offset s) 4 ltac:(lia)) as R1.
  pose proof (uintBE_slice_range d (offset s + 4) 4 ltac:(lia)) as R2.
  change (256 ^ 4) with 4294967296 in R1, R2. lia.
Qed.

Lemma Post_readBytes e n :
  0 <= n -> Post e (fun d => readBytes d n) (fun r => Z.of_nat (List.length r) = n).
Proof. intros Hn. reader_post. apply slice_length; lia. Qed.

Lemma Post_readId e ext :
  Post e (fun d => readId d ext) (fun v => 0 <= v < (if ext then 65536 else 256)).
Proof. destruct ext; [apply Post_readUInt16 | apply Post_readUInt8]. Qed.

Lemma Post_fixedElement e ext w :
  w = 1 \/ w = 2 \/ w = 4 \/ w = 8 ->
  Post e (fun d => fixedElement d ext w) (elementOk ext).
Proof.
  intros Hw. unfold fixedElement.
  eapply Post_bind; [apply Post_readId|]. intros i Hi.
  eapply Post_bind; [apply Post_readBytes; lia|]. intros r Hr.
  apply Post_ret. unfold elementOk. cbn [raw size id name value].
  cbv beta in Hi, Hr.
  split; [exact Hr|]. split; [exact Hi|]. split; [reflexivity|].
  split; [intros _; exact Hw|].
  destruct (Z.eqb_spec w 8) as [->|N8]; [exact I|].
  split; [reflexivity|]. split; [lia|].
  pose proof (uintBE_range r) as R. rewrite Hr in R. exact R.
Qed.

Lemma Post_fixedGroup e ext w :
  w = 1 \/ w = 2 \/ w = 4 \/ w = 8 ->
  Post e (fun d => fixedGroup d ext w) (Forall (elementOk ext)).
Proof.
  intros Hw. unfold fixedGroup.
  eapply Post_bind; [apply Post_readId|]. intros n _.
  apply Post_repeatM. now apply Post_fixedElement.
Qed.

Lemma Post_nxElement e : Post e nxElement (elementOk true).
Proof.
  unfold nxElement.
  eapply Post_bind; [apply Post_readUInt16|]. intros i Hi.
  eapply Post_bind; [apply Post_readUInt16|]. intros len Hlen.
  cbv beta in Hlen.
  eapply Post_bind; [apply Post_readBytes; lia|]. intros r Hr.
  apply Post_ret. unfold elementOk. cbn [raw size id name value].
  cbv beta in Hi, Hr.
  split; [exact Hr|]. split; [exact Hi|]. split; [reflexivity|].
  split; [discriminate|].
  destruct ((i =? 256) || (i =? 281) || (i =? 385)); exact I.
Qed.

Lemma Post_decodeIOElementStandard e :
  Post e decodeIOElementStandard (ioOk false).
Proof.
  unfold decodeIOElementStandard.
  eapply Post_bind; [apply Post_readUInt8|]. intros ev Hev.
  eapply Post_bind; [apply Post_readUInt8|]. intros tot Htot.
  eapply Post_bind; [apply (Post_fixedGroup e false 1); tauto|]. intros e1 H1.
  eapply Post_bind; [apply (Post_fixedGroup e false 2); tauto|]. intros e2 H2.
  eapply Post_bind; [apply (Post_fixedGroup e false 4); tauto|]. intros e4 H4.
  eapply Post_bind; [apply (Post_fixedGroup e false 8); tauto|]. intros e8 H8.
  apply Post_ret. unfold ioOk. cbn [eventIoId totalCount elements].
  cbv beta in Hev, Htot.
  split; [exact Hev|]. split; [exact Htot|]. rewrite !Forall_app. tauto.
Qed.

Lemma Post_decodeIOElementExtended e :
  Post e decodeIOElementExtended (ioOk true).
Proof.
  unfold decodeIOElementExtended.
  eapply Post_bind; [apply Post_readUInt16|]. intros ev Hev.
  eapply Post_bind; [apply Post_readUInt16|]. intros tot Htot.
  eapply Post_bind; [apply (Post_fixedGroup e true 1); tauto|]. intros e1 H1.
  eapply Post_bind; [apply (Post_fixedGroup e true 2); tauto|]. intros e2 H2.
  eapply Post_bind; [apply (Post_fixedGroup e true 4); tauto|]. intros e4 H4.
  eapply Post_bind; [apply (Post_fixedGroup e true 8); tauto|]. intros e8 H8.
  eapply Post_bind; [apply Post_readUInt16|]. intros nx _.
  eapply Post_bind; [apply Post_repeatM, Post_nxElement|]. intros ex Hx.
  apply Post_ret. unfold ioOk. cbn [eventIoId totalCount elements].
  cbv beta in Hev, Htot.
  split; [exact Hev|]. split; [exact Htot|]. rewrite !Forall_app. tauto.
Qed.

Lemma Post_decodeAVLRecord e :
  Post e decodeAVLRecord (fun r => recordOk r /\ ioOk e (io r)).
Proof.
  unfold decodeAVLRecord.
  eapply Post_bind; [apply Post_readUInt64|]. intros ts Hts.
  eapply Post_bind; [apply Post_readUInt8|]. intros prio Hprio.
  eapply Post_bind; [apply Post_readInt32|]. intros lon Hlon.
  eapply Post_bind; [apply Post_readInt32|]. intros lat Hlat.
  eapply Post_bind; [apply Post_readUInt16|]. intros alt Halt.
  eapply Post_bind; [apply Post_readUInt16|]. intros ang Hang.
  eapply Post_bind; [apply Post_readUInt8|]. intros sat Hsat.
  eapply Post_bind; [apply Post_readUInt16|]. intros spd Hspd.
  eapply Post_bind; [apply Post_getExtended|]. intros ext ->.
  eapply Post_bind with (P := ioOk e).
  - destruct e; [apply Post_decodeIOElementExtended | apply Post_decodeIOElementStandard].
  - intros o Ho.
    destruct (Z.gtb_spec ts maxTimeValue); [apply Post_throw|].
    apply Post_ret. unfold recordOk.
    cbn [timestamp timestampRaw priority gps longitude latitude altitude angle
         satellites speed io Qnum Qden].
    cbv beta in *.
    repeat split; try lia; try assumption; apply Ho.
Qed.

Lemma decodeHead_post d p dl c n1 recs sh :
  decodeHead d newDecoder = (Ok (p, dl, c, n1, recs), sh) ->
  (c = 8 \/ c = 142) /\
  0 <= p < 4294967296 /\
  0 <= dl < 4294967296 /\
  0 <= n1 < 256 /\
  Forall (fun r => recordOk r /\ ioOk (c =? 142) (io r)) recs.
Proof.
  unfold decodeHead, bind.
  destruct (readUInt32 d newDecoder) as [[a1|e1] s1] eqn:E1; [|discriminate].
  destruct (Post_readUInt32 false d newDecoder a1 s1 ltac:(cbn; lia) eq_refl E1) as (O1 & _ & R1).
  destruct (readUInt32 d s1) as [[a2|e2] s2] eqn:E2; [|discriminate].
  destruct (Post_readUInt32 _ d _ _ _ O1 eq_refl E2) as (O2 & _ & R2).
  destruct (readUInt8 d s2) as [[a3|e3] s3] eqn:E3; [|discriminate].
  destruct (Post_readUInt8 _ d _ _ _ O2 eq_refl E3) as (O3 & _ & R3).
  destruct (readUInt8 d s3) as [[a4|e4] s4] eqn:E4; [|discriminate].
  destruct (Post_readUInt8 _ d _ _ _ O3 eq_refl E4) as (O4 & _ & R4).
  assert (Hset : forall u s5,
            (if a3 =? 8 then setExtended false
             else if a3 =? 142 then setExtended true
             else throw (UnsupportedCodec a3)) s4 = (Ok u, s5) ->
            (a3 = 8 \/ a3 = 142) /\ offset s5 = offset s4 /\
            isExtended s5 = (a3 =? 142)).
  { intros u s5. destruct (Z.eqb_spec a3 8) as [->|N8].
    - cbn. intros H. inversion H; subst. cbn. auto.
    - destruct (Z.eqb_spec a3 142) as [->|N142]; cbn; intros H; inversion H; subst.
      cbn. auto. }
  destruct (if a3 =? 8 then setExtended false
            else if a3 =? 142 then setExtended true
            else throw (UnsupportedCodec a3)) as [[a5|e5] s5] eqn:E5; [|discriminate].
  destruct (Hset a5 s5 eq_refl) as (Hc & O5 & X5).
  destruct (repeatM (Z.to_nat a4) (decodeAVLRecord d) s5) as [[a6|e6] s6] eqn:E6;
    [|discriminate].
  destruct (Post_repeatM _ decodeAVLRecord _ (Z.to_nat a4)
              (Post_decodeAVLRecord (a3 =? 142)) d s5 a6 s6 ltac:(lia) X5 E6)
    as (_ & _ & Hrecs).
  unfold ret. intros Hret. inversion Hret; subst. cbv beta in *. tauto.
Qed.

(** Property X4. A decoded packet's codec id is 0x08 or 0x8E, its header fields and
    counts are within the widths they were read with, and every record's
    timestamp is within the Date range (rendered in decimal as
    [timestampRaw]) with priority and GPS fields within their widths,
    longitude and latitude being signed 32-bit integers over 10^7. *)
Theorem decoded_packet_ranges (buffer : Buffer) (pkt : DecodedPacket) :
  decodeCodec8 buffer = Ok pkt ->
  (codecId pkt = 8 \/ codecId pkt = 142) /\
  0 <= preamble pkt < 4294967296 /\
  0 <= dataFieldLength pkt < 4294967296 /\
  0 <= numberOfData1 pkt < 256 /\
  0 <= numberOfData2 pkt < 256 /\
  0 <= crc pkt < 4294967296 /\
  Forall recordOk (avlRecords pkt).
Proof.
  unfold decodeCodec8. intros H.
  destruct (decode buffer newDecoder) as [r s] eqn:E. cbn in H. subst r.
  destruct (decode_ok_inv _ _ _ E) as (sh & Hh & _ & _ & _ & Hnd2 & Hcrc).
  destruct (decodeHead_post _ _ _ _ _ _ _ Hh) as (Hc & Hp & Hdl & Hn1 & Hrecs).
  rewrite Hnd2, Hcrc.
  pose proof (uintBE_slice_range buffer (offset sh) 1 ltac:(lia)) as R1.
  pose proof (uintBE_slice_range buffer (offset sh + 1) 4 ltac:(lia)) as R2.
  replace (offset sh + 1 + 4) with (offset sh + 5) in R2 by lia.
  change (256 ^ 1) with 256 in R1. change (256 ^ 4) with 4294967296 in R2.
  repeat split; try tauto; try lia.
  eapply Forall_impl; [|exact Hrecs]. cbv beta. tauto.
Qed.

(** Property X5. Every IO element of a decoded packet carries in [raw] exactly [size]
    bytes, an id within the codec's id width and the table's name for it;
    a Number value is the big-endian reading of its 1, 2 or 4 raw bytes.
    In a Codec 8 packet every element has size 1, 2, 4 or 8 and an id
    below 256. *)
Theorem decoded_elements_wellformed (buffer : Buffer) (pkt : DecodedPacket) :
  decodeCodec8 buffer = Ok pkt ->
  Forall (fun r => ioOk (codecId pkt =? 142) (io r)) (avlRecords pkt).
Proof.
  unfold decodeCodec8. intros H.
  destruct (decode buffer newDecoder) as [r s] eqn:E. cbn in H. subst r.
  destruct (decode_ok_inv _ _ _ E) as (sh & Hh & _).
  destruct (decodeHead_post _ _ _ _ _ _ _ Hh) as (_ & _ & _ & _ & Hrecs).
  eapply Forall_impl; [|exact Hrecs]. cbv beta. tauto.
Qed.


(** ** Hex *)

Lemma hex_byte b :
  hexDigit (hexChar (byteZ b / 16)) = Some (byteZ b / 16) /\
  hexDigit (hexChar (byteZ b mod 16)) = Some (byteZ b mod 16) /\
  byteOfZ (16 * (byteZ b / 16) + byteZ b mod 16) = b.
Proof. destruct b; vm_compute; repeat split. Qed.

Lemma fromHex_toHex (bs : Buffer) : fromHex (toHex bs) = bs.
Proof.
  induction bs as [|b bs IH]; [reflexivity|].
  destruct (hex_byte b) as (H1 & H2 & H3).
  cbn [toHex fromHex]. rewrite H1, H2, H3, IH. reflexivity.
Qed.

(** Property X6. The hex text of a buffer ([buffer.toString('hex')], as logged and as
    stored in [rawHex]) read back with [Buffer.from(hex, 'hex')] is the
    buffer, so decoding the stored text gives what decoding the live
    buffer gave. *)
Theorem raw_hex_round_trip (buffer : Buffer) :
  fromHex (toHex buffer) = buffer /\
  decodeCodec8 (fromHex (toHex buffer)) = decodeCodec8 buffer.
Proof. rewrite fromHex_toHex. split; reflexivity. Qed.

Lemma toAscii_length bs : String.length (toAscii bs) = List.length bs.
Proof. induction bs as [|b bs IH]; cbn; congruence. Qed.

Lemma toAscii_7bit bs :
  Forall (fun c => (nat_of_ascii c < 128)%nat) (list_ascii_of_string (toAscii bs)).
Proof.
  induction bs as [|b bs IH]; cbn [toAscii list_ascii_of_string]; constructor; auto.
  rewrite nat_ascii_embedding.
  - pose proof (Z.land_nonneg (byteZ b) 127) as Hn.
    assert (Z.land (byteZ b) 127 <= 127).
    { destruct b; vm_compute; discriminate. }
    pose proof (byteZ_range b). lia.
  - assert (Z.land (byteZ b) 127 <= 127).
    { destruct b; vm_compute; discriminate. }
    pose proof (Z.land_nonneg (byteZ b) 127). pose proof (byteZ_range b). lia.
Qed.

(** Property X7. What [parseIMEI] returns is always fifteen characters of 7-bit
    ASCII. *)
Theorem parseIMEI_fifteen_chars (buffer : Buffer) (imei : string) :
  parseIMEI buffer = Some imei ->
  String.length imei = 15%nat /\
  Forall (fun c => (nat_of_ascii c < 128)%nat) (list_ascii_of_string imei).
Proof.
  rewrite parseIMEI_eq.
  destruct (Z.leb_spec 17 (Z.of_nat (List.length buffer))) as [L|L]; [|discriminate].
  destruct (uintBE (slice buffer 0 2) =? 15); [|discriminate].
  cbn [andb]. intros H. inversion H; subst. split; [|apply toAscii_7bit].
  rewrite toAscii_length.
  pose proof (slice_length buffer 2 15 ltac:(lia) ltac:(lia)
                ltac:(unfold dataLength; lia)) as Hl.
  change (2 + 15) with 17 in Hl. lia.
Qed.

End DecoderShape.

(* ===================================================================== *)
(** * The store: collection names, field names, devices                   *)
(* ===================================================================== *)

Section ModelsFacts.
Import Models.

Lemma optStringEqb_eq a b : optStringEqb a b = true <-> a = b.
Proof.
  destruct a as [x|], b as [y|]; cbn; split; try congruence; try discriminate.
  - intros H. apply String.eqb_eq in H. congruence.
  - intros H. inversion H. apply String.eqb_refl.
Qed.

Lemma optStringEqb_refl a : optStringEqb a a = true.
Proof. now apply optStringEqb_eq. Qed.

Lemma optStringEqb_neq a b : a <> b -> optStringEqb a b = false.
Proof.
  intros H. destruct (optStringEqb a b) eqn:E; [|reflexivity].
  apply optStringEqb_eq in E. contradiction.
Qed.

(** One step of [cleanType] at a character that starts neither U+0130
    nor U+212A. *)
Lemma cleanType_step c rest :
  String.prefix dottedCapitalI (String c rest) = false ->
  String.prefix kelvinSign (String c rest) = false ->
  cleanType (String c rest) =
  if isLowerAlnum (lowerChar c) then String (lowerChar c) (cleanType rest)
  else cleanType rest.
Proof.
  intros Hi Hk. cbn [cleanType].
  destruct rest as [|c2 rest2]; [reflexivity|].
  destruct (Nat.eqb_spec (nat_of_ascii c) 196) as [E1|N1].
  - apply (f_equal ascii_of_nat) in E1. rewrite ascii_nat_embedding in E1. subst c.
    destruct (Nat.eqb_spec (nat_of_ascii c2) 176) as [E2|N2].
    + apply (f_equal ascii_of_nat) in E2. rewrite ascii_nat_embedding in E2. subst c2.
      destruct rest2; discriminate Hi.
    + cbn [andb]. destruct rest2 as [|c3 rest3]; reflexivity.
  - cbn [andb]. destruct rest2 as [|c3 rest3]; [reflexivity|].
    destruct (Nat.eqb_spec (nat_of_ascii c) 226) as [E1|N1']; [|reflexivity].
    apply (f_equal ascii_of_nat) in E1. rewrite ascii_nat_embedding in E1. subst c.
    destruct (Nat.eqb_spec (nat_of_ascii c2) 132) as [E2|N2]; [|reflexivity].
    apply (f_equal ascii_of_nat) in E2. rewrite ascii_nat_embedding in E2. subst c2.
    destruct (Nat.eqb_spec (nat_of_ascii c3) 170) as [E3|N3]; [|reflexivity].
    apply (f_equal ascii_of_nat) in E3. rewrite ascii_nat_embedding in E3. subst c3.
    destruct rest3; discriminate Hk.
Qed.

Lemma prefix_head a pat c rest :
  a <> c -> String.prefix (String a pat) (String c rest) = false.
Proof. intros N. cbn. now destruct (ascii_dec a c). Qed.

(** A 7-bit character starts neither of the two. *)
Lemma cleanType_ascii c rest :
  (nat_of_ascii c < 128)%nat ->
  cleanType (String c rest) =
  if isLowerAlnum (lowerChar c) then String (lowerChar c) (cleanType rest)
  else cleanType rest.
Proof.
  intros H. apply cleanType_step; apply prefix_head; intros <-;
    vm_compute in H; lia.
Qed.

Lemma isLowerAlnum_ascii c :
  isLowerAlnum c = true -> (nat_of_ascii c < 128)%nat /\ lowerChar c = c.
Proof.
  destruct c as [[] [] [] [] [] [] [] []]; vm_compute; intros H;
    try discriminate H; split; (lia || reflexivity).
Qed.

Lemma cleanType_alnum_upto n :
  forall s, (String.length s <= n)%nat ->
    Forall (fun c => isLowerAlnum c = true) (list_ascii_of_string (cleanType s)).
Proof.
  induction n as [|n IH]; intros [|c rest] Hl; cbn [String.length] in Hl;
    try lia; try constructor.
  assert (Hplain : Forall (fun c => isLowerAlnum c = true)
            (list_ascii_of_string
               (if isLowerAlnum (lowerChar c)
                then String (lowerChar c) (cleanType rest) else cleanType rest))).
  { destruct (isLowerAlnum (lowerChar c)) eqn:E.
    - constructor; [exact E | apply IH; lia].
    - apply IH; lia. }
  cbn [cleanType].
  destruct rest as [|c2 [|c3 rest3]]; try exact Hplain.
  - destruct (_ && _); [|exact Hplain].
    constructor; [reflexivity | constructor].
  - cbn [String.length] in Hl.
    destruct (_ && _).
    + constructor; [reflexivity | apply IH; cbn [String.length]; lia].
    + destruct (_ && _); [|exact Hplain].
      constructor; [reflexivity | apply IH; lia].
Qed.

Lemma cleanType_alnum s :
  Forall (fun c => isLowerAlnum c = true) (list_ascii_of_string (cleanType s)).
Proof. now apply (cleanType_alnum_upto (String.length s)). Qed.

(** A string of [a-z0-9] is left as it is. *)
Lemma cleanType_fixed s :
  Forall (fun c => isLowerAlnum c = true) (list_ascii_of_string s) ->
  cleanType s = s.
Proof.
  induction s as [|c s IH]; [reflexivity|].
  cbn [list_ascii_of_string]. intros H. inversion H as [|? ? Hc Hs]; subst.
  destruct (isLowerAlnum_ascii c Hc) as [Hlt Hlow].
  rewrite (cleanType_ascii c s Hlt), Hlow, Hc, (IH Hs). reflexivity.
Qed.

Lemma cleanType_idempotent s : cleanType (cleanType s) = cleanType s.
Proof. apply cleanType_fixed, cleanType_alnum. Qed.

(** On a 7-bit string [cleanType] keeps the letters and digits. *)
Lemma cleanType_7bit s :
  Forall (fun c => (nat_of_ascii c < 128)%nat) (list_ascii_of_string s) ->
  cleanType s = lowerAlnums s.
Proof.
  unfold lowerAlnums.
  induction s as [|c s IH]; [reflexivity|].
  cbn [list_ascii_of_string map filter]. intros H.
  inversion H as [|? ? Hc Hs]; subst.
  rewrite (cleanType_ascii c s Hc), (IH Hs).
  destruct (isLowerAlnum (lowerChar c)); reflexivity.
Qed.

(** Without a letter or digit of ASCII, U+0130 and U+212A nothing is
    kept. *)
Lemma cleanType_empty s :
  Forall (fun c => isLowerAlnum (lowerChar c) = false) (list_ascii_of_string s) ->
  occurs dottedCapitalI s = false ->
  occurs kelvinSign s = false ->
  cleanType s = EmptyString.
Proof.
  induction s as [|c s IH]; [reflexivity|].
  cbn [list_ascii_of_string occurs]. intros H Hi Hk.
  inversion H as [|? ? Hc Hs]; subst.
  apply orb_false_iff in Hi, Hk. destruct Hi as [Hi Hi'], Hk as [Hk Hk'].
  rewrite (cleanType_step c s Hi Hk), Hc. now apply IH.
Qed.

Lemma cleanType_dottedCapitalI s :
  cleanType (dottedCapitalI ++ s) = String "i" (cleanType s).
Proof. reflexivity. Qed.

Lemma cleanType_kelvinSign s :
  cleanType (kelvinSign ++ s) = String "k" (cleanType s).
Proof. reflexivity. Qed.

(** Property X8. A collection name is the prefix, an underscore and a
    type made of [a-z0-9] only, which cleaning again leaves as it is; a
    missing or empty modem type gives [unknown]. Of a 7-bit modem type
    that is not empty the type is the letters and digits, lower-cased,
    in order. A modem type that is not empty and has no letter or digit
    of ASCII, no U+0130 and no U+212A gives an empty type: the name is
    the bare prefix and underscore. U+212A gives [k] and U+0130 gives
    [i], as [toLowerCase] turns them into these letters. *)
Theorem collection_name_charset (prefix : string) (modemType : option string) :
  (exists type,
    getCollectionName prefix modemType = (prefix ++ "_" ++ type)%string /\
    Forall (fun c => isLowerAlnum c = true) (list_ascii_of_string type) /\
    cleanType type = type /\
    (modemType = None \/ modemType = Some ""%string -> type = "unknown"%string) /\
    getCollectionName prefix (Some type) =
      (if String.eqb type "" then prefix ++ "_unknown" else prefix ++ "_" ++ type)%string) /\
  (forall s, modemType = Some s -> s <> ""%string ->
     Forall (fun c => (nat_of_ascii c < 128)%nat) (list_ascii_of_string s) ->
     getCollectionName prefix modemType = (prefix ++ "_" ++ lowerAlnums s)%string) /\
  (forall s, modemType = Some s -> s <> ""%string ->
     Forall (fun c => isLowerAlnum (lowerChar c) = false) (list_ascii_of_string s) ->
     occurs dottedCapitalI s = false ->
     occurs kelvinSign s = false ->
     getCollectionName prefix modemType = (prefix ++ "_")%string) /\
  (forall s, modemType = Some (kelvinSign ++ s)%string ->
     getCollectionName prefix modemType = (prefix ++ "_k" ++ cleanType s)%string) /\
  (forall s, modemType = Some (dottedCapitalI ++ s)%string ->
     getCollectionName prefix modemType = (prefix ++ "_i" ++ cleanType s)%string).
Proof.
  split; [|repeat split].
  - unfold getCollectionName.
    eexists. split; [reflexivity|].
    split; [apply cleanType_alnum|]. split; [apply cleanType_idempotent|].
    split.
    + intros [->| ->]; reflexivity.
    + destruct (String.eqb (cleanType _) ""); [reflexivity|].
      now rewrite cleanType_idempotent.
  - intros s -> Hne H7. unfold getCollectionName.
    destruct (String.eqb_spec s ""); [contradiction|].
    now rewrite cleanType_7bit.
  - intros s -> Hne Hno Hi Hk. unfold getCollectionName.
    destruct (String.eqb_spec s ""); [contradiction|].
    now rewrite cleanType_empty.
  - intros s ->. reflexivity.
  - intros s ->. reflexivity.
Qed.

(** The modem type [FMC-003] names [records_fmc003]; a dash alone names
    [records_]; the Kelvin sign alone names [records_k]. *)
Lemma collection_name_samples :
  getCollectionName "records" (Some "FMC-003"%string) = "records_fmc003"%string /\
  getCollectionName "records" (Some "-"%string) = "records_"%string /\
  getCollectionName "records" (Some kelvinSign) = "records_k"%string.
Proof. repeat split. Qed.

Lemma lookupZ_In {A} k (tbl : list (Z * A)) v :
  Codec8.lookupZ k tbl = Some v -> In (k, v) tbl.
Proof.
  induction tbl as [|[k' v'] tbl IH]; cbn; [discriminate|].
  destruct (Z.eqb_spec k k') as [->|N].
  - intros H. inversion H. now left.
  - intros H. right. now apply IH.
Qed.

Lemma fieldMap_ok : forallb fieldOk fieldMap = true.
Proof. vm_compute. reflexivity. Qed.

(** Property X9. Two IO ids never share a field name, and no IO id maps to a field
    that [buildRecordDoc] sets itself other than [vin]: an IO element
    cannot overwrite the document's [imei], [timestamp] or another
    element's field. *)
Theorem field_names_distinct (id1 id2 : Z) (f : string) :
  ioIdToFieldName id1 = Some f ->
  ioIdToFieldName id2 = Some f ->
  id1 = id2 /\ ~ In f baseFields.
Proof.
  unfold ioIdToFieldName. intros H1 H2.
  apply lookupZ_In in H1. apply lookupZ_In in H2.
  pose proof fieldMap_ok as Hok. rewrite forallb_forall in Hok.
  specialize (Hok _ H1). unfold fieldOk in Hok.
  apply andb_true_iff in Hok. destruct Hok as [Hb Hd]. cbn [fst snd] in *.
  split.
  - rewrite forallb_forall in Hd. specialize (Hd _ H2). cbn [fst snd] in Hd.
    rewrite String.eqb_refl in Hd. cbn in Hd. now apply Z.eqb_eq.
  - intros Hin. apply negb_true_iff in Hb.
    assert (existsb (String.eqb f) baseFields = true); [|congruence].
    apply existsb_exists. exists f. split; [assumption | apply String.eqb_refl].
Qed.

Lemma find_append {A} (p : A -> bool) l1 l2 :
  find p (l1 ++ l2) =
  match find p l1 with
  | Some x => Some x
  | None => find p l2
  end.
Proof.
  induction l1 as [|x l1 IH]; cbn; [reflexivity|].
  destruct (p x); [reflexivity | exact IH].
Qed.

Lemma updateFirst_find_same (p : Device -> bool) f l l' :
  (forall d, p d = true -> p (f d) = true) ->
  updateFirst p f l = Some l' ->
  exists old, find p l = Some old /\ find p l' = Some (f old).
Proof.
  intros Hp. revert l'. induction l as [|d l IH]; intros l'; cbn; [discriminate|].
  destruct (p d) eqn:E.
  - intros H. inversion H; subst. exists d. cbn. rewrite (Hp d E). auto.
  - destruct (updateFirst p f l) as [r|] eqn:U; [|discriminate].
    intros H. inversion H; subst. cbn. rewrite E. now apply IH.
Qed.

Lemma updateFirst_none (p : Device -> bool) f l :
  updateFirst p f l = None -> find p l = None.
Proof.
  induction l as [|d l IH]; cbn; [reflexivity|].
  destruct (p d); [discriminate|].
  destruct (updateFirst p f l); [discriminate|]. auto.
Qed.

Lemma updateFirst_find_other (p q : Device -> bool) f l l' :
  (forall d, p d = true -> q d = false /\ q (f d) = false) ->
  updateFirst p f l = Some l' ->
  find q l' = find q l.
Proof.
  intros Hpq. revert l'. induction l as [|d l IH]; intros l'; cbn; [discriminate|].
  destruct (p d) eqn:E.
  - intros H. inversion H; subst. cbn.
    destruct (Hpq d E) as [-> ->]. reflexivity.
  - destruct (updateFirst p f l) as [r|] eqn:U; [|discriminate].
    intros H. inversion H; subst. cbn. destruct (q d); [reflexivity|]. now apply IH.
Qed.

Lemma updateFirst_imeis (p : Device -> bool) f l l' :
  (forall d, imei (f d) = imei d) ->
  updateFirst p f l = Some l' ->
  map imei l' = map imei l.
Proof.
  intros Hf. revert l'. induction l as [|d l IH]; intros l'; cbn; [discriminate|].
  destruct (p d).
  - intros H. inversion H; subst. cbn. now rewrite Hf.
  - destruct (updateFirst p f l) as [r|] eqn:U; [|discriminate].
    intros H. inversion H; subst. cbn. f_equal. now apply IH.
Qed.

Lemma find_none_not_in i l :
  find (fun dev => optStringEqb (imei dev) i) l = None -> ~ In i (map imei l).
Proof.
  induction l as [|d l IH]; cbn; [tauto|].
  destruct (optStringEqb (imei d) i) eqn:E; [discriminate|].
  intros H [Hin|Hin].
  - rewrite Hin, optStringEqb_refl in E. discriminate.
  - now apply IH.
Qed.

Lemma upsert_get_other now d i vin type j :
  Some j <> i ->
  getDevice (upsertDevice now (Some d) i vin type) j = getDevice (Some d) j.
Proof.
  intros Hj. unfold upsertDevice, getDevice.
  destruct (updateFirst _ _ (devices d)) as [l'|] eqn:U; cbn [devices].
  - eapply updateFirst_find_other; [|exact U].
    intros dev Hdev. apply optStringEqb_eq in Hdev.
    cbn [touchDevice imei]. rewrite Hdev.
    split; apply optStringEqb_neq; congruence.
  - rewrite find_append. cbn [find imei].
    rewrite (optStringEqb_neq i (Some j)) by congruence.
    destruct (find _ (devices d)); reflexivity.
Qed.

Lemma upsert_get_same now d i vin type :
  exists dev,
    getDevice (upsertDevice now (Some d) (Some i) vin type) i = Some dev /\
    approved dev =
      match getDevice (Some d) i with
      | Some old => approved old
      | None => None
      end.
Proof.
  unfold upsertDevice, getDevice.
  destruct (updateFirst _ _ (devices d)) as [l'|] eqn:U; cbn [devices].
  - assert (Hp : forall dev, optStringEqb (imei dev) (Some i) = true ->
               optStringEqb (imei (touchDevice now vin type dev)) (Some i) = true)
      by (intros dev H; exact H).
    destruct (updateFirst_find_same _ _ _ _ Hp U) as (old & Ho & Hn).
    rewrite Ho, Hn. eexists. split; reflexivity.
  - rewrite find_append. rewrite (updateFirst_none _ _ _ U). cbn [find imei].
    rewrite optStringEqb_refl. eexists. split; reflexivity.
Qed.

(** Property X10. After [upsertDevice(imei, ...)] the store answers [getDevice(imei)]
    with a document of that IMEI, the given modem type and [lastSeen]
    now; its [approved] and [createdAt] are those of the document that
    was there, and on a fresh document [approved] is absent. *)
Theorem upsertDevice_getDevice (now : Z) (d : Db) (i : string)
    (vin : option JsValue) (type : string) :
  exists dev,
    getDevice (upsertDevice now (Some d) (Some i) vin type) i = Some dev /\
    imei dev = Some i /\
    modemType dev = Some type /\
    lastSeen dev = Some now /\
    approved dev =
      match getDevice (Some d) i with
      | Some old => approved old
      | None => None
      end /\
    createdAt dev =
      match getDevice (Some d) i with
      | Some old => createdAt old
      | None => Some now
      end.
Proof.
  unfold upsertDevice, getDevice.
  destruct (updateFirst _ _ (devices d)) as [l'|] eqn:U; cbn [devices].
  - assert (Hp : forall dev, optStringEqb (imei dev) (Some i) = true ->
               optStringEqb (imei (touchDevice now vin type dev)) (Some i) = true)
      by (intros dev H; exact H).
    destruct (updateFirst_find_same _ _ _ _ Hp U) as (old & Ho & Hn).
    rewrite Ho, Hn. eexists. split; [reflexivity|].
    cbn [touchDevice imei modemType lastSeen approved createdAt].
    apply find_some in Ho. destruct Ho as [_ Ho]. apply optStringEqb_eq in Ho.
    repeat split; auto.
  - rewrite (updateFirst_none _ _ _ U).
    rewrite find_append. rewrite (updateFirst_none _ _ _ U). cbn [find imei].
    rewrite optStringEqb_refl. eexists. split; [reflexivity|].
    cbn. repeat split.
Qed.

(** Property X11. [upsertDevice] leaves every other device's document as it is, keeps
    the two other collections, adds at most one document, and keeps the
    IMEIs of the collection pairwise distinct if they were. *)
Theorem upsertDevice_frame (now : Z) (d : Db) (i : option string)
    (vin : option JsValue) (type : string) :
  NoDup (map imei (devices d)) ->
  exists d',
    upsertDevice now (Some d) i vin type = Some d' /\
    rawDocs d' = rawDocs d /\
    recordDocs d' = recordDocs d /\
    NoDup (map imei (devices d')) /\
    (List.length (devices d') <= S (List.length (devices d)))%nat /\
    forall j, Some j <> i -> getDevice (Some d') j = getDevice (Some d) j.
Proof.
  intros Hnd. unfold upsertDevice, getDevice.
  destruct (updateFirst _ _ (devices d)) as [l'|] eqn:U.
  - assert (M : map imei l' = map imei (devices d)).
    { eapply updateFirst_imeis; [|exact U]. intros dev. reflexivity. }
    eexists. split; [reflexivity|]. cbn [devices rawDocs recordDocs].
    split; [reflexivity|]. split; [reflexivity|].
    split; [now rewrite M|].
    split.
    + apply (f_equal (@List.length _)) in M. rewrite !length_map in M. lia.
    + intros j Hj.
      eapply updateFirst_find_other; [|exact U].
      intros dev Hdev. apply optStringEqb_eq in Hdev.
      cbn [touchDevice imei]. rewrite Hdev.
      split; apply optStringEqb_neq; congruence.
  - eexists. split; [reflexivity|]. cbn [devices rawDocs recordDocs].
    split; [reflexivity|]. split; [reflexivity|].
    split.
    + rewrite map_app. cbn [map imei].
      apply NoDup_app; [assumption | repeat constructor; cbn; tauto |].
      intros x Hx [<-|[]]. revert Hx. apply find_none_not_in.
      now apply updateFirst_none in U.
    + split; [rewrite length_app; cbn; lia|].
      intros j Hj. rewrite find_append. cbn [find imei].
      rewrite (optStringEqb_neq i (Some j)) by congruence.
      destruct (find _ (devices d)); reflexivity.
Qed.

End ModelsFacts.

(* ===================================================================== *)
(** * The session handler: acknowledgements and admission                 *)
(* ===================================================================== *)

Section AckFacts.
Import Server.

Lemma byteZ_byteOfZ z : byteZ (byteOfZ z) = z mod 256.
Proof.
  unfold byteZ, byteOfZ.
  assert (Hm : 0 <= z mod 256 < 256) by (apply Z.mod_pos_bound; lia).
  destruct (Byte.of_N _) as [b|] eqn:E.
  - apply Byte.to_of_N in E. rewrite E. lia.
  - apply Byte.of_N_None_iff in E. lia.
Qed.

(** [writeUInt32BE] then a big-endian read gives the number back. *)
Lemma uintBE_uint32BE n :
  0 <= n < 4294967296 -> uintBE (uint32BE n) = n.
Proof.
  intros Hn. unfold uint32BE, uintBE. cbn [fold_left].
  rewrite !byteZ_byteOfZ.
  pose proof (Z.div_mod n 16777216 ltac:(lia)).
  pose proof (Z.mod_pos_bound n 16777216 ltac:(lia)).
  assert (E1 : n / 16777216 mod 256 = n / 16777216).
  { apply Z.mod_small. split; [apply Z.div_pos; lia|].
    apply Z.div_lt_upper_bound; lia. }
  assert (E2 : n / 65536 mod 256 = n / 65536 - 256 * (n / 16777216)).
  { replace 16777216 with (65536 * 256) by lia.
    rewrite <- Z.div_div by lia. rewrite Z.mod_eq by lia. lia. }
  assert (E3 : n / 256 mod 256 = n / 256 - 256 * (n / 65536)).
  { replace 65536 with (256 * 256) by lia.
    rewrite <- Z.div_div by lia. rewrite Z.mod_eq by lia. lia. }
  assert (E4 : n mod 256 = n - 256 * (n / 256)) by (rewrite Z.mod_eq by lia; lia).
  rewrite E1, E2, E3, E4. lia.
Qed.

Lemma firstn_In {A} (x : A) n l : In x (firstn n l) -> In x l.
Proof.
  intros H. rewrite <- (firstn_skipn n l). apply in_or_app. now left.
Qed.

(** Property X12. The AVL branch with a store: the reply is four bytes
    whose big-endian value is the number of records decoded, whatever
    becomes of them in the store. The documents appended are those of
    the first [k] records, in order, all to [records_fmc003] and all
    under the session's [deviceIMEI]. Without the unique index on
    [(timestamp, imei)] these are all the records; with it, [k] is the
    position of the first record whose key is taken by then, so that a
    frame sent again is acknowledged in full and appends nothing. *)
Theorem avl_ack_counts_inserted (now : Z) (d : Models.Db) (s : Session)
    (buffer : Buffer) (pkt : Codec8.DecodedPacket) :
  loginIMEI buffer = None ->
  Codec8.decodeCodec8 buffer = Codec8.Ok pkt ->
  exists d' ack new k,
    fst (onData now (Some d) s buffer) = Some d' /\
    written (snd (onData now (Some d) s buffer)) = written s ++ [ack] /\
    List.length ack = 4%nat /\
    uintBE ack = Z.of_nat (List.length (Codec8.avlRecords pkt)) /\
    Models.recordDocs d' = Models.recordDocs d ++ new /\
    Models.uniqueRecords d' = Models.uniqueRecords d /\
    (k <= List.length (Codec8.avlRecords pkt))%nat /\
    map (fun cd => Models.rec_timestamp (snd cd)) new =
      map Codec8.timestamp (firstn k (Codec8.avlRecords pkt)) /\
    Forall (fun cd => fst cd = "records_fmc003"%string /\
                      Models.rec_imei (snd cd) = deviceIMEI s) new /\
    (Models.uniqueRecords d = false -> k = List.length (Codec8.avlRecords pkt)) /\
    (forall j r, (j < k)%nat -> nth_error (Codec8.avlRecords pkt) j = Some r ->
       Models.uniqueRecords d = true ->
       Models.keyTaken (Models.recordDocs d ++ firstn j new)
         "records_fmc003" (Codec8.timestamp r) (deviceIMEI s) = false) /\
    ((k < List.length (Codec8.avlRecords pkt))%nat ->
     Models.uniqueRecords d = true /\
     exists r, nth_error (Codec8.avlRecords pkt) k = Some r /\
       Models.keyTaken (Models.recordDocs d') "records_fmc003"
         (Codec8.timestamp r) (deviceIMEI s) = true) /\
    (forall r rest, Codec8.avlRecords pkt = r :: rest ->
       Models.uniqueRecords d = true ->
       Models.keyTaken (Models.recordDocs d) "records_fmc003"
         (Codec8.timestamp r) (deviceIMEI s) = true ->
       new = []).
Proof.
  intros Hl Hd.
  assert (Hpkt : (Codec8.codecId pkt = 8 \/ Codec8.codecId pkt = 142) /\
                 0 <= Codec8.numberOfData1 pkt < 256 /\
                 Z.of_nat (List.length (Codec8.avlRecords pkt)) = Codec8.numberOfData1 pkt).
  { unfold Codec8.decodeCodec8 in Hd.
    destruct (Codec8.decode buffer Codec8.newDecoder) as [r st] eqn:E.
    cbn in Hd. subst r.
    destruct (decode_ok_inv _ _ _ E) as (sh & Hh & _).
    pose proof (decodeHead_count _ _ _ _ _ _ _ _ Hh) as Hc.
    destruct (decodeHead_post _ _ _ _ _ _ _ Hh) as (Hcid & _ & _ & Hn & _).
    auto. }
  destruct Hpkt as (Hcid & Hn & Hcount).
  assert (Htype : getDeviceType (Codec8.codecId pkt) = "FMC003"%string).
  { unfold getDeviceType. destruct Hcid as [-> | ->]; reflexivity. }
  unfold onData. rewrite Hl, Hd, Htype.
  destruct (Codec8.avlRecords pkt) as [|first rest] eqn:Erecs.
  - eexists. exists (uint32BE (Codec8.numberOfData1 pkt)), [], 0%nat.
    cbn [fst snd written]. unfold Models.upsertDevice, Models.saveRawData.
    cbn [Models.recordDocs Models.uniqueRecords].
    split; [reflexivity|]. split; [reflexivity|].
    split; [reflexivity|]. split; [rewrite uintBE_uint32BE; lia|].
    split; [now rewrite app_nil_r|]. split; [reflexivity|].
    split; [reflexivity|]. split; [reflexivity|]. split; [constructor|].
    split; [reflexivity|]. split; [intros; lia|].
    split; [cbn [List.length]; lia|]. discriminate.
  - rewrite <- Erecs in *. clear Erecs.
    set (vin := if Models.vinIsSet (deviceVIN s) then deviceVIN s
                else extractVIN (Codec8.io first)).
    set (build := Models.buildRecordDoc now (deviceIMEI s) vin "FMC003").
    set (u := Models.uniqueRecords d).
    destruct (insertMany_prefix u "records_fmc003"
                (map build (Codec8.avlRecords pkt)) (Models.recordDocs d))
      as (k & Hk & Heq & Hbefore & Hat).
    rewrite length_map in Hk, Hat.
    assert (Hfirstn : forall j, (j <= k)%nat ->
              firstn j (map (fun doc => ("records_fmc003"%string, doc))
                          (firstn k (map build (Codec8.avlRecords pkt))))
              = map (fun doc => ("records_fmc003"%string, doc))
                  (firstn j (map build (Codec8.avlRecords pkt)))).
    { intros j Hj. rewrite <- !firstn_map, firstn_firstn.
      now replace (Nat.min j k) with j by lia. }
    eexists. exists (uint32BE (Codec8.numberOfData1 pkt)).
    exists (map (fun doc => ("records_fmc003"%string, doc))
              (firstn k (map build (Codec8.avlRecords pkt)))), k.
    cbn [fst snd written].
    unfold Models.upsertDevice, Models.saveRawData, Models.saveRecords.
    cbn [Models.recordDocs Models.devices Models.rawDocs Models.uniqueRecords].
    change (Models.getCollectionName "records" (Some "FMC003"%string))
      with "records_fmc003"%string.
    change (String.eqb "records_fmc003" "records_fmc003") with true.
    rewrite andb_true_r. fold u. fold vin. fold build.
    split; [reflexivity|]. split; [reflexivity|].
    split; [reflexivity|]. split; [rewrite uintBE_uint32BE; lia|].
    split; [exact Heq|]. split; [reflexivity|]. split; [exact Hk|].
    split; [rewrite <- !firstn_map, !map_map; reflexivity|].
    split.
    { apply Forall_forall. intros cd Hin.
      apply in_map_iff in Hin. destruct Hin as (doc & <- & Hin).
      apply firstn_In, in_map_iff in Hin. destruct Hin as (r & <- & _).
      split; reflexivity. }
    split.
    { intros Hu. destruct (Nat.eq_dec k (List.length (Codec8.avlRecords pkt)))
        as [E|E]; [exact E|].
      destruct (Hat ltac:(lia)) as (_ & _ & Hu' & _). congruence. }
    split.
    { intros j r Hj Hn' Hu. rewrite (Hfirstn j) by lia.
      specialize (Hbefore j (build r) Hj).
      rewrite nth_error_map, Hn' in Hbefore. specialize (Hbefore eq_refl).
      rewrite Hu in Hbefore. exact Hbefore. }
    split.
    { intros Hlt. destruct (Hat Hlt) as (doc & Hn' & Hu & Ht).
      split; [exact Hu|].
      rewrite nth_error_map in Hn'.
      destruct (nth_error (Codec8.avlRecords pkt) k) as [r|]; [|discriminate].
      cbn in Hn'. injection Hn' as <-. exists r. split; [reflexivity|].
      rewrite Heq. exact Ht. }
    intros r rest' Erecs Hu Ht.
    destruct k as [|k]; [reflexivity|]. exfalso.
    specialize (Hbefore 0%nat (build r) ltac:(lia)).
    rewrite Erecs in Hbefore. specialize (Hbefore eq_refl).
    cbn [firstn map] in Hbefore. rewrite app_nil_r, Hu in Hbefore.
    cbn [andb] in Hbefore. change (Models.rec_timestamp (build r))
      with (Codec8.timestamp r) in Hbefore.
    change (Models.rec_imei (build r)) with (deviceIMEI s) in Hbefore.
    congruence.
Qed.

End AckFacts.

Section AdmissionFacts.
Import Server.

Lemma uintBE_app l1 l2 :
  uintBE (l1 ++ l2) = uintBE l1 * 256 ^ Z.of_nat (List.length l2) + uintBE l2.
Proof.
  unfold uintBE. revert l1. induction l2 as [|b l2 IH] using rev_ind; intros l1.
  - rewrite app_nil_r. cbn. lia.
  - rewrite app_assoc. rewrite (fold_left_app _ (l1 ++ l2) [b]), IH.
    rewrite (fold_left_app _ l2 [b]). cbn [fold_left].
    rewrite length_app, Nat2Z.inj_add. cbn [List.length].
    rewrite Z.pow_add_r by lia. change (256 ^ Z.of_nat 1) with 256. lia.
Qed.

Lemma slice_split (b : Buffer) (i j k : Z) :
  0 <= i <= j -> j <= k ->
  slice b i k = slice b i j ++ slice b j k.
Proof.
  intros Hij Hjk. unfold slice.
  replace (Z.to_nat (k - i)) with (Z.to_nat (j - i) + Z.to_nat (k - j))%nat by lia.
  rewrite <- (firstn_skipn (Z.to_nat (j - i)) (skipn (Z.to_nat i) b)) at 1.
  rewrite firstn_app.
  assert (Hl : (List.length (firstn (Z.to_nat (j - i)) (skipn (Z.to_nat i) b))
                <= Z.to_nat (j - i))%nat) by apply firstn_le_length.
  rewrite firstn_firstn.
  replace (Init.Nat.min (Z.to_nat (j - i) + Z.to_nat (k - j)) (Z.to_nat (j - i)))
    with (Z.to_nat (j - i)) by lia.
  f_equal.
  rewrite skipn_skipn.
  replace (Z.to_nat (j - i) + Z.to_nat i)%nat with (Z.to_nat j) by lia.
  destruct (Nat.le_gt_cases (Z.to_nat (j - i))
              (List.length (skipn (Z.to_nat i) b))) as [Hle|Hgt].
  - rewrite firstn_length_le by exact Hle.
    replace (Z.to_nat (j - i) + Z.to_nat (k - j) - Z.to_nat (j - i))%nat
      with (Z.to_nat (k - j)) by lia.
    reflexivity.
  - rewrite length_skipn in Hgt.
    rewrite (skipn_all2 (n := Z.to_nat j)) by lia.
    now rewrite !firstn_nil.
Qed.

(** The header fields of a decoded frame are the bytes at fixed places. *)
Lemma decoded_header d pkt :
  Codec8.decodeCodec8 d = Codec8.Ok pkt ->
  10 <= Z.of_nat (List.length d) /\
  Codec8.preamble pkt = uintBE (slice d 0 4) /\
  Codec8.dataFieldLength pkt = uintBE (slice d 4 8) /\
  Codec8.codecId pkt = uintBE (slice d 8 9) /\
  Codec8.numberOfData1 pkt = uintBE (slice d 9 10).
Proof.
  unfold Codec8.decodeCodec8. intros Hd.
  destruct (Codec8.decode d Codec8.newDecoder) as [r st] eqn:E.
  cbn in Hd. subst r.
  destruct (decode_ok_inv _ _ _ E) as (sh & Hh & _).
  revert Hh. unfold decodeHead, Codec8.bind.
  rewrite readUInt32_eq. cbn [Codec8.offset Codec8.newDecoder].
  destruct (Z.gtb_spec (0 + 4) (Codec8.dataLength d)); [discriminate|].
  rewrite readUInt32_eq. cbn [Codec8.offset Codec8.isExtended Codec8.touched].
  destruct (Z.gtb_spec (0 + 4 + 4) (Codec8.dataLength d)); [discriminate|].
  rewrite readUInt8_eq. cbn [Codec8.offset Codec8.isExtended Codec8.touched].
  destruct (Z.gtb_spec (0 + 4 + 4 + 1) (Codec8.dataLength d)); [discriminate|].
  rewrite readUInt8_eq. cbn [Codec8.offset Codec8.isExtended Codec8.touched].
  destruct (Z.gtb_spec (0 + 4 + 4 + 1 + 1) (Codec8.dataLength d)) as [|Hlen]; [discriminate|].
  match goal with
  | |- context [ (if ?c then ?x else ?y) ?s ] => destruct ((if c then x else y) s) as [[u|e] s5]
  end; [|discriminate].
  match goal with
  | |- context [ Codec8.repeatM ?n ?m ?s ] => destruct (Codec8.repeatM n m s) as [[rs|e] s6]
  end; [|discriminate].
  unfold Codec8.ret. intros [= <- <- <- <- _ _].
  unfold Codec8.dataLength in Hlen. repeat split; try reflexivity. lia.
Qed.

(** Property X13. A frame that decodes and whose first two bytes are not 0x000F is
    never taken for a login: the listener goes on to the AVL branch. *)
Theorem decodable_frame_is_not_login (buffer : Buffer) (pkt : Codec8.DecodedPacket) :
  Codec8.decodeCodec8 buffer = Codec8.Ok pkt ->
  Codec8.preamble pkt / 65536 <> 15 ->
  Codec8.parseIMEI buffer = None /\ loginIMEI buffer = None.
Proof.
  intros Hd Hp.
  destruct (decoded_header _ _ Hd) as (Hlen & Hpre & _).
  assert (Hn : Codec8.parseIMEI buffer = None).
  { rewrite parseIMEI_eq.
    destruct (Z.eqb_spec (uintBE (slice buffer 0 2)) 15) as [E|E];
      [|now rewrite andb_false_r].
    exfalso. apply Hp. rewrite Hpre.
    rewrite (slice_split buffer 0 2 4) by lia.
    rewrite uintBE_app.
    assert (Hl : List.length (slice buffer 2 4) = 2%nat).
    { pose proof (slice_length buffer 2 2 ltac:(lia) ltac:(lia)) as Hs.
      unfold Codec8.dataLength in Hs. change (2 + 2) with 4 in Hs. lia. }
    rewrite Hl, E. change (256 ^ Z.of_nat 2) with 65536.
    pose proof (uintBE_range (slice buffer 2 4)) as Hr. rewrite Hl in Hr.
    change (256 ^ Z.of_nat 2) with 65536 in Hr.
    symmetry. apply Z.div_unique with (r := uintBE (slice buffer 2 4)); lia. }
  split; [exact Hn|]. unfold loginIMEI. now rewrite Hn.
Qed.

(** Property X14. Without a store every login is refused with a single 0x00 byte and
    the socket destroyed, and no chunk brings a store into being. *)
Theorem no_store_rejects_login (now : Z) (s : Session) (buffer : Buffer) :
  fst (onData now None s buffer) = None /\
  (loginIMEI buffer <> None ->
   snd (onData now None s buffer) =
     mkSession (deviceIMEI s) (deviceVIN s) (deviceType s)
       (written s ++ [[x00]]) true).
Proof.
  unfold onData.
  destruct (loginIMEI buffer) as [i|] eqn:L.
  - cbn. split; [reflexivity|]. intros _. reflexivity.
  - split; [|congruence].
    destruct (Codec8.decodeCodec8 buffer) as [pkt|e]; [|reflexivity].
    cbn [fst Models.upsertDevice Models.saveRawData Models.saveRecords].
    destruct (Codec8.avlRecords pkt); reflexivity.
Qed.

Lemma upsert_keeps_admitted now d i vin type j :
  rejected (Models.getDevice (Some d) j) = false ->
  rejected (Models.getDevice (Models.upsertDevice now (Some d) i vin type) j) = false.
Proof.
  intros Hr.
  assert (Hdec : Some j = i \/ Some j <> i).
  { destruct i as [k|]; [|right; discriminate].
    destruct (string_dec j k) as [->|Hne]; [left; reflexivity | right; congruence]. }
  destruct Hdec as [<-|Hne].
  - destruct (upsert_get_same now d j vin type) as (dev & -> & Ha).
    unfold rejected in *. rewrite Ha.
    destruct (Models.getDevice (Some d) j); [exact Hr | discriminate].
  - now rewrite upsert_get_other.
Qed.

Lemma upsert_some now d i vin type :
  exists d1,
    Models.upsertDevice now (Some d) i vin type = Some d1 /\
    Models.recordDocs d1 = Models.recordDocs d.
Proof. unfold Models.upsertDevice. eexists. split; reflexivity. Qed.

Lemma onData_step now d s buffer :
  admitted (Some d) (deviceIMEI s) ->
  exists d' new,
    fst (onData now (Some d) s buffer) = Some d' /\
    Models.recordDocs d' = Models.recordDocs d ++ new /\
    Forall (fun cd => Models.rec_imei (snd cd) = deviceIMEI s) new /\
    (forall i, rejected (Models.getDevice (Some d) i) = false ->
               rejected (Models.getDevice (Some d') i) = false) /\
    (forall i, In (Some i) (map (fun cd => Models.rec_imei (snd cd)) new) ->
               rejected (Models.getDevice (Some d) i) = false) /\
    admitted (Some d') (deviceIMEI (snd (onData now (Some d) s buffer))).
Proof.
  intros Hadm. unfold onData.
  destruct (loginIMEI buffer) as [i|] eqn:L.
  - destruct (rejected (Models.getDevice (Some d) i)) eqn:R; cbn [fst snd deviceIMEI];
      exists d, []; rewrite app_nil_r;
      (split; [reflexivity|]); (split; [reflexivity|]); (split; [constructor|]);
      (split; [auto|]); (split; [intros ? []|]); [exact Hadm | exact R].
  - destruct (Codec8.decodeCodec8 buffer) as [pkt|e].
    + cbv zeta. cbn [fst snd deviceIMEI].
      set (type := getDeviceType (Codec8.codecId pkt)).
      set (vin := match Codec8.avlRecords pkt with
                  | [] => deviceVIN s
                  | first :: _ => if Models.vinIsSet (deviceVIN s) then deviceVIN s
                                  else extractVIN (Codec8.io first)
                  end).
      pose proof (upsert_keeps_admitted now d (deviceIMEI s) vin type) as Hk.
      destruct (upsert_some now d (deviceIMEI s) vin type) as (d1 & Hu & Hrec).
      rewrite Hu in *. unfold Models.saveRawData.
      assert (Hgd : forall dd j,
                 Models.devices dd = Models.devices d1 ->
                 Models.getDevice (Some dd) j = Models.getDevice (Some d1) j).
      { intros dd j Hdd. unfold Models.getDevice. now rewrite Hdd. }
      assert (Hnew : forall docs : list (string * Models.RecordDoc),
                 Forall (fun cd => Models.rec_imei (snd cd) = deviceIMEI s) docs ->
                 forall i, In (Some i) (map (fun cd => Models.rec_imei (snd cd)) docs) ->
                           rejected (Models.getDevice (Some d) i) = false).
      { intros docs Hf i Hin. apply in_map_iff in Hin.
        destruct Hin as (cd & Hcd & Hin).
        rewrite Forall_forall in Hf. rewrite (Hf _ Hin) in Hcd.
        unfold admitted in Hadm. rewrite Hcd in Hadm. exact Hadm. }
      destruct (Codec8.avlRecords pkt) as [|first rest] eqn:Erecs.
      * eexists. exists []. split; [reflexivity|]. cbn [Models.recordDocs].
        split; [now rewrite app_nil_r|]. split; [constructor|].
        split; [intros i Hi; rewrite Hgd by reflexivity; auto|].
        split; [intros ? []|].
        unfold admitted in *. destruct (deviceIMEI s) as [j|]; [|exact I].
        rewrite Hgd by reflexivity. auto.
      * unfold Models.saveRecords.
        cbn [Models.recordDocs Models.devices Models.rawDocs Models.uniqueRecords].
        match goal with
        | |- context [Models.insertMany ?u ?c ?docs ?st] =>
            destruct (insertMany_prefix u c docs st) as (k & _ & Heq & _)
        end.
        eexists. eexists. split; [reflexivity|]. cbn [Models.recordDocs].
        rewrite Heq, Hrec. split; [reflexivity|].
        assert (Hf : Forall (fun cd : string * Models.RecordDoc =>
                          Models.rec_imei (snd cd) = deviceIMEI s)
                  (map (fun doc => (Models.getCollectionName "records" (Some type), doc))
                     (firstn k
                        (map (Models.buildRecordDoc now (deviceIMEI s) vin type)
                           (first :: rest))))).
        { apply Forall_forall. intros cd Hin.
          apply in_map_iff in Hin. destruct Hin as (doc & <- & Hin).
          apply firstn_In, in_map_iff in Hin. destruct Hin as (r & <- & _).
          reflexivity. }
        split; [exact Hf|].
        split; [intros i Hi; rewrite Hgd by reflexivity; auto|].
        split; [exact (Hnew _ Hf)|].
        unfold admitted in *. destruct (deviceIMEI s) as [j|]; [|exact I].
        rewrite Hgd by reflexivity. auto.
    + cbn [fst snd]. exists d, []. rewrite app_nil_r.
      split; [reflexivity|]. split; [reflexivity|]. split; [constructor|].
      split; [auto|]. split; [intros ? []|]. exact Hadm.
Qed.

Lemma session_step now d s chunks :
  admitted (Some d) (deviceIMEI s) ->
  exists d' new,
    fst (session now (Some d) s chunks) = Some d' /\
    Models.recordDocs d' = Models.recordDocs d ++ new /\
    (forall i, rejected (Models.getDevice (Some d) i) = false ->
               rejected (Models.getDevice (Some d') i) = false) /\
    (forall i, In (Some i) (map (fun cd => Models.rec_imei (snd cd)) new) ->
               rejected (Models.getDevice (Some d') i) = false) /\
    admitted (Some d') (deviceIMEI (snd (session now (Some d) s chunks))).
Proof.
  revert d s. induction chunks as [|b rest IH]; intros d s Hadm.
  - exists d, []. cbn. rewrite app_nil_r. repeat split; auto. intros ? [].
  - cbn [session]. destruct (destroyed s).
    + exists d, []. cbn. rewrite app_nil_r. repeat split; auto. intros ? [].
    + destruct (onData_step now d s b Hadm) as (d1 & new1 & H1 & R1 & _ & M1 & N1 & A1).
      destruct (onData now (Some d) s b) as [db1 s1]. cbn [fst snd] in *. subst db1.
      destruct (IH d1 s1 A1) as (d2 & new2 & H2 & R2 & M2 & N2 & A2).
      exists d2, (new1 ++ new2). split; [exact H2|].
      split; [now rewrite R2, R1, app_assoc|].
      split; [auto|]. split; [|exact A2].
      intros i Hin. rewrite map_app in Hin. apply in_app_or in Hin.
      destruct Hin as [Hin|Hin]; auto.
Qed.

(** A decoded packet counts its records. *)
Lemma decoded_count buffer pkt :
  Codec8.decodeCodec8 buffer = Codec8.Ok pkt ->
  (Codec8.codecId pkt = 8 \/ Codec8.codecId pkt = 142) /\
  0 <= Codec8.numberOfData1 pkt < 256 /\
  Z.of_nat (List.length (Codec8.avlRecords pkt)) = Codec8.numberOfData1 pkt.
Proof.
  intros Hd. unfold Codec8.decodeCodec8 in Hd.
  destruct (Codec8.decode buffer Codec8.newDecoder) as [r st] eqn:E.
  cbn in Hd. subst r.
  destruct (decode_ok_inv _ _ _ E) as (sh & Hh & _).
  pose proof (decodeHead_count _ _ _ _ _ _ _ _ Hh) as Hc.
  destruct (decodeHead_post _ _ _ _ _ _ _ Hh) as (Hcid & _ & _ & Hn & _).
  auto.
Qed.

(** The AVL branch never reads the [devices] collection: it upserts the
    device, saves the frame and its records under the session's
    [deviceIMEI], and acknowledges. *)
Lemma avl_branch_shape now d s buffer pkt :
  loginIMEI buffer = None ->
  Codec8.decodeCodec8 buffer = Codec8.Ok pkt ->
  exists vin d1 d' new,
    Models.upsertDevice now (Some d) (deviceIMEI s) vin "FMC003" = Some d1 /\
    onData now (Some d) s buffer =
      (Some d',
       mkSession (deviceIMEI s) vin (Some "FMC003"%string)
         (written s ++ [uint32BE (Z.of_nat (List.length (Codec8.avlRecords pkt)))])
         (destroyed s)) /\
    Models.devices d' = Models.devices d1 /\
    Models.recordDocs d' = Models.recordDocs d ++ new /\
    Forall (fun cd => Models.rec_imei (snd cd) = deviceIMEI s) new /\
    (Models.uniqueRecords d = false ->
     List.length new = List.length (Codec8.avlRecords pkt)).
Proof.
  intros Hl Hd.
  destruct (decoded_count _ _ Hd) as (Hcid & Hn & Hcount).
  assert (Htype : getDeviceType (Codec8.codecId pkt) = "FMC003"%string).
  { unfold getDeviceType. destruct Hcid as [-> | ->]; reflexivity. }
  unfold onData. rewrite Hl, Hd, Htype, <- Hcount. cbv zeta.
  set (vin := match Codec8.avlRecords pkt with
              | [] => deviceVIN s
              | first :: _ => if Models.vinIsSet (deviceVIN s) then deviceVIN s
                              else extractVIN (Codec8.io first)
              end).
  exists vin.
  destruct (upsert_some now d (deviceIMEI s) vin "FMC003") as (d1 & Hu & Hrec).
  exists d1. rewrite Hu. unfold Models.saveRawData.
  destruct (Codec8.avlRecords pkt) as [|first rest] eqn:Erecs.
  - eexists. exists []. split; [reflexivity|]. split; [reflexivity|].
    cbn [Models.devices Models.recordDocs]. split; [reflexivity|].
    split; [now rewrite app_nil_r|]. split; [constructor | reflexivity].
  - unfold Models.saveRecords.
    cbn [Models.recordDocs Models.devices Models.rawDocs Models.uniqueRecords].
    match goal with
    | |- context [Models.insertMany ?u ?c ?docs ?st] =>
        destruct (insertMany_prefix u c docs st) as (k & Hk & Heq & _ & Hat)
    end.
    eexists. eexists. split; [reflexivity|]. split; [reflexivity|].
    cbn [Models.devices Models.recordDocs]. split; [reflexivity|].
    rewrite Heq, Hrec. split; [reflexivity|]. split.
    + apply Forall_forall. intros cd Hin.
      apply in_map_iff in Hin. destruct Hin as (doc & <- & Hin).
      apply firstn_In, in_map_iff in Hin. destruct Hin as (r & <- & _).
      reflexivity.
    + intros Hnu. rewrite length_map in Hk, Hat.
      rewrite length_map, length_firstn, length_map.
      assert (Hd1 : Models.uniqueRecords d1 = Models.uniqueRecords d).
      { unfold Models.upsertDevice in Hu. injection Hu as <-. reflexivity. }
      destruct (Nat.eq_dec k (List.length (first :: rest))) as [E|E]; [lia|].
      destruct (Hat ltac:(lia)) as (_ & _ & Hu' & _).
      rewrite Hd1, Hnu in Hu'. discriminate Hu'.
Qed.

(** [upsertDevice] leaves a refused device refused. *)
Lemma upsert_keeps_revoked now d i vin type dev :
  Models.getDevice (Some d) i = Some dev ->
  Models.approved dev = Some false ->
  rejected (Models.getDevice (Models.upsertDevice now (Some d) (Some i) vin type) i)
  = true.
Proof.
  intros Hg Ha.
  destruct (upsert_get_same now d i vin type) as (dev' & -> & Ha').
  rewrite Hg, Ha in Ha'. unfold rejected. now rewrite Ha'.
Qed.

(** [PATCH /devices/:imei/approve] with [approved: false] on a device the
    store holds. *)
Lemma patchApprove_revokes d i :
  Models.getDevice (Some d) i <> None ->
  exists dev,
    Models.getDevice (Some (snd (Registry.patchApprove d i (Some Registry.JFalse)))) i
      = Some dev /\
    Models.approved dev = Some false /\
    Models.recordDocs (snd (Registry.patchApprove d i (Some Registry.JFalse)))
      = Models.recordDocs d /\
    Models.uniqueRecords (snd (Registry.patchApprove d i (Some Registry.JFalse)))
      = Models.uniqueRecords d.
Proof.
  intros Hsome. unfold Registry.patchApprove.
  match goal with
  | |- context [Models.updateFirst ?p ?f ?l] =>
      destruct (Models.updateFirst p f l) as [devs|] eqn:U
  end.
  - assert (Hp : forall dev, optStringEqb (Models.imei dev) (Some i) = true ->
               optStringEqb (Models.imei (Registry.setApproved (Some Registry.JFalse) dev))
                 (Some i) = true)
      by (intros dev H; exact H).
    destruct (updateFirst_find_same _ _ _ _ Hp U) as (old & _ & Hn).
    cbn [snd]. unfold Models.getDevice. cbn [Models.devices]. rewrite Hn.
    eexists. split; [reflexivity|]. repeat split.
  - apply updateFirst_none in U. unfold Models.getDevice in Hsome. contradiction.
Qed.

(** Property X15. The approval of a device is checked at login and
    nowhere else. As long as nothing else writes to the store, a
    connection that starts unauthenticated adds no record document but
    under no IMEI at all or the IMEI of a device the store holds with
    [approved] not [false]. But the AVL branch does not read the device
    again: once a session is bound to an IMEI and
    [PATCH /devices/:imei/approve] sets the device's [approved] to
    [false], a login with that IMEI is refused, and a frame that decodes
    on the open session is still stored under that IMEI and acknowledged
    in full, the session staying open and the device staying refused. *)
Theorem approval_checked_at_login_only (now : Z) (d0 : Models.Db) :
  (forall chunks : list Buffer,
   exists d new,
     fst (session now (Some d0) newSession chunks) = Some d /\
     Models.recordDocs d = Models.recordDocs d0 ++ new /\
     Forall (fun cd => admitted (Some d) (Models.rec_imei (snd cd))) new /\
     admitted (Some d) (deviceIMEI (snd (session now (Some d0) newSession chunks)))) /\
  (forall (i : string) (s : Session) (buffer : Buffer) (pkt : Codec8.DecodedPacket),
     deviceIMEI s = Some i ->
     Models.getDevice (Some d0) i <> None ->
     loginIMEI buffer = None ->
     Codec8.decodeCodec8 buffer = Codec8.Ok pkt ->
     let d1 := snd (Registry.patchApprove d0 i (Some Registry.JFalse)) in
     rejected (Models.getDevice (Some d1) i) = true /\
     (forall s' login, loginIMEI login = Some i ->
        onData now (Some d1) s' login =
          (Some d1, mkSession (deviceIMEI s') (deviceVIN s') (deviceType s')
                      (written s' ++ [[x00]]) true)) /\
     exists d2 new ack,
       fst (onData now (Some d1) s buffer) = Some d2 /\
       Models.recordDocs d2 = Models.recordDocs d0 ++ new /\
       Forall (fun cd => Models.rec_imei (snd cd) = Some i) new /\
       (Models.uniqueRecords d0 = false ->
        List.length new = List.length (Codec8.avlRecords pkt)) /\
       written (snd (onData now (Some d1) s buffer)) = written s ++ [ack] /\
       uintBE ack = Z.of_nat (List.length (Codec8.avlRecords pkt)) /\
       deviceIMEI (snd (onData now (Some d1) s buffer)) = Some i /\
       destroyed (snd (onData now (Some d1) s buffer)) = destroyed s /\
       rejected (Models.getDevice (Some d2) i) = true).
Proof.
  split.
  - intros chunks.
    destruct (session_step now d0 newSession chunks I) as (d & new & H & R & _ & N & A).
    exists d, new. split; [exact H|]. split; [exact R|]. split; [|exact A].
    apply Forall_forall. intros cd Hin. unfold admitted.
    destruct (Models.rec_imei (snd cd)) as [i|] eqn:E; [|exact I].
    apply N. apply in_map_iff. exists cd. split; [exact E | exact Hin].
  - intros i s buffer pkt Hi Hsome Hl Hd d1.
    destruct (patchApprove_revokes d0 i Hsome) as (dev & Hg & Ha & Hrec & Huniq).
    fold d1 in Hg, Hrec, Huniq.
    assert (Hrej : rejected (Models.getDevice (Some d1) i) = true).
    { unfold rejected. now rewrite Hg, Ha. }
    split; [exact Hrej|]. split.
    { intros s' login Hlogin.
      rewrite (login_decision _ _ _ _ _ Hlogin), Hrej. reflexivity. }
    destruct (avl_branch_shape now d1 s buffer pkt Hl Hd)
      as (vin & du & d2 & new & Hu & Heq & Hdev & Hnew & Hall & Hlen).
    destruct (decoded_count _ _ Hd) as (_ & Hn & Hcount).
    exists d2, new. eexists. rewrite Heq. cbn [fst snd written deviceIMEI destroyed].
    split; [reflexivity|]. split; [now rewrite Hnew, Hrec|].
    split; [now rewrite <- Hi|]. split; [now rewrite <- Huniq|].
    split; [reflexivity|]. split; [rewrite uintBE_uint32BE; lia|].
    split; [exact Hi|]. split; [reflexivity|].
    pose proof (upsert_keeps_revoked now d1 i vin "FMC003" dev Hg Ha) as Hk.
    rewrite Hi in Hu. rewrite Hu in Hk.
    unfold Models.getDevice in *. now rewrite Hdev.
Qed.

End AdmissionFacts.

(* ===================================================================== *)
(** * Filters, event counts, scores and the trips answer                  *)
(* ===================================================================== *)

Section BehaviourFacts.
Import Api.

(** Property X16. [toSigned16] reads a 16-bit unsigned value as two's complement. *)
Theorem toSigned16_twos_complement (v : Z) :
  0 <= v < 65536 ->
  exists w,
    toSigned16 (Some v) = Some w /\
    -32768 <= w <= 32767 /\
    w mod 65536 = v /\
    (w < 0 <-> 32768 <= v).
Proof.
  intros Hv. unfold toSigned16.
  destruct (Z.gtb_spec v 32767) as [H|H]; eexists; (split; [reflexivity|]).
  - split; [lia|]. split; [|lia].
    replace (v - 65536) with (v + (-1) * 65536) by lia.
    rewrite Z.mod_add by lia. apply Z.mod_small. lia.
  - split; [lia|]. split; [|lia]. apply Z.mod_small. lia.
Qed.

Lemma sort3_median a b c : nth 1 (sortZ [a; b; c]) 0 = median3 a b c.
Proof.
  unfold sortZ, median3. cbn [fold_right insertZ].
  destruct (Z.leb_spec b c); cbn [insertZ];
    destruct (Z.leb_spec a b); destruct (Z.leb_spec a c); cbn [nth]; lia.
Qed.

Lemma windowMedians_length values :
  List.length (windowMedians values) = (List.length values - 2)%nat.
Proof.
  induction values as [|a [|b [|c rest]] IH]; try reflexivity.
  change (windowMedians (a :: b :: c :: rest))
    with (nth 1 (sortZ [a; b; c]) 0 :: windowMedians (b :: c :: rest)).
  cbn [List.length] in *. rewrite IH. lia.
Qed.

Lemma windowMedians_nth values i :
  (i + 2 < List.length values)%nat ->
  nth i (windowMedians values) 0 =
  median3 (nth i values 0) (nth (i + 1) values 0) (nth (i + 2) values 0).
Proof.
  revert i. induction values as [|a [|b [|c rest]] IH]; intros i Hi;
    cbn [List.length] in Hi; try lia.
  change (windowMedians (a :: b :: c :: rest))
    with (nth 1 (sortZ [a; b; c]) 0 :: windowMedians (b :: c :: rest)).
  destruct i as [|i].
  - cbn [nth Nat.add]. apply sort3_median.
  - cbn [nth Nat.add]. apply IH. cbn [List.length]. lia.
Qed.

(** Property X17. [medianFilter] returns as many values as it is given, with the first
    and the last unchanged. *)
Theorem medianFilter_keeps_ends (values : list Z) :
  List.length (medianFilter values) = List.length values /\
  hd 0 (medianFilter values) = hd 0 values /\
  last (medianFilter values) 0 = last values 0.
Proof.
  unfold medianFilter.
  destruct (Nat.ltb_spec (List.length values) 3) as [H|H]; [auto|].
  split; [|split].
  - rewrite !length_app, windowMedians_length. cbn [List.length]. lia.
  - reflexivity.
  - rewrite app_assoc. apply last_last.
Qed.

(** Property X18. Every value between the ends is replaced by the median of itself and
    its two neighbours. *)
Theorem medianFilter_interior (values : list Z) (i : nat) :
  (1 <= i)%nat -> (i + 1 < List.length values)%nat ->
  nth i (medianFilter values) 0 =
  median3 (nth (i - 1) values 0) (nth i values 0) (nth (i + 1) values 0).
Proof.
  intros H1 H2. unfold medianFilter.
  destruct (Nat.ltb_spec (List.length values) 3) as [H|H]; [lia|].
  destruct i as [|i]; [lia|]. cbn [app nth].
  rewrite app_nth1 by (rewrite windowMedians_length; lia).
  rewrite windowMedians_nth by lia.
  replace (S i - 1)%nat with i by lia.
  replace (i + 1)%nat with (S i) by lia.
  replace (i + 2)%nat with (S i + 1)%nat by lia. reflexivity.
Qed.

Lemma behavior_inv recs b :
  calculateDriverBehavior recs = Some b ->
  exists first bx by_ d,
    hd_error recs = Some first /\
    (5 <= List.length (filter hasAccel recs))%nat /\
    detectEvents recs (filter hasAccel recs) = (bx, by_, d) /\
    b = report recs (filter hasAccel recs) first bx by_ d.
Proof.
  unfold calculateDriverBehavior.
  destruct recs as [|first rest]; [discriminate|].
  cbv zeta. remember (first :: rest) as recs eqn:Er.
  destruct (Nat.ltb_spec (List.length (filter hasAccel recs)) 5) as [H|H];
    [discriminate|].
  destruct (detectEvents recs (filter hasAccel recs)) as [[bx by_] d].
  intros [= <-]. exists first, bx, by_, d.
  split; [now rewrite Er|]. split; [exact H|]. split; reflexivity.
Qed.
Lemma delta_bounds x : (1 <= qmin (qmax 1 x) 60 <= 60)%Q.
Proof.
  unfold qmin, qmax.
  destruct (qle_spec 1 x) as [H1|H1].
  - destruct (qle_spec x 60) as [H2|H2]; lra.
  - destruct (qle_spec 1 60) as [H2|H2]; lra.
Qed.

Lemma detectStep_counts acc xf yf d r :
  let d' := detectStep acc xf yf d r in
  hardBraking d <= hardBraking d' <= hardBraking d + 1 /\
  hardAcceleration d <= hardAcceleration d' <= hardAcceleration d + 1 /\
  harshCornering d <= harshCornering d' <= harshCornering d + 1.
Proof.
  unfold detectStep. cbv zeta.
  destruct (findIndex _ acc) as [i|];
    [destruct (speedOf r >=? MIN_SPEED_FOR_EVENTS)|];
    cbn [hardBraking hardAcceleration harshCornering]; try lia.
  repeat match goal with
         | |- context [if ?c then _ else _] => destruct c
         end; lia.
Qed.

Lemma detectStep_idle acc xf yf d r :
  (idleSeconds d <= idleSeconds (detectStep acc xf yf d r) <= idleSeconds d + 60)%Q.
Proof.
  assert (Hd : (1 <= match prevRecord d with
                     | None => 5%Q
                     | Some p => qmin (qmax 1 (qOfZ (timestamp r - timestamp p) / 1000)) 60
                     end <= 60)%Q).
  { destruct (prevRecord d); [apply delta_bounds | lra]. }
  unfold detectStep. cbv zeta.
  destruct (findIndex _ acc) as [i|];
    [destruct (speedOf r >=? MIN_SPEED_FOR_EVENTS)|];
    cbn [idleSeconds];
    match goal with
    | |- context [if ?c then _ else _] => destruct c
    end; lra.
Qed.

Lemma detectStep_max acc xf yf d r :
  maxSpeed (detectStep acc xf yf d r) = Z.max (maxSpeed d) (speedOf r) /\
  maxRpm (detectStep acc xf yf d r) = Z.max (maxRpm d) (num (obdEngineRpm r)).
Proof.
  unfold detectStep. cbv zeta.
  destruct (findIndex _ acc) as [i|];
    [destruct (speedOf r >=? MIN_SPEED_FOR_EVENTS)|];
    cbn [maxSpeed maxRpm];
    destruct (Z.gtb_spec (speedOf r) (maxSpeed d));
    destruct (Z.gtb_spec (num (obdEngineRpm r)) (maxRpm d)); lia.
Qed.

Lemma detectStep_inv acc xf yf pre d r :
  detectInv pre d -> detectInv (pre ++ [r]) (detectStep acc xf yf d r).
Proof.
  unfold detectInv. cbv zeta.
  intros (Hb & Ha & Hc & Hi & Hs & Hr & Fs & Fr).
  pose proof (detectStep_counts acc xf yf d r) as (Cb & Ca & Cc).
  pose proof (detectStep_idle acc xf yf d r) as Ci.
  pose proof (detectStep_max acc xf yf d r) as (Ms & Mr).
  rewrite length_app, Nat2Z.inj_add. cbn [List.length].
  change (Z.of_nat 1) with 1.
  split; [lia|]. split; [lia|]. split; [lia|].
  split.
  { rewrite inject_Z_plus. change (inject_Z 1) with 1%Q. lra. }
  split; [lia|]. split; [lia|].
  split.
  - apply Forall_app. split.
    + eapply Forall_impl; [|exact Fs]. cbv beta. intros; lia.
    + constructor; [lia | constructor].
  - apply Forall_app. split.
    + eapply Forall_impl; [|exact Fr]. cbv beta. intros; lia.
    + constructor; [lia | constructor].
Qed.

Lemma detect_fold acc xf yf recs pre d :
  detectInv pre d ->
  detectInv (pre ++ recs) (fold_left (detectStep acc xf yf) recs d).
Proof.
  revert pre d. induction recs as [|r recs IH]; intros pre d H.
  - now rewrite app_nil_r.
  - cbn [fold_left].
    replace (pre ++ r :: recs) with ((pre ++ [r]) ++ recs)
      by (now rewrite <- app_assoc).
    apply IH. now apply detectStep_inv.
Qed.

Lemma detectEvents_inv recs acc bx by_ d :
  detectEvents recs acc = (bx, by_, d) -> detectInv recs d.
Proof.
  unfold detectEvents. cbv zeta. intros [= _ _ <-].
  apply (detect_fold _ _ _ recs []).
  unfold detectInv.
  cbn [List.length hardBraking hardAcceleration harshCornering idleSeconds
       maxSpeed maxRpm].
  change (inject_Z (Z.of_nat 0)) with 0%Q. change (Z.of_nat 0) with 0.
  repeat split; try lia; try lra; constructor.
Qed.

Lemma mathRound_bounds (q : Q) (lo hi : Z) :
  (inject_Z lo <= q + (1 # 2))%Q -> (q + (1 # 2) < inject_Z hi + 1)%Q ->
  lo <= mathRound q <= hi.
Proof.
  unfold mathRound. intros Hlo Hhi.
  pose proof (Qfloor_le (q + (1 # 2))) as Hf.
  pose proof (Qlt_floor (q + (1 # 2))) as Hl.
  split.
  - rewrite <- (Qfloor_Z lo). now apply Qfloor_resp_le.
  - assert (H : (inject_Z (Qfloor (q + (1 # 2))) < inject_Z (hi + 1))%Q).
    { rewrite inject_Z_plus. change (inject_Z 1) with 1%Q. lra. }
    rewrite <- Zlt_Qlt in H. lia.
Qed.


Lemma qmax_bounds a b : (a <= qmax a b /\ b <= qmax a b /\ (qmax a b == a \/ qmax a b == b))%Q.
Proof.
  unfold qmax. destruct (qle_spec a b) as [H|H].
  - split; [exact H|]. split; [lra|]. right. reflexivity.
  - split; [lra|]. split; [lra|]. left. reflexivity.
Qed.

Lemma durationFactor_bounds x : (1 <= qmin 6 (qmax 1 x) <= 6)%Q.
Proof.
  unfold qmin, qmax.
  destruct (qle_spec 1 x) as [H1|H1].
  - destruct (qle_spec 6 x) as [H2|H2]; lra.
  - destruct (qle_spec 6 1) as [H2|H2]; lra.
Qed.

Lemma scoring_floor b a c m :
  40 <= sc_driverScore (scoring b a c m) <= 100 /\
  (0 < b + c -> sc_driverScore (scoring b a c m) <= 97).
Proof.
  unfold scoring. cbv zeta. cbn [sc_driverScore raw_hardBraking raw_hardAcceleration
                              raw_harshCornering fold_left].
  set (total := 0 + Z.min 25 (b * 4) + Z.min 20 (a * 2) + Z.min 15 (c * 3)).
  pose proof (durationFactor_bounds (qOfZ m / 10)) as Hdf.
  set (df := qmin 6 (qmax 1 (qOfZ m / 10))) in *.
  set (fl := if b + c >? 0 then 3%Q else 0%Q).
  assert (Ht : (qOfZ total <= 60)%Q).
  { unfold qOfZ. change 60%Q with (inject_Z 60). rewrite <- Zle_Qle.
    unfold total. lia. }
  assert (Hx : (qOfZ total / df <= 60)%Q).
  { apply Qle_shift_div_r; lra. }
  assert (Hfl : (0 <= fl <= 3)%Q).
  { unfold fl. destruct (b + c >? 0); lra. }
  pose proof (qmax_bounds (qOfZ total / df) fl) as (_ & Hge & Hor).
  set (np := qmax (qOfZ total / df) fl) in *.
  assert (Hnp : (np <= 60)%Q) by (destruct Hor as [E|E]; rewrite E; lra).
  assert (H40 : 40 <= mathRound (100 - np) <= 100).
  { apply mathRound_bounds.
    - change (inject_Z 40) with 40%Q. lra.
    - change (inject_Z 100) with 100%Q. lra. }
  split; [lia|]. intros Hsev.
  assert (Hfl3 : (fl == 3)%Q).
  { unfold fl. destruct (Z.gtb_spec (b + c) 0); [reflexivity | lia]. }
  assert (H97 : 0 <= mathRound (100 - np) <= 97).
  { apply mathRound_bounds.
    - change (inject_Z 0) with 0%Q. lra.
    - change (inject_Z 97) with 97%Q. lra. }
  lia.
Qed.

Lemma scoring_clean m : sc_driverScore (scoring 0 0 0 m) = 100.
Proof.
  unfold scoring. cbv zeta. cbn [sc_driverScore raw_hardBraking raw_hardAcceleration
                              raw_harshCornering fold_left].
  change (0 + Z.min 25 (0 * 4) + Z.min 20 (0 * 2) + Z.min 15 (0 * 3)) with 0.
  change (0 + 0 >? 0) with false. cbv iota.
  set (df := qmin 6 (qmax 1 (qOfZ m / 10))).
  assert (Hx : (qOfZ 0 / df == 0)%Q) by (unfold Qdiv; apply Qmult_0_l).
  pose proof (qmax_bounds (qOfZ 0 / df) 0) as (_ & _ & Hor).
  set (np := qmax (qOfZ 0 / df) 0) in *.
  assert (Hnp : (np == 0)%Q) by (destruct Hor as [E|E]; rewrite E; [exact Hx | reflexivity]).
  assert (H : 100 <= mathRound (100 - np) <= 100).
  { apply mathRound_bounds; change (inject_Z 100) with 100%Q; lra. }
  lia.
Qed.

(** Property X20. A report's driver score is never below 40, and at most 97 once a
    hard braking or a harsh cornering was counted; its efficiency score
    is 100 less the idle penalty, which is at most 30. *)
Theorem score_floors (tripRecords : list Doc) (b : DriverBehavior) :
  calculateDriverBehavior tripRecords = Some b ->
  40 <= driverScore b /\
  score b = driverScore b /\
  (0 < severeEvents (penalties b) -> driverScore b <= 97) /\
  0 <= idlePenalty (penalties b) <= 30 /\
  efficiencyScore b = 100 - idlePenalty (penalties b).
Proof.
  intros H.
  destruct (behavior_inv _ _ H) as (first & bx & by_ & d & _ & H5 & Hd & ->).
  apply detectEvents_inv in Hd. unfold detectInv in Hd. cbv zeta in Hd.
  destruct Hd as (_ & _ & _ & Hi & _).
  unfold report.
  cbn [driverScore score efficiencyScore penalties severeEvents idlePenalty].
  match goal with
  | |- context [scoring ?x ?y ?z ?m] =>
      pose proof (scoring_floor x y z m) as (Hfloor & Hsev);
      set (sc := scoring x y z m) in *
  end.
  assert (Hss : sc_severeEvents sc = hardBraking d + harshCornering d) by reflexivity.
  assert (Him : 0 <= mathRound (idleSeconds d / 60) <= Z.of_nat (List.length tripRecords)).
  { apply mathRound_bounds; change (inject_Z 0) with 0%Q;
      unfold Qdiv; change (/ 60)%Q with (1 # 60)%Q; lra. }
  set (im := mathRound (idleSeconds d / 60)) in *.
  assert (Hp : 0 <= im / 5 * 2).
  { assert (0 <= im / 5) by (apply Z.div_pos; lia). lia. }
  match goal with
  | |- context [isLow ?l && _] => generalize (isLow l)
  end.
  intros lowLevel.
  split; [destruct (lowLevel && (sc_driverScore sc >? 95)); lia|].
  split; [reflexivity|].
  split; [rewrite Hss; intros Hs; specialize (Hsev Hs);
          destruct (lowLevel && (sc_driverScore sc >? 95)); lia|].
  split; lia.
Qed.

(** Property X21. A trip flagged perfect has no event counted, a driver score of 100,
    confidence [high] and lasted at least five minutes. *)
Theorem perfect_trip_is_clean (tripRecords : list Doc) (b : DriverBehavior) :
  calculateDriverBehavior tripRecords = Some b ->
  perfectTrip b = true ->
  driverScore b = 100 /\
  ev_hardBraking (events b) = 0 /\
  ev_hardAcceleration (events b) = 0 /\
  ev_harshCornering (events b) = 0 /\
  totalRaw (penalties b) = 0 /\
  level (confidence b) = high /\
  5 <= tripDurationMinutes b.
Proof.
  intros H.
  destruct (behavior_inv _ _ H) as (first & bx & by_ & d & _ & H5 & Hd & ->).
  apply detectEvents_inv in Hd. unfold detectInv in Hd. cbv zeta in Hd.
  destruct Hd as (Hb & Ha & Hc & _).
  unfold report.
  cbn [driverScore perfectTrip events ev_hardBraking ev_hardAcceleration
       ev_harshCornering penalties totalRaw confidence level tripDurationMinutes].
  match goal with
  | |- context [isHigh ?l] => generalize l
  end.
  intros lvl.
  match goal with
  | |- context [scoring _ _ _ ?m] => generalize m
  end.
  intros m Hperfect.
  apply andb_prop in Hperfect. destruct Hperfect as (Hperfect & Hm).
  apply andb_prop in Hperfect. destruct Hperfect as (Hraw & Hhigh).
  apply Z.eqb_eq in Hraw.
  assert (Hzero : hardBraking d = 0 /\ hardAcceleration d = 0 /\ harshCornering d = 0).
  { revert Hraw. unfold scoring. cbv zeta.
    cbn [sc_totalRawPenalty raw_hardBraking raw_hardAcceleration
         raw_harshCornering fold_left]. lia. }
  destruct Hzero as (Zb & Za & Zc).
  assert (Hl : lvl = high) by (destruct lvl; [reflexivity | discriminate | discriminate]).
  subst lvl. cbn [isLow andb].
  split; [rewrite Zb, Za, Zc; apply scoring_clean|].
  split; [exact Zb|]. split; [exact Za|]. split; [exact Zc|].
  split; [exact Hraw|]. split; [reflexivity|].
  destruct (Z.geb_spec m 5); [lia | discriminate].
Qed.

Lemma ascending_app l1 l2 :
  ascending (l1 ++ l2) ->
  ascending l1 /\ ascending l2 /\
  Forall (fun x => Forall (fun y => timestamp x <= timestamp y) l2) l1.
Proof.
  unfold ascending. induction l1 as [|a l1 IH]; cbn [app]; intros H.
  - split; [constructor|]. split; [exact H | constructor].
  - apply StronglySorted_inv in H. destruct H as (Hs & Hf).
    destruct (IH Hs) as (H1 & H2 & H3).
    apply Forall_app in Hf. destruct Hf as (Hf1 & Hf2).
    split; [constructor; assumption|]. split; [exact H2|].
    constructor; assumption.
Qed.

Lemma StronglySorted_snoc {A} (R : A -> A -> Prop) l x :
  StronglySorted R l -> Forall (fun y => R y x) l -> StronglySorted R (l ++ [x]).
Proof.
  induction 1 as [|a l Hs IH Hf]; intros Hx; cbn [app].
  - constructor; constructor.
  - inversion Hx as [|? ? Hax Hlx]; subst.
    constructor; [now apply IH|].
    apply Forall_app. split; [exact Hf|]. constructor; [exact Hax | constructor].
Qed.

Lemma last_In {A} (l : list A) (d : A) : l <> [] -> In (last l d) l.
Proof.
  induction l as [|a [|b l] IH]; intros H; [congruence | left; reflexivity |].
  right. apply IH. discriminate.
Qed.

Lemma trips_step pre st r st' :
  ascending (pre ++ [r]) ->
  tripLoop loopStart pre = Some st ->
  tripsInv pre st ->
  loopStep st r = Some st' ->
  tripsInv (pre ++ [r]) st'.
Proof.
  intros Hasc Hst (Ha & Hb & Hc) Hstep.
  pose proof (tripLoop_loopInv _ _ Hst) as Inv.
  destruct (ascending_app _ _ Hasc) as (Hpre & _ & Hle).
  unfold loopInv in Inv. unfold loopStep in Hstep. unfold tripsInv.
  destruct (currentTrip st) as [cur|] eqn:Ec.
  - destruct Inv as (before & r0 & rest & st0 & Epre & Hon & Ecur & Erecs & Elast & _).
    destruct (isEngineOn r).
    + injection Hstep as <-. cbn [trips currentTrip]. auto.
    + rewrite Elast in Hstep. cbn [num] in Hstep.
      destruct (Z.gtb_spec (timestamp r - timestamp (last (tripRecords st) r0)) 60000)
        as [Hgap|Hgap].
      * rewrite Erecs in Hstep, Hgap.
        destruct (closeTrip_some cur r0 (filter isEngineOn rest))
          as (t & Ht & Hs & He & _).
        rewrite Ht in Hstep. injection Hstep as <-. cbn [trips currentTrip].
        assert (Hr0 : In r0 pre) by (rewrite Epre; apply in_elt).
        assert (Hse : startTime t <= endTime t).
        { rewrite Hs, He, Ecur. cbn [ts_startTime].
          pose proof (last_In (r0 :: filter isEngineOn rest) r0 ltac:(discriminate)) as Hin.
          destruct Hin as [<-|Hin]; [lia|].
          apply filter_In in Hin. destruct Hin as (Hin & _).
          rewrite Epre in Hpre. apply ascending_app in Hpre.
          destruct Hpre as (_ & Hs2 & _). unfold ascending in Hs2.
          apply StronglySorted_inv in Hs2. destruct Hs2 as (_ & Hf).
          rewrite Forall_forall in Hf. now apply Hf. }
        assert (Hold : Forall (fun t' => exists r', In r' (pre ++ [r]) /\
                                  endTime t' + 60000 < timestamp r') (trips st)).
        { eapply Forall_impl; [|exact Hc]. cbv beta. intros t' Ht'.
          exists r0. split; [apply in_or_app; now left|].
          rewrite Ecur in Ht'. exact Ht'. }
        assert (Hnew : exists r', In r' (pre ++ [r]) /\ endTime t + 60000 < timestamp r').
        { exists r. split; [apply in_or_app; right; now left|]. rewrite He. lia. }
        destruct (meaningful t).
        -- split; [apply Forall_app; split; [exact Ha | constructor; [exact Hse | constructor]]|].
           split.
           ++ apply StronglySorted_snoc; [exact Hb|].
              eapply Forall_impl; [|exact Hc]. cbv beta. intros t' Ht'. now rewrite Hs.
           ++ apply Forall_app. split; [exact Hold|]. constructor; [exact Hnew | constructor].
        -- auto.
      * injection Hstep as <-. rewrite Ec. auto.
  - destruct (isEngineOn r).
    + injection Hstep as <-. cbn [trips currentTrip ts_startTime].
      split; [exact Ha|]. split; [exact Hb|].
      eapply Forall_impl; [|exact Hc]. cbv beta. intros t' (r' & Hin & Hlt).
      rewrite Forall_forall in Hle. specialize (Hle _ Hin).
      inversion Hle; subst. lia.
    + injection Hstep as <-. rewrite Ec.
      split; [exact Ha|]. split; [exact Hb|].
      eapply Forall_impl; [|exact Hc]. cbv beta. intros t' (r' & Hin & Hlt).
      exists r'. split; [apply in_or_app; now left | exact Hlt].
Qed.

Lemma trips_inv records st :
  ascending records -> tripLoop loopStart records = Some st -> tripsInv records st.
Proof.
  revert st. induction records as [|r pre IH] using rev_ind; intros st Hasc Hst.
  - injection Hst as <-. unfold tripsInv. cbn. repeat split; constructor.
  - rewrite tripLoop_snoc in Hst.
    destruct (tripLoop loopStart pre) as [st0|] eqn:E0; [|discriminate].
    destruct (ascending_app _ _ Hasc) as (Hpre & _).
    eapply trips_step; eauto.
Qed.

(** Property X22. On records in ascending order of time the trips come out in order:
    no trip ends before it starts, each starts more than a minute after
    the one before it ended, and so does a trip still open. *)
Theorem trips_ordered (records : list Doc) (st : Loop) :
  ascending records ->
  tripLoop loopStart records = Some st ->
  Forall (fun t => startTime t <= endTime t) (trips st) /\
  StronglySorted (fun t1 t2 => endTime t1 + 60000 < startTime t2) (trips st) /\
  (forall cur, currentTrip st = Some cur ->
     Forall (fun t => endTime t + 60000 < ts_startTime cur) (trips st)).
Proof.
  intros Hasc Hst. destruct (trips_inv _ _ Hasc Hst) as (Ha & Hb & Hc).
  split; [exact Ha|]. split; [exact Hb|].
  intros cur Hcur. now rewrite Hcur in Hc.
Qed.

Lemma closeTrip_fields cur r0 l :
  exists t fuel,
    closeTrip cur (r0 :: l) = Some t /\
    trip_maxSpeed t =
      fold_left (fun m s => if s >? m then s else m)
        (filter (fun s => s >? 0) (map speedOf (r0 :: l))) 0 /\
    driverBehavior t = calculateDriverBehavior (r0 :: l) /\
    fuelUsedMl t = option_map fst fuel /\
    fuelFromGps t = isSome fuel /\
    fuelUsedLiters t =
      option_map (fun f => qOfZ (mathRound (qOfZ (fst f) / 10)) / 100)%Q fuel /\
    isSome (fuelPer100km t) = isSome fuel /\
    fuel =
      match fuelUsedGps r0, fuelUsedGps (last (r0 :: l) r0), distanceKm t with
      | Some startFuel, Some endFuel, Some km =>
          if Qle_bool 2 km && (durationMinutes t >=? 5) && (endFuel - startFuel >? 0)
          then Some (endFuel - startFuel, km) else None
      | _, _, _ => None
      end.
Proof.
  unfold closeTrip. eexists. eexists. split; [reflexivity|].
  cbn [trip_maxSpeed driverBehavior fuelUsedMl fuelFromGps fuelUsedLiters
       fuelPer100km distanceKm durationMinutes].
  split; [reflexivity|]. split; [reflexivity|]. split; [reflexivity|].
  split; [reflexivity|]. split; [reflexivity|].
  split; [|reflexivity].
  match goal with
  | |- context [option_map (fun k : Z => (qOfZ k / 10)%Q) ?kt] =>
      destruct kt as [k|]
  end; cbn [option_map];
    destruct (fuelUsedGps r0); try reflexivity;
    destruct (fuelUsedGps (last (r0 :: l) r0)); try reflexivity.
  match goal with
  | |- context [if ?c then _ else _] => destruct c; reflexivity
  end.
Qed.






(** Property X24. Fuel figures are given for a closed trip only when its first and
    last record both carry the GPS fuel counter, the counter went up,
    the distance is at least 2 km and the duration at least 5 minutes;
    then all three figures and the flag are set, otherwise none is. *)
Theorem trip_fuel_only_when_long (cur : TripStart) (recs : list Doc) (t : Trip) :
  closeTrip cur recs = Some t ->
  (fuelFromGps t = true ->
   exists first startFuel endFuel km,
     hd_error recs = Some first /\
     fuelUsedGps first = Some startFuel /\
     fuelUsedGps (last recs first) = Some endFuel /\
     fuelUsedMl t = Some (endFuel - startFuel) /\
     0 < endFuel - startFuel /\
     distanceKm t = Some km /\ (2 <= km)%Q /\
     5 <= durationMinutes t /\
     fuelUsedLiters t =
       Some (qOfZ (mathRound (qOfZ (endFuel - startFuel) / 10)) / 100)%Q /\
     fuelPer100km t <> None) /\
  (fuelFromGps t = false ->
   fuelUsedMl t = None /\ fuelUsedLiters t = None /\ fuelPer100km t = None).
Proof.
  intros H. destruct recs as [|r0 l]; [discriminate|].
  destruct (closeTrip_fields cur r0 l)
    as (t' & fuel & Ht & _ & _ & Hml & Hflag & Hl & Hp & Hfuel).
  rewrite H in Ht. injection Ht as <-.
  rewrite Hml, Hflag, Hl.
  destruct fuel as [[ml km']|]; cbn [isSome option_map fst] in *; split;
    try discriminate.
  - intros _.
    destruct (fuelUsedGps r0) as [sf|] eqn:Es;
      [|cbv beta iota in Hfuel; discriminate Hfuel].
    destruct (fuelUsedGps (last (r0 :: l) r0)) as [ef|] eqn:El;
      [|cbv beta iota in Hfuel; discriminate Hfuel].
    destruct (distanceKm t) as [km|] eqn:Ek;
      [|cbv beta iota in Hfuel; discriminate Hfuel].
    cbv beta iota in Hfuel.
    destruct (qle_spec 2 km) as [Hkm|Hkm]; [|discriminate Hfuel].
    destruct (Z.geb_spec (durationMinutes t) 5) as [Hm|Hm]; [|discriminate Hfuel].
    destruct (Z.gtb_spec (ef - sf) 0) as [Hf|Hf]; [|discriminate Hfuel].
    cbn [andb] in Hfuel. injection Hfuel as -> ->.
    exists r0, sf, ef, km. cbn [hd_error].
    repeat split; try reflexivity; try assumption; try lia.
    destruct (fuelPer100km t); [discriminate | discriminate Hp].
  - intros _.
    repeat split. destruct (fuelPer100km t); [discriminate Hp | reflexivity].
Qed.






End BehaviourFacts.

(* ===================================================================== *)
(** * The log importer                                                    *)
(* ===================================================================== *)

Section ImporterFacts.
Import Importer.

Lemma fieldMap_same : Importer.fieldMap = Models.fieldMap.
Proof. reflexivity. Qed.

(** Property X26. The importer builds the document the server builds for the same
    record, and marks it [importedFromLogs]. *)
Theorem importer_document_matches_server (now : Z) (i : option string)
    (v : option string) (modemType : string) (record : Codec8.AVLRecord) :
  (forall id, Importer.ioIdToFieldName id = Models.ioIdToFieldName id) /\
  doc (Importer.buildRecordDoc now i v modemType record) =
    Models.buildRecordDoc now i (option_map JStr v) modemType record /\
  importedFromLogs (Importer.buildRecordDoc now i v modemType record) = true.
Proof.
  split; [reflexivity|]. split; [|reflexivity].
  unfold Importer.buildRecordDoc, Models.buildRecordDoc. cbn [doc].
  f_equal. unfold vinOrNull, Models.orNull, strTruthy.
  destruct v as [s|]; reflexivity.
Qed.

Lemma findOne_none records ts i :
  findOne records ts i = None <-> ~ In (ts, i) (map key records).
Proof.
  unfold findOne. induction records as [|s l IH]; cbn [find map In]; [tauto|].
  destruct (Z.eqb_spec (Models.rec_timestamp (doc s)) ts) as [Et|Et]; cbn [andb].
  - destruct (optStringEqb (Models.rec_imei (doc s)) i) eqn:Ei.
    + apply optStringEqb_eq in Ei. split; [discriminate|].
      intros H. exfalso. apply H. left. unfold key. now rewrite Et, Ei.
    + rewrite IH. split.
      * intros H [Hk|Hk]; [|tauto]. unfold key in Hk. injection Hk as _ Hi.
        rewrite Hi, optStringEqb_refl in Ei. discriminate.
      * tauto.
  - rewrite IH. split.
    + intros H [Hk|Hk]; [|tauto]. unfold key in Hk. injection Hk as Ht _.
      contradiction.
    + tauto.
Qed.

Lemma findOne_some records ts i :
  findOne records ts i <> None <-> In (ts, i) (map key records).
Proof.
  split.
  - intros H. destruct (in_dec (fun a b : Z * option string =>
      ltac:(decide equality; [decide equality; apply string_dec | apply Z.eq_dec]))
      (ts, i) (map key records)) as [Hin|Hn]; [exact Hin|].
    apply findOne_none in Hn. contradiction.
  - intros Hin Hn. apply findOne_none in Hn. contradiction.
Qed.

(** What one record does to the store, read off [importRecord]. *)
Lemma importRecord_spec now p st c r :
  let k := (Codec8.timestamp r, imei p) in
  let out := importRecord now p (st, c) r in
  rawCollection (fst out) = rawCollection st /\
  errors (snd out) = errors c /\
  ((In k (map key (recordsCollection st)) /\
    recordsCollection (fst out) = recordsCollection st /\
    imported (snd out) = imported c /\ skipped (snd out) = skipped c + 1)
   \/
   (~ In k (map key (recordsCollection st)) /\
    recordsCollection (fst out) =
      recordsCollection st ++ [buildRecordDoc now (imei p) (vin p) "FMC003" r] /\
    imported (snd out) = imported c + 1 /\ skipped (snd out) = skipped c)).
Proof.
  cbv zeta. unfold importRecord. cbn [fst snd buildRecordDoc doc Models.rec_timestamp
                                      Models.rec_imei].
  destruct (findOne (recordsCollection st) (Codec8.timestamp r) (imei p)) as [s|] eqn:E.
  - cbn [fst snd rawCollection recordsCollection imported skipped errors].
    split; [reflexivity|]. split; [reflexivity|]. left.
    split; [apply findOne_some; congruence|]. repeat split.
  - cbn [fst snd rawCollection recordsCollection imported skipped errors].
    split; [reflexivity|]. split; [reflexivity|]. right.
    split; [now apply findOne_none|]. repeat split.
Qed.

Lemma key_in_app k (l1 l2 : list Stored) :
  In k (map key l1) -> In k (map key (l1 ++ l2)).
Proof. intros H. rewrite map_app. apply in_or_app. now left. Qed.

(** The records of one packet, folded into the store. *)
Lemma importRecords_spec now p recs st c :
  let out := fold_left (importRecord now p) recs (st, c) in
  exists new,
    recordsCollection (fst out) = recordsCollection st ++ new /\
    rawCollection (fst out) = rawCollection st /\
    errors (snd out) = errors c /\
    imported (snd out) = imported c + Z.of_nat (List.length new) /\
    imported (snd out) + skipped (snd out) =
      imported c + skipped c + Z.of_nat (List.length recs) /\
    Forall (fun s => importedFromLogs s = true /\
                     Models.rec_modemType (doc s) = "FMC003"%string /\
                     Models.rec_imei (doc s) = imei p) new /\
    (NoDup (map key (recordsCollection st)) ->
     NoDup (map key (recordsCollection st ++ new))) /\
    Forall (fun r => In (Codec8.timestamp r, imei p)
                       (map key (recordsCollection st ++ new))) recs /\
    (Forall (fun r => In (Codec8.timestamp r, imei p)
                        (map key (recordsCollection st))) recs -> new = []).
Proof.
  cbv zeta. revert st c. induction recs as [|r recs IH]; intros st c.
  - exists []. cbn [fold_left fst snd List.length]. rewrite app_nil_r.
    repeat split; auto; try lia.
  - cbn [fold_left].
    pose proof (importRecord_spec now p st c r) as Hs. cbv zeta in Hs.
    destruct (importRecord now p (st, c) r) as [st1 c1]. cbn [fst snd] in Hs.
    destruct Hs as (Hraw & Herr & Hcase).
    destruct (IH st1 c1) as (new & R & W & E & I & T & F & N & C & Z0).
    destruct Hcase as [(Hin & Hrec & Hi & Hk)|(Hnin & Hrec & Hi & Hk)].
    + exists new. rewrite R, W, E, I, Hrec, Hraw, Herr, Hi.
      rewrite Hrec in N, C, Z0. cbn [List.length].
      split; [reflexivity|]. split; [reflexivity|]. split; [reflexivity|].
      split; [reflexivity|]. split; [lia|]. split; [exact F|]. split; [exact N|].
      split; [constructor; [now apply key_in_app | exact C]|].
      intros Hall. inversion Hall; subst. auto.
    + exists (buildRecordDoc now (imei p) (vin p) "FMC003" r :: new).
      rewrite R, W, E, I, Hrec, Hraw, Herr, Hi.
      rewrite Hrec in N, C, Z0. rewrite <- app_assoc in *. cbn [app List.length] in *.
      split; [reflexivity|]. split; [reflexivity|]. split; [reflexivity|].
      split; [lia|]. split; [lia|].
      split; [constructor; [repeat split | exact F]|].
      split.
      * intros Hnd. apply N. rewrite map_app. cbn [map].
        apply NoDup_app; [exact Hnd | repeat constructor; intros [] |].
        intros k Hk1 [Hk2|[]]. subst k. contradiction.
      * split.
        -- constructor; [|exact C].
           rewrite map_app. apply in_or_app. right. left. reflexivity.
        -- intros Hall. inversion Hall; subst. contradiction.
Qed.

Lemma covered_app l1 l2 p : covered l1 p -> covered (l1 ++ l2) p.
Proof.
  unfold covered. intros H. eapply Forall_impl; [|exact H].
  cbv beta. intros r Hr. now apply key_in_app.
Qed.

(** One packet, read off [importPacket]. *)
Lemma importPacket_spec now p st c :
  let out := importPacket now (st, c) p in
  exists new,
    recordsCollection (fst out) = recordsCollection st ++ new /\
    Z.of_nat (List.length (rawCollection (fst out))) =
      Z.of_nat (List.length (rawCollection st)) + (if decodable p then 1 else 0) /\
    errors (snd out) = errors c + failed p /\
    imported (snd out) = imported c + Z.of_nat (List.length new) /\
    imported (snd out) + skipped (snd out) = imported c + skipped c + handled p /\
    Forall flagged new /\
    (NoDup (map key (recordsCollection st)) ->
     NoDup (map key (recordsCollection st ++ new))) /\
    covered (recordsCollection st ++ new) p /\
    (covered (recordsCollection st) p -> new = []).
Proof.
  cbv zeta. unfold importPacket, handled, failed, covered, packetRecords, decodable.
  cbn [fst snd].
  destruct (strTruthy (imei p)) eqn:Ei; cbn [negb andb].
  - destruct (Codec8.decodeCodec8 (fromHex (hex p))) as [decoded|e].
    + cbv zeta.
      match goal with
      | |- context [fold_left _ _ (?s0, _)] =>
          destruct (importRecords_spec now p (Codec8.avlRecords decoded) s0 c)
            as (new & R & W & E & I & T & F & N & C & Z0)
      end.
      cbv zeta in R, W, E, I, T. cbn [recordsCollection rawCollection] in *.
      exists new. rewrite R, W, E, I. rewrite I in T.
      split; [reflexivity|].
      split; [rewrite length_app, Nat2Z.inj_add; reflexivity|].
      split; [cbn [negb]; lia|]. split; [reflexivity|]. split; [lia|].
      split.
      { eapply Forall_impl; [|exact F]. cbv beta. intros s (H1 & H2 & H3).
        unfold flagged. rewrite H3. auto. }
      split; [exact N|]. split; [exact C | exact Z0].
    + exists []. cbn [fst snd recordsCollection rawCollection imported skipped
                      errors List.length negb]. rewrite app_nil_r.
      repeat split; auto; try lia; constructor.
  - exists []. cbn [fst snd recordsCollection rawCollection imported skipped
                    errors List.length negb]. rewrite app_nil_r.
    repeat split; auto; try lia; constructor.
Qed.

(** All packets, folded into the store. *)
Lemma importPackets_spec now packets st c :
  let out := fold_left (importPacket now) packets (st, c) in
  exists new,
    recordsCollection (fst out) = recordsCollection st ++ new /\
    Z.of_nat (List.length (rawCollection (fst out))) =
      Z.of_nat (List.length (rawCollection st))
      + total (fun p => if decodable p then 1 else 0) packets /\
    errors (snd out) = errors c + total failed packets /\
    imported (snd out) = imported c + Z.of_nat (List.length new) /\
    imported (snd out) + skipped (snd out) =
      imported c + skipped c + total handled packets /\
    Forall flagged new /\
    (NoDup (map key (recordsCollection st)) ->
     NoDup (map key (recordsCollection st ++ new))) /\
    Forall (covered (recordsCollection st ++ new)) packets /\
    (Forall (covered (recordsCollection st)) packets -> new = []).
Proof.
  cbv zeta. revert st c. induction packets as [|p packets IH]; intros st c.
  - exists []. cbn [fold_left fst snd List.length total]. rewrite app_nil_r.
    repeat split; auto; try lia.
  - cbn [fold_left total].
    destruct (importPacket_spec now p st c)
      as (new1 & R1 & W1 & E1 & I1 & T1 & F1 & N1 & C1 & Z1).
    cbv zeta in R1, W1, E1, I1, T1.
    destruct (importPacket now (st, c) p) as [st1 c1]. cbn [fst snd] in *.
    destruct (IH st1 c1) as (new & R & W & E & I & T & F & N & C & Z0).
    exists (new1 ++ new). rewrite R, W, E, I. rewrite I in T.
    rewrite R1 in *. rewrite <- app_assoc in *.
    split; [reflexivity|]. split; [lia|]. split; [lia|].
    split; [rewrite length_app, Nat2Z.inj_add; lia|]. split; [lia|].
    split; [apply Forall_app; split; assumption|].
    split; [auto|].
    split.
    + constructor; [|exact C]. rewrite app_assoc. now apply covered_app.
    + intros Hall. inversion Hall as [|? ? Hp Hrest]; subst.
      rewrite (Z1 Hp) in *. cbn [app]. apply Z0. now rewrite app_nil_r.
Qed.

(** Property X27. An import appends to the record collection: [imported] documents,
    each marked [importedFromLogs] with type FMC003 and a non-empty
    IMEI; no pair of timestamp and IMEI that was unique stops being so;
    and every packet is accounted for in the three counts. *)
Theorem import_adds_flagged_documents (now : Z) (st : Store) (packets : list Packet) :
  let out := importToMongo now st packets in
  exists new,
    recordsCollection (fst out) = recordsCollection st ++ new /\
    imported (snd out) = Z.of_nat (List.length new) /\
    Forall flagged new /\
    (NoDup (map key (recordsCollection st)) ->
     NoDup (map key (recordsCollection (fst out)))) /\
    imported (snd out) + skipped (snd out) = total handled packets /\
    errors (snd out) = total failed packets.
Proof.
  cbv zeta. unfold importToMongo.
  destruct (importPackets_spec now packets st (mkCounts 0 0 0))
    as (new & R & _ & E & I & T & F & N & _).
  cbv zeta in R, E, I, T. cbn [imported skipped errors] in *.
  exists new. rewrite R. split; [reflexivity|]. split; [lia|].
  split; [exact F|]. split; [exact N|]. split; lia.
Qed.

(** Property X28. Importing the same packets a second time adds no record: every
    record is found and skipped. The raw collection still grows by one
    document per decoded packet. *)
Theorem import_twice_adds_no_record (now now' : Z) (st : Store) (packets : list Packet) :
  let out1 := importToMongo now st packets in
  let out2 := importToMongo now' (fst out1) packets in
  recordsCollection (fst out2) = recordsCollection (fst out1) /\
  imported (snd out2) = 0 /\
  skipped (snd out2) = imported (snd out1) + skipped (snd out1) /\
  errors (snd out2) = errors (snd out1) /\
  Z.of_nat (List.length (rawCollection (fst out2))) =
    Z.of_nat (List.length (rawCollection (fst out1)))
    + total (fun p => if decodable p then 1 else 0) packets.
Proof.
  cbv zeta. unfold importToMongo.
  destruct (importPackets_spec now packets st (mkCounts 0 0 0))
    as (new & R & _ & E & I & T & _ & _ & C & _).
  cbv zeta in R, E, I, T, C.
  destruct (fold_left (importPacket now) packets (st, mkCounts 0 0 0)) as [st1 c1].
  cbn [fst snd imported skipped errors] in *.
  destruct (importPackets_spec now' packets st1 (mkCounts 0 0 0))
    as (new2 & R2 & W2 & E2 & I2 & T2 & _ & _ & _ & Z2).
  cbv zeta in R2, W2, E2, I2, T2. cbn [imported skipped errors] in *.
  rewrite <- R in C. specialize (Z2 C). subst new2.
  rewrite app_nil_r in R2. cbn [List.length] in I2.
  split; [exact R2|]. split; [lia|]. split; [lia|]. split; [lia | exact W2].
Qed.

End ImporterFacts.

(* ===================================================================== *)
(** * The day's trip count against the trips loop                         *)
(* ===================================================================== *)

Section DailyFacts.
Import Api Daily.

Lemma total_app {A} (f : A -> Z) l1 l2 :
  total f (l1 ++ l2) = total f l1 + total f l2.
Proof. induction l1 as [|x l1 IH]; cbn [app total]; lia. Qed.

Lemma open_start_le_last pre st cur :
  ascending pre ->
  tripLoop loopStart pre = Some st ->
  currentTrip st = Some cur ->
  exists r0 l,
    tripRecords st = r0 :: l /\
    Api.lastEngineOnTime st = Some (timestamp (last (r0 :: l) r0)) /\
    ts_startTime cur <= timestamp (last (r0 :: l) r0).
Proof.
  intros Hasc Hst Hc. pose proof (tripLoop_loopInv _ _ Hst) as Inv.
  unfold loopInv in Inv. rewrite Hc in Inv.
  destruct Inv as (before & r0 & rest & st0 & Epre & Hon & Ecur & Erecs & Elast & _).
  exists r0, (filter isEngineOn rest). rewrite Erecs in Elast.
  split; [exact Erecs|]. split; [exact Elast|].
  rewrite Ecur. cbn [ts_startTime].
  pose proof (last_In (r0 :: filter isEngineOn rest) r0 ltac:(discriminate)) as Hin.
  destruct Hin as [<-|Hin]; [lia|].
  apply filter_In in Hin. destruct Hin as (Hin & _).
  rewrite Epre in Hasc. apply ascending_app in Hasc.
  destruct Hasc as (_ & Hs2 & _). unfold ascending in Hs2.
  apply StronglySorted_inv in Hs2. destruct Hs2 as (_ & Hf).
  rewrite Forall_forall in Hf. now apply Hf.
Qed.

Lemma lockstep_step pre c st r st' :
  ascending pre ->
  tripLoop loopStart pre = Some st ->
  lockstep (List.length pre) c st ->
  loopStep st r = Some st' ->
  lockstep (List.length (pre ++ [r])) (countStep c r) st'.
Proof.
  intros Hasc Hst (Hin & Hle & Hli & Hcount & Hn & Hsum) Hstep.
  unfold loopStep in Hstep. unfold countStep, lockstep. cbv zeta.
  rewrite (length_app pre [r]), Nat2Z.inj_add.
  change (Z.of_nat (List.length [r])) with 1.
  destruct (currentTrip st) as [cur|] eqn:Ec; cbn [isSome option_map] in Hin, Hli;
    rewrite Hin, Hli, Hle; rewrite Hin in Hcount.
  - destruct (open_start_le_last _ _ _ Hasc Hst Ec) as (r0 & l & Erecs & Elast & Hse).
    destruct (isEngineOn r); cbn [negb andb].
    + injection Hstep as <-.
      cbn [inTrip currentTrip isSome Daily.lastEngineOnTime Api.lastEngineOnTime
           lastIgnitionOn option_map trips tripCount ignitionOnTime].
      repeat split; try reflexivity; lia.
    + rewrite Elast in *. cbn [num] in *.
      destruct (Z.gtb_spec (timestamp r - timestamp (last (r0 :: l) r0)) 60000)
        as [Hgap|Hgap].
      * rewrite Erecs in Hstep.
        destruct (closeTrip_some cur r0 l) as (t & Ht & Hs & He & _).
        rewrite Ht in Hstep. injection Hstep as <-.
        cbn [inTrip currentTrip isSome Daily.lastEngineOnTime Api.lastEngineOnTime
             lastIgnitionOn option_map trips tripCount ignitionOnTime].
        split; [reflexivity|]. split; [reflexivity|]. split; [reflexivity|].
        destruct (meaningful t).
        -- rewrite length_app, Nat2Z.inj_add, total_app. cbn [List.length total].
           rewrite Hs, He. repeat split; lia.
        -- repeat split; lia.
      * injection Hstep as <-. rewrite Ec. cbn [isSome option_map].
        rewrite Hin. repeat split; try assumption; try reflexivity; try congruence; lia.
  - destruct (isEngineOn r); cbn [negb andb].
    + injection Hstep as <-.
      cbn [inTrip currentTrip isSome Daily.lastEngineOnTime Api.lastEngineOnTime
           lastIgnitionOn option_map trips tripCount ignitionOnTime ts_startTime].
      repeat split; try reflexivity; lia.
    + injection Hstep as <-. rewrite Ec. cbn [isSome option_map].
      rewrite Hin. repeat split; try assumption; try reflexivity; try congruence; lia.
Qed.

Lemma lockstep_inv records st :
  ascending records ->
  tripLoop loopStart records = Some st ->
  lockstep (List.length records) (countLoop records) st.
Proof.
  revert st. induction records as [|r pre IH] using rev_ind; intros st Hasc Hst.
  - injection Hst as <-. unfold lockstep. cbn. repeat split; lia.
  - rewrite tripLoop_snoc in Hst.
    destruct (tripLoop loopStart pre) as [st0|] eqn:E0; [|discriminate].
    destruct (ascending_app _ _ Hasc) as (Hpre & _).
    unfold countLoop. rewrite fold_left_app. cbn [fold_left].
    eapply lockstep_step; eauto.
Qed.

(** Property X29. On the same records, in ascending order of time, the day's loop
    counts every trip the trips loop lists, and a trip still open: its
    [tripCount] is at least their number and at most the number of
    records, and its driving time is at least the listed trips' total
    time from start to end. *)
Theorem daily_counts_cover_trips (records : list Doc) (st : Loop) :
  ascending records ->
  tripLoop loopStart records = Some st ->
  inTrip (countLoop records) = isSome (currentTrip st) /\
  Z.of_nat (List.length (trips st)) + (if isSome (currentTrip st) then 1 else 0)
    <= tripCount (countLoop records) <= Z.of_nat (List.length records) /\
  total (fun t => endTime t - startTime t) (trips st)
    <= ignitionOnTime (countLoop records) <= ignitionOnTimeOf records.
Proof.
  intros Hasc Hst.
  destruct (lockstep_inv _ _ Hasc Hst) as (Hin & Hle & Hli & Hcount & Hn & Hsum).
  rewrite Hin in Hcount.
  split; [exact Hin|]. split; [lia|]. split; [exact Hsum|].
  unfold ignitionOnTimeOf. cbv zeta. rewrite Hin, Hli, Hle.
  destruct (currentTrip st) as [cur|] eqn:Ec; cbn [isSome option_map andb]; [|lia].
  destruct (open_start_le_last _ _ _ Hasc Hst Ec) as (r0 & l & _ & Elast & Hse).
  rewrite Elast. cbn [isSome num]. lia.
Qed.

End DailyFacts.

(* ===================================================================== *)
(** * The device registry and the login check                             *)
(* ===================================================================== *)

Section RegistryFacts.
Import Registry.

Lemma fifteenDigits_nonempty i : fifteenDigits i = true -> orElse (Some i) None = Some i.
Proof.
  unfold fifteenDigits, orElse. destruct i as [|c i]; [discriminate | reflexivity].
Qed.

(** Property X30. A device registered through [POST /devices] is on the
    whitelist: for an IMEI of fifteen digits that the store does not
    hold, the request is answered 201 and from then on a login frame
    with that IMEI is answered 0x01 with the session bound to it;
    registering the IMEI again is answered 409 and changes nothing;
    and after [PATCH .../approve] the login is refused exactly when the
    body's [approved] was the boolean [false]. *)
Theorem registered_device_is_admitted (now : Z) (d : Models.Db) (i : string)
    (modemType plateNumber : option string) :
  fifteenDigits i = true ->
  Models.getDevice (Some d) i = None ->
  exists dev d1,
    postDevice now d (Some i) modemType plateNumber = (Created dev, d1) /\
    Models.getDevice (Some d1) i = Some dev /\
    Models.approved dev = Some true /\
    (forall now' s buffer,
       Server.loginIMEI buffer = Some i ->
       Server.onData now' (Some d1) s buffer =
         (Some d1,
          Server.mkSession (Some i) (Server.deviceVIN s) (Server.deviceType s)
            (Server.written s ++ [[x01]]) (Server.destroyed s))) /\
    (forall now' m p,
       postDevice now' d1 (Some i) m p = (Conflict dev, d1)) /\
    (forall v,
       Server.rejected (Models.getDevice (Some (snd (patchApprove d1 i v))) i) =
       match v with Some JFalse => true | _ => false end).
Proof.
  intros Hd Hnone.
  pose proof (fifteenDigits_nonempty i Hd) as Hne.
  unfold postDevice. rewrite Hne, Hd, Hnone. cbn [negb].
  eexists. eexists. split; [reflexivity|].
  assert (Hget : forall dev,
            Models.getDevice
              (Some (Models.mkIndexedDb (Models.devices d ++ [dev]) (Models.rawDocs d)
                       (Models.recordDocs d) (Models.uniqueRecords d))) i =
            if optStringEqb (Models.imei dev) (Some i) then Some dev else None).
  { intros dev. unfold Models.getDevice in *. cbn [Models.devices].
    rewrite find_append, Hnone. reflexivity. }
  split; [rewrite Hget; cbn [Models.imei]; now rewrite optStringEqb_refl|].
  split; [reflexivity|].
  split.
  { intros now' s buffer Hl. rewrite (login_decision _ _ _ _ _ Hl).
    rewrite Hget. cbn [Models.imei]. rewrite optStringEqb_refl. reflexivity. }
  split.
  { intros now' m p.
    rewrite Hget. cbn [Models.imei]. rewrite optStringEqb_refl. reflexivity. }
  intros v. unfold patchApprove.
  match goal with
  | |- context [Models.updateFirst ?p ?f ?l] =>
      destruct (Models.updateFirst p f l) as [devs|] eqn:U
  end.
  - assert (Hp : forall dev, optStringEqb (Models.imei dev) (Some i) = true ->
               optStringEqb (Models.imei (setApproved v dev)) (Some i) = true)
      by (intros dev H; exact H).
    destruct (updateFirst_find_same _ _ _ _ Hp U) as (old & _ & Hn).
    cbn [snd]. unfold Models.getDevice. cbn [Models.devices]. rewrite Hn.
    unfold Server.rejected, setApproved. cbn [Models.approved].
    destruct v as [[| |]|]; reflexivity.
  - apply updateFirst_none in U. cbn [Models.devices] in U.
    pose proof Hnone as Hn'. unfold Models.getDevice in Hn'.
    rewrite find_append, Hn' in U. cbn [find Models.imei] in U.
    rewrite optStringEqb_refl in U. discriminate.
Qed.

End RegistryFacts.

(* ===================================================================== *)
(** * Further concrete runs                                               *)
(* ===================================================================== *)

Section MoreRuns.

(** The sample frame has 53 bytes and one record. *)
Lemma decoded_frame_min_length_witness :
  exists pkt,
    Codec8.decodeCodec8 Samples.avlFrame = Codec8.Ok pkt /\
    15 + 30 * Codec8.numberOfData1 pkt <= Z.of_nat (List.length Samples.avlFrame).
Proof.
  eexists. split; [vm_compute; reflexivity|].
  apply decoded_frame_min_length. vm_compute. reflexivity.
Defined.

(** The sample frame followed by two more bytes decodes as before. *)
Lemma trailing_bytes_ignored_witness :
  exists pkt,
    Codec8.decodeCodec8 Samples.avlFrame = Codec8.Ok pkt /\
    Codec8.decodeCodec8 (Samples.avlFrame ++ [xff; xff]) = Codec8.Ok pkt.
Proof.
  eexists. split; [vm_compute; reflexivity|].
  apply trailing_bytes_ignored. vm_compute. reflexivity.
Defined.

(** Codec 12 is refused. *)
Lemma unknown_codec_rejected_witness :
  10 <= Z.of_nat (List.length MoreSamples.codec12Frame) /\
  Codec8.decodeCodec8 MoreSamples.codec12Frame =
    Codec8.Throw (Codec8.UnsupportedCodec 12).
Proof.
  split; [vm_compute; discriminate|].
  apply (unknown_codec_rejected MoreSamples.codec12Frame);
    vm_compute; discriminate.
Defined.

(** The sample frame's record is within the ranges. *)
Lemma decoded_packet_ranges_witness :
  exists pkt,
    Codec8.decodeCodec8 Samples.avlFrame = Codec8.Ok pkt /\
    Forall recordOk (Codec8.avlRecords pkt).
Proof.
  eexists. split; [vm_compute; reflexivity|].
  pose proof (decoded_packet_ranges Samples.avlFrame _ ltac:(vm_compute; reflexivity)) as H.
  destruct H as (_ & _ & _ & _ & _ & _ & H). exact H.
Defined.

(** The sample frame's IO elements are well formed. *)
Lemma decoded_elements_wellformed_witness :
  exists pkt,
    Codec8.decodeCodec8 Samples.avlFrame = Codec8.Ok pkt /\
    Forall (fun r => ioOk false (Codec8.io r)) (Codec8.avlRecords pkt).
Proof.
  eexists. split; [vm_compute; reflexivity|].
  exact (decoded_elements_wellformed Samples.avlFrame _ ltac:(vm_compute; reflexivity)).
Defined.

(** The sample login frame. *)
Lemma parseIMEI_fifteen_chars_witness :
  Codec8.parseIMEI Samples.loginFrame = Some "864275079658715"%string /\
  String.length "864275079658715" = 15%nat.
Proof.
  split; [vm_compute; reflexivity|].
  apply (parseIMEI_fifteen_chars Samples.loginFrame). vm_compute. reflexivity.
Defined.

(** IO 239 is the only id of [ignition]. *)
Lemma field_names_distinct_witness :
  Models.ioIdToFieldName 239 = Some "ignition"%string /\
  ~ In "ignition"%string baseFields.
Proof.
  split; [reflexivity|].
  apply (field_names_distinct 239 239 "ignition"); reflexivity.
Defined.

(** A second device is added beside the first. *)
Lemma upsertDevice_frame_witness :
  NoDup (map Models.imei (Models.devices MoreSamples.oneDevice)) /\
  match Models.upsertDevice 5 (Some MoreSamples.oneDevice) (Some "1"%string) None "FMC003" with
  | Some d' => NoDup (map Models.imei (Models.devices d'))
  | None => False
  end.
Proof.
  assert (H : NoDup (map Models.imei (Models.devices MoreSamples.oneDevice))).
  { repeat constructor. intros []. }
  split; [exact H|].
  destruct (upsertDevice_frame 5 MoreSamples.oneDevice (Some "1"%string) None "FMC003" H)
    as (d' & Hu & _ & _ & Hn & _).
  rewrite Hu. exact Hn.
Defined.

(** The sample frame sent again to a store with the unique index: it
    is acknowledged with 1 and the store keeps its one document. *)
Lemma avl_ack_counts_inserted_witness :
  Server.loginIMEI Samples.avlFrame = None /\
  List.length (Models.recordDocs MoreSamples.afterFrame) = 1%nat /\
  exists pkt d' ack,
    Codec8.decodeCodec8 Samples.avlFrame = Codec8.Ok pkt /\
    fst (Server.onData 0 (Some MoreSamples.afterFrame) Server.newSession
           Samples.avlFrame) = Some d' /\
    Server.written (snd (Server.onData 0 (Some MoreSamples.afterFrame)
                           Server.newSession Samples.avlFrame)) = [ack] /\
    uintBE ack = 1 /\
    Models.recordDocs d' = Models.recordDocs MoreSamples.afterFrame.
Proof.
  assert (L : Server.loginIMEI Samples.avlFrame = None) by (vm_compute; reflexivity).
  split; [exact L|]. split; [vm_compute; reflexivity|]. eexists.
  assert (D : Codec8.decodeCodec8 Samples.avlFrame = Codec8.Ok _)
    by (vm_compute; reflexivity).
  pose proof (avl_ack_counts_inserted 0 MoreSamples.afterFrame Server.newSession
                Samples.avlFrame _ L D) as H.
  destruct H as (d' & ack & new & k & Hd' & Hw & _ & Hu & Hdocs & _ & _ & _ & _
                   & _ & _ & _ & Hresent).
  assert (U : Models.uniqueRecords MoreSamples.afterFrame = true)
    by (vm_compute; reflexivity).
  assert (T : Models.keyTaken (Models.recordDocs MoreSamples.afterFrame)
                "records_fmc003" 1704067200000 None = true)
    by (vm_compute; reflexivity).
  rewrite (Hresent _ _ eq_refl U T), app_nil_r in Hdocs.
  exists d', ack. split; [exact D|]. split; [exact Hd'|].
  split; [exact Hw|]. split; [exact Hu | exact Hdocs].
Defined.

(** The sample device logs in, is revoked, and sends the sample frame:
    a new login would be refused, and the record is stored under the
    device's IMEI. *)
Lemma approval_checked_at_login_only_witness :
  Server.deviceIMEI MoreSamples.loggedIn = Some "864275079658715"%string /\
  Server.rejected (Models.getDevice (Some MoreSamples.revoked) "864275079658715") = true /\
  exists d2 new,
    fst (Server.onData 0 (Some MoreSamples.revoked) MoreSamples.loggedIn
           Samples.avlFrame) = Some d2 /\
    Models.recordDocs d2 = new /\
    List.length new = 1%nat /\
    Forall (fun cd => Models.rec_imei (snd cd) = Some "864275079658715"%string) new /\
    Server.rejected (Models.getDevice (Some d2) "864275079658715") = true.
Proof.
  assert (Hi : Server.deviceIMEI MoreSamples.loggedIn = Some "864275079658715"%string)
    by (vm_compute; reflexivity).
  assert (Hs : Models.getDevice (Some MoreSamples.oneDevice) "864275079658715" <> None)
    by (vm_compute; discriminate).
  assert (L : Server.loginIMEI Samples.avlFrame = None) by (vm_compute; reflexivity).
  assert (D : Codec8.decodeCodec8 Samples.avlFrame = Codec8.Ok _)
    by (vm_compute; reflexivity).
  destruct (approval_checked_at_login_only 0 MoreSamples.oneDevice) as [_ H].
  destruct (H _ _ _ _ Hi Hs L D)
    as (Hrej & _ & d2 & new & ack & Hd2 & Hdocs & Hall & Hlen & _ & _ & _ & _ & Hrej2).
  split; [exact Hi|]. split; [exact Hrej|].
  exists d2, new. split; [exact Hd2|]. split; [exact Hdocs|].
  split; [exact (Hlen eq_refl)|]. split; [exact Hall | exact Hrej2].
Defined.

(** The sample frame, preamble 0, is not a login. *)
Lemma decodable_frame_is_not_login_witness :
  exists pkt,
    Codec8.decodeCodec8 Samples.avlFrame = Codec8.Ok pkt /\
    Codec8.preamble pkt / 65536 <> 15 /\
    Server.loginIMEI Samples.avlFrame = None.
Proof.
  eexists. split; [vm_compute; reflexivity|].
  split; [vm_compute; discriminate|].
  apply (decodable_frame_is_not_login Samples.avlFrame _ ltac:(vm_compute; reflexivity)).
  vm_compute. discriminate.
Defined.

(** The sample login without a store. *)
Lemma no_store_rejects_login_witness :
  Server.loginIMEI Samples.loginFrame <> None /\
  snd (Server.onData 0 None Server.newSession Samples.loginFrame) =
    Server.mkSession None None None [[x00]] true.
Proof.
  assert (L : Server.loginIMEI Samples.loginFrame <> None) by (vm_compute; discriminate).
  split; [exact L|].
  exact (proj2 (no_store_rejects_login 0 Server.newSession Samples.loginFrame) L).
Defined.

(** 0xFFFF reads as a negative number. *)
Lemma toSigned16_twos_complement_witness :
  0 <= 65535 < 65536 /\
  exists w, Api.toSigned16 (Some 65535) = Some w /\ w < 0.
Proof.
  assert (H : 0 <= 65535 < 65536) by lia.
  split; [exact H|].
  destruct (toSigned16_twos_complement 65535 H) as (w & Hw & _ & _ & Hneg).
  exists w. split; [exact Hw|]. apply Hneg. lia.
Defined.

(** A spike between 1 and 2 is replaced by 2. *)
Lemma medianFilter_interior_witness :
  (1 <= 1)%nat /\ (1 + 1 < List.length [1; 100; 2])%nat /\
  nth 1 (Api.medianFilter [1; 100; 2]) 0 = 2.
Proof.
  split; [lia|]. split; [cbn; lia|].
  rewrite (medianFilter_interior [1; 100; 2] 1); [reflexivity | lia | cbn; lia].
Defined.


(** The clean drive scores above the floor. *)
Lemma score_floors_witness :
  exists b,
    Api.calculateDriverBehavior MoreSamples.cleanDrive = Some b /\
    40 <= Api.driverScore b /\
    Api.efficiencyScore b = 100 - Api.idlePenalty (Api.penalties b).
Proof.
  eexists. split; [vm_compute; reflexivity|].
  pose proof (score_floors MoreSamples.cleanDrive _ ltac:(vm_compute; reflexivity)) as H.
  destruct H as (H1 & _ & _ & _ & H2). split; [exact H1 | exact H2].
Defined.

(** The clean drive is a perfect trip. *)
Lemma perfect_trip_is_clean_witness :
  exists b,
    Api.calculateDriverBehavior MoreSamples.cleanDrive = Some b /\
    Api.perfectTrip b = true /\
    Api.driverScore b = 100.
Proof.
  eexists. split; [vm_compute; reflexivity|]. split; [reflexivity|].
  pose proof (perfect_trip_is_clean MoreSamples.cleanDrive _
                ltac:(vm_compute; reflexivity) eq_refl) as H.
  destruct H as (H & _). exact H.
Defined.

Lemma cleanDay_ascending : ascending MoreSamples.cleanDay.
Proof.
  unfold ascending, MoreSamples.cleanDay, MoreSamples.cleanDrive.
  cbn [map app].
  repeat (constructor; [|repeat (constructor; [cbn; lia|]); constructor]).
  constructor.
Qed.

(** The clean day lists one trip, which ends after it starts. *)
Lemma trips_ordered_witness :
  ascending MoreSamples.cleanDay /\
  exists st,
    Api.tripLoop Api.loopStart MoreSamples.cleanDay = Some st /\
    List.length (Api.trips st) = 1%nat /\
    Forall (fun t => Api.startTime t <= Api.endTime t) (Api.trips st).
Proof.
  split; [exact cleanDay_ascending|].
  eexists. split; [vm_compute; reflexivity|]. split; [reflexivity|].
  pose proof (trips_ordered MoreSamples.cleanDay _ cleanDay_ascending
                ltac:(vm_compute; reflexivity)) as H.
  destruct H as (H & _). exact H.
Defined.


(** The clean drive, 3 km in six minutes, is given fuel figures. *)
Lemma trip_fuel_only_when_long_witness :
  exists t,
    Api.closeTrip MoreSamples.cleanStart MoreSamples.cleanDrive = Some t /\
    Api.fuelFromGps t = true /\
    5 <= Api.durationMinutes t /\
    Api.fuelPer100km t <> None.
Proof.
  eexists. split; [vm_compute; reflexivity|]. split; [reflexivity|].
  pose proof (trip_fuel_only_when_long MoreSamples.cleanStart MoreSamples.cleanDrive _
                ltac:(vm_compute; reflexivity)) as H.
  apply proj1 in H. specialize (H eq_refl).
  destruct H as (first & sf & ef & km & _ & _ & _ & _ & _ & _ & _ & Hm & _ & Hp).
  split; [exact Hm | exact Hp].
Defined.


(** The clean day counts one trip. *)
Lemma daily_counts_cover_trips_witness :
  ascending MoreSamples.cleanDay /\
  exists st,
    Api.tripLoop Api.loopStart MoreSamples.cleanDay = Some st /\
    Daily.inTrip (Daily.countLoop MoreSamples.cleanDay) = Api.isSome (Api.currentTrip st).
Proof.
  split; [exact cleanDay_ascending|].
  eexists. split; [vm_compute; reflexivity|].
  pose proof (daily_counts_cover_trips MoreSamples.cleanDay _ cleanDay_ascending
                ltac:(vm_compute; reflexivity)) as H.
  destruct H as (H & _). exact H.
Defined.

(** The sample IMEI registered into an empty store. *)
Lemma registered_device_is_admitted_witness :
  Registry.fifteenDigits "864275079658715" = true /\
  Models.getDevice (Some Samples.emptyDb) "864275079658715" = None /\
  exists dev d1,
    Registry.postDevice 0 Samples.emptyDb (Some "864275079658715"%string) None None
      = (Registry.Created dev, d1) /\
    Server.written (snd (Server.onData 1 (Some d1) Server.newSession Samples.loginFrame))
      = [[x01]].
Proof.
  split; [reflexivity|]. split; [reflexivity|].
  destruct (registered_device_is_admitted 0 Samples.emptyDb "864275079658715"
              None None eq_refl eq_refl) as (dev & d1 & Hp & _ & _ & Hlogin & _).
  exists dev, d1. split; [exact Hp|].
  rewrite (Hlogin 1 Server.newSession Samples.loginFrame); [reflexivity|].
  vm_compute. reflexivity.
Defined.

End MoreRuns.
